(** * ADCIRCModules mesh engine: identifier management, native-ASCII
      reader and writer, link table and point location

    A shallow embedding of [src/src/mesh.cpp] (class [Adcirc::Geometry::Mesh])
    together with the properties that the mesh specification states about it.

    Conventions of the embedding:
    - [size_t] is [N]; subtraction and accumulation wrap modulo [2^64] and
      are written out ([size_sub], [size_add]);
    - a [Node*] into the mesh's node vector is the storage position it
      points at ([NodePtr]); likewise [Element*];
    - [std::unordered_map<size_t,size_t>] is [gmap N N]; its [operator[]]
      inserts a value-initialised entry for an absent key ([map_subscript]);
    - a member function that can throw is a computation in the monad [M],
      whose state (the mesh object) survives the exception, as the object
      survives a C++ exception that unwinds out of one of its methods;
    - behaviour that C++ leaves undefined (dereferencing a null
      [unique_ptr], indexing an empty token vector) is the explicit outcome
      [Undefined];
    - the classes and helper namespaces whose sources are not part of
      [src/] ([Node], [Element], [Boundary], [IO], [StringConversion],
      [QKdtree2]) are reached through the interfaces [Floating] and
      [External]. *)

From Stdlib Require Import NArith ZArith Lia List String Ascii DecimalString.
From stdpp Require Import base option list gmap strings sorting.

Local Open Scope string_scope.
Local Open Scope list_scope.
Local Open Scope N_scope.

(** ** Machine integers *)

Definition SIZE_MODULUS : N := 2 ^ 64.

(** Conversion of a C++ [int] to [size_t] (as in [return -1;]). *)
Definition size_of_int (z : Z) : N := Z.to_N (z mod Z.of_N SIZE_MODULUS).

(** [a - b] on [size_t]. *)
Definition size_sub (a b : N) : N := size_of_int (Z.of_N a - Z.of_N b).

(** [a + b] on [size_t]. *)
Definition size_add (a b : N) : N := (a + b) mod SIZE_MODULUS.

(** ** Outcomes and the method monad *)

Inductive result (A : Type) : Type :=
| Ok (a : A)
| Throw (msg : string)
| Undefined.
Arguments Ok {A} a.
Arguments Throw {A} msg.
Arguments Undefined {A}.

Definition M (S A : Type) : Type := S -> result A * S.

#[global] Instance M_ret {S} : MRet (M S) := fun A a s => (Ok a, s).

#[global] Instance M_bind {S} : MBind (M S) := fun A B k c s =>
  match c s with
  | (Ok a, s') => k a s'
  | (Throw msg, s') => (Throw msg, s')
  | (Undefined, s') => (Undefined, s')
  end.

Definition gets {S A} (f : S -> A) : M S A := fun s => (Ok (f s), s).
Definition modify {S} (f : S -> S) : M S unit := fun s => (Ok tt, f s).

(** The macro [adcircmodules_throw_exception(msg)]. *)
Definition adcircmodules_throw_exception {S A} (msg : string) : M S A :=
  fun s => (Throw msg, s).

Definition undefined_behaviour {S A} : M S A := fun s => (Undefined, s).

(** [if (c) adcircmodules_throw_exception(msg);] *)
Definition throw_if {S} (c : bool) (msg : string) : M S unit :=
  if c then adcircmodules_throw_exception msg else mret tt.

(** [for (size_t i = start; ...; ++i) body(i)] with [n] iterations. *)
Fixpoint for_range {S} (n : nat) (i : N) (body : N -> M S unit) : M S unit :=
  match n with
  | O => mret tt
  | S k => body i;; for_range k (N.succ i) body
  end.

(** [for (auto &x : v) body(x)] over a vector that the body does not
    resize. *)
Fixpoint for_each {S A} (v : list A) (body : A -> M S unit) : M S unit :=
  match v with
  | [] => mret tt
  | x :: v' => body x;; for_each v' body
  end.

(** [std::unordered_map::operator[]]: the mapped value, after inserting a
    value-initialised one when the key is absent. *)
Definition map_subscript (m : gmap N N) (k : N) : N * gmap N N :=
  match m !! k with
  | Some v => (v, m)
  | None => (0, <[k := 0]> m)
  end.

(** A state property that every outcome of [c] keeps. *)
Definition preserves {S A} (P : S -> Prop) (c : M S A) : Prop :=
  forall s r s', c s = (r, s') -> P s -> P s'.

(** ** Records *)

(** Floating-point values and the two operations the mesh applies to them
    (element centroids); kept abstract. *)
Class Floating := {
  double : Type;
  double_zero : double;
  double_add : double -> double -> double;
  double_div_int : double -> Z -> double;
}.

(** A [Node*] into [m_nodes]: the position pointed at. *)
Abbreviation NodePtr := N.

Section Records.
Context `{Floating}.

(** Modelled from the spec: class [Node] (node.h is not part of [src/]);
    an identifier, a position and an elevation, built by
    [Node(id, x, y, z)] and read by [id()], [x()], [y()], [z()]. *)
Record Node := mkNode {
  Node_id : N;
  Node_x : double;
  Node_y : double;
  Node_z : double;
}.

(** Modelled from the spec: class [Element] (element.h is not part of
    [src/]); an identifier and 3 or 4 node references, set by
    [setElement(id, n1, n2, n3 [, n4])]. *)
Record Element := mkElement {
  Element_id : N;
  Element_nodes : list NodePtr;
}.

(** [e.setElement(id, n1, n2, n3 [, n4])]. *)
Definition Element_setElement (id : N) (ns : list NodePtr) (_ : Element)
  : Element := mkElement id ns.

(** [Element::n()], an [int]. *)
Definition Element_n (e : Element) : Z := Z.of_nat (length (Element_nodes e)).

(** Modelled from the spec: [Element::elementLeg(j)] (element.cpp is not
    part of [src/]); the ordered vertex pair number [j] among the pairs that
    are consecutive around the polygon, the last vertex being followed by
    the first. *)
Definition Element_elementLeg (e : Element) (j : nat)
  : option (NodePtr * NodePtr) :=
  match Element_nodes e !! j,
        Element_nodes e !! ((j + 1) mod length (Element_nodes e))%nat with
  | Some a, Some b => Some (a, b)
  | _, _ => None
  end.

Definition Point : Type := double * double.

End Records.

(** ** Collaborators outside [src/]

    Everything [mesh.cpp] calls but does not define.  Methods of [Element]
    and [Boundary] that follow their [Node*] members take the node vector
    the pointers refer to. *)
Class External `{Floating} := {
  (* node.h *)
  Node_default : Node;
  Node_toAdcircString : Node -> bool -> string;
  (* element.h *)
  Element_default : Element;
  Element_toAdcircString : list Node -> Element -> string;
  Element_sortVerticiesAboutCenter : list Node -> Element -> Element;
  Element_isInside : list Node -> Element -> Point -> bool;
  (* boundary.h *)
  Boundary : Type;
  Boundary_default : Boundary;
  Boundary_setBoundary : Z -> N -> Boundary -> Boundary;
  Boundary_length : Boundary -> N;
  Boundary_setNode1 : N -> NodePtr -> Boundary -> Boundary;
  Boundary_setNode2 : N -> NodePtr -> Boundary -> Boundary;
  Boundary_setCrestElevation : N -> double -> Boundary -> Boundary;
  Boundary_setSupercriticalWeirCoefficient
    : N -> double -> Boundary -> Boundary;
  Boundary_setSubcriticalWeirCoefficient
    : N -> double -> Boundary -> Boundary;
  Boundary_setPipeHeight : N -> double -> Boundary -> Boundary;
  Boundary_setPipeCoefficient : N -> double -> Boundary -> Boundary;
  Boundary_setPipeDiameter : N -> double -> Boundary -> Boundary;
  Boundary_toStringList : list Node -> Boundary -> list string;
  (* io.h: the [bool] result and the out-parameters of a line parser are
     an [option] *)
  IO_getFileExtension : string -> string;
  IO_splitString : string -> list string;
  IO_splitStringNodeFormat : string -> option (N * double * double * double);
  IO_splitStringElemFormat : string -> option (N * list N);
  IO_splitStringBoundary0Format : string -> option N;
  IO_splitStringBoundary23Format : string -> option (N * double * double);
  IO_splitStringBoundary24Format
    : string -> option (N * N * double * double * double);
  IO_splitStringBoundary25Format
    : string ->
      option (N * N * double * double * double * double * double * double);
  (* stringconversion.h: the value and the [ok] flag *)
  StringConversion_stringToSizet : string -> N * bool;
  StringConversion_stringToInt : string -> Z * bool;
  (* kdtree2lib.h *)
  QKdtree2 : Type;
  QKdtree2_new : QKdtree2;
  QKdtree2_NoError : Z;
  QKdtree2_isInitialized : QKdtree2 -> bool;
  QKdtree2_build : list double -> list double -> QKdtree2 -> QKdtree2 * Z;
  QKdtree2_findXNearest : QKdtree2 -> Point -> Z -> list N;
}.

(** [std::to_string] and [operator<<] on a [size_t]: its decimal digits. *)
Definition to_string (n : N) : string := NilZero.string_of_uint (N.to_uint n).

Fixpoint spaces (k : nat) : string :=
  match k with
  | O => ""
  | S k' => String " " (spaces k')
  end.

(** One [%11i] field of [boost::format]: right-justified in a width of 11,
    never truncated. *)
Definition format_11i (n : N) : string :=
  let digits := to_string n in
  spaces (11 - String.length digits) +:+ digits.

(** [boost::str(boost::format("%11i %11i") % a % b)]. *)
Definition format_11i_11i (a b : N) : string :=
  format_11i a +:+ " " +:+ format_11i b.

Inductive MeshFormat := MESH_UNKNOWN | MESH_ADCIRC | MESH_2DM | MESH_DFLOW.

Section MeshState.
Context `{External}.

(** ** The mesh object *)

Record Mesh := mkMesh {
  m_filename : string;
  m_epsg : Z;
  m_isLatLon : bool;
  m_meshHeaderString : string;
  m_numNodes : N;
  m_numElements : N;
  m_numOpenBoundaries : N;
  m_numLandBoundaries : N;
  m_totalOpenBoundaryNodes : N;
  m_totalLandBoundaryNodes : N;
  m_nodeOrderingLogical : bool;
  m_elementOrderingLogical : bool;
  m_nodes : list Node;
  m_elements : list Element;
  m_openBoundaries : list Boundary;
  m_landBoundaries : list Boundary;
  m_nodeLookup : gmap N N;
  m_elementLookup : gmap N N;
  m_nodalSearchTree : option QKdtree2;
  m_elementalSearchTree : option QKdtree2;
}.

(** Assignment to one member. *)
Definition set_m_filename (v : string) (m : Mesh) : Mesh :=
  mkMesh v (m_epsg m) (m_isLatLon m) (m_meshHeaderString m) (m_numNodes m)
    (m_numElements m) (m_numOpenBoundaries m) (m_numLandBoundaries m)
    (m_totalOpenBoundaryNodes m) (m_totalLandBoundaryNodes m)
    (m_nodeOrderingLogical m) (m_elementOrderingLogical m) (m_nodes m)
    (m_elements m) (m_openBoundaries m) (m_landBoundaries m)
    (m_nodeLookup m) (m_elementLookup m) (m_nodalSearchTree m)
    (m_elementalSearchTree m).

Definition set_m_epsg (v : Z) (m : Mesh) : Mesh :=
  mkMesh (m_filename m) v (m_isLatLon m) (m_meshHeaderString m)
    (m_numNodes m) (m_numElements m) (m_numOpenBoundaries m)
    (m_numLandBoundaries m) (m_totalOpenBoundaryNodes m)
    (m_totalLandBoundaryNodes m) (m_nodeOrderingLogical m)
    (m_elementOrderingLogical m) (m_nodes m) (m_elements m)
    (m_openBoundaries m) (m_landBoundaries m) (m_nodeLookup m)
    (m_elementLookup m) (m_nodalSearchTree m) (m_elementalSearchTree m).

Definition set_m_isLatLon (v : bool) (m : Mesh) : Mesh :=
  mkMesh (m_filename m) (m_epsg m) v (m_meshHeaderString m) (m_numNodes m)
    (m_numElements m) (m_numOpenBoundaries m) (m_numLandBoundaries m)
    (m_totalOpenBoundaryNodes m) (m_totalLandBoundaryNodes m)
    (m_nodeOrderingLogical m) (m_elementOrderingLogical m) (m_nodes m)
    (m_elements m) (m_openBoundaries m) (m_landBoundaries m)
    (m_nodeLookup m) (m_elementLookup m) (m_nodalSearchTree m)
    (m_elementalSearchTree m).

Definition set_m_meshHeaderString (v : string) (m : Mesh) : Mesh :=
  mkMesh (m_filename m) (m_epsg m) (m_isLatLon m) v (m_numNodes m)
    (m_numElements m) (m_numOpenBoundaries m) (m_numLandBoundaries m)
    (m_totalOpenBoundaryNodes m) (m_totalLandBoundaryNodes m)
    (m_nodeOrderingLogical m) (m_elementOrderingLogical m) (m_nodes m)
    (m_elements m) (m_openBoundaries m) (m_landBoundaries m)
    (m_nodeLookup m) (m_elementLookup m) (m_nodalSearchTree m)
    (m_elementalSearchTree m).

Definition set_m_numNodes (v : N) (m : Mesh) : Mesh :=
  mkMesh (m_filename m) (m_epsg m) (m_isLatLon m) (m_meshHeaderString m) v
    (m_numElements m) (m_numOpenBoundaries m) (m_numLandBoundaries m)
    (m_totalOpenBoundaryNodes m) (m_totalLandBoundaryNodes m)
    (m_nodeOrderingLogical m) (m_elementOrderingLogical m) (m_nodes m)
    (m_elements m) (m_openBoundaries m) (m_landBoundaries m)
    (m_nodeLookup m) (m_elementLookup m) (m_nodalSearchTree m)
    (m_elementalSearchTree m).

Definition set_m_numElements (v : N) (m : Mesh) : Mesh :=
  mkMesh (m_filename m) (m_epsg m) (m_isLatLon m) (m_meshHeaderString m)
    (m_numNodes m) v (m_numOpenBoundaries m) (m_numLandBoundaries m)
    (m_totalOpenBoundaryNodes m) (m_totalLandBoundaryNodes m)
    (m_nodeOrderingLogical m) (m_elementOrderingLogical m) (m_nodes m)
    (m_elements m) (m_openBoundaries m) (m_landBoundaries m)
    (m_nodeLookup m) (m_elementLookup m) (m_nodalSearchTree m)
    (m_elementalSearchTree m).

Definition set_m_numOpenBoundaries (v : N) (m : Mesh) : Mesh :=
  mkMesh (m_filename m) (m_epsg m) (m_isLatLon m) (m_meshHeaderString m)
    (m_numNodes m) (m_numElements m) v (m_numLandBoundaries m)
    (m_totalOpenBoundaryNodes m) (m_totalLandBoundaryNodes m)
    (m_nodeOrderingLogical m) (m_elementOrderingLogical m) (m_nodes m)
    (m_elements m) (m_openBoundaries m) (m_landBoundaries m)
    (m_nodeLookup m) (m_elementLookup m) (m_nodalSearchTree m)
    (m_elementalSearchTree m).

Definition set_m_numLandBoundaries (v : N) (m : Mesh) : Mesh :=
  mkMesh (m_filename m) (m_epsg m) (m_isLatLon m) (m_meshHeaderString m)
    (m_numNodes m) (m_numElements m) (m_numOpenBoundaries m) v
    (m_totalOpenBoundaryNodes m) (m_totalLandBoundaryNodes m)
    (m_nodeOrderingLogical m) (m_elementOrderingLogical m) (m_nodes m)
    (m_elements m) (m_openBoundaries m) (m_landBoundaries m)
    (m_nodeLookup m) (m_elementLookup m) (m_nodalSearchTree m)
    (m_elementalSearchTree m).

Definition set_m_totalOpenBoundaryNodes (v : N) (m : Mesh) : Mesh :=
  mkMesh (m_filename m) (m_epsg m) (m_isLatLon m) (m_meshHeaderString m)
    (m_numNodes m) (m_numElements m) (m_numOpenBoundaries m)
    (m_numLandBoundaries m) v (m_totalLandBoundaryNodes m)
    (m_nodeOrderingLogical m) (m_elementOrderingLogical m) (m_nodes m)
    (m_elements m) (m_openBoundaries m) (m_landBoundaries m)
    (m_nodeLookup m) (m_elementLookup m) (m_nodalSearchTree m)
    (m_elementalSearchTree m).

Definition set_m_totalLandBoundaryNodes (v : N) (m : Mesh) : Mesh :=
  mkMesh (m_filename m) (m_epsg m) (m_isLatLon m) (m_meshHeaderString m)
    (m_numNodes m) (m_numElements m) (m_numOpenBoundaries m)
    (m_numLandBoundaries m) (m_totalOpenBoundaryNodes m) v
    (m_nodeOrderingLogical m) (m_elementOrderingLogical m) (m_nodes m)
    (m_elements m) (m_openBoundaries m) (m_landBoundaries m)
    (m_nodeLookup m) (m_elementLookup m) (m_nodalSearchTree m)
    (m_elementalSearchTree m).

Definition set_m_nodeOrderingLogical (v : bool) (m : Mesh) : Mesh :=
  mkMesh (m_filename m) (m_epsg m) (m_isLatLon m) (m_meshHeaderString m)
    (m_numNodes m) (m_numElements m) (m_numOpenBoundaries m)
    (m_numLandBoundaries m) (m_totalOpenBoundaryNodes m)
    (m_totalLandBoundaryNodes m) v (m_elementOrderingLogical m) (m_nodes m)
    (m_elements m) (m_openBoundaries m) (m_landBoundaries m)
    (m_nodeLookup m) (m_elementLookup m) (m_nodalSearchTree m)
    (m_elementalSearchTree m).

Definition set_m_elementOrderingLogical (v : bool) (m : Mesh) : Mesh :=
  mkMesh (m_filename m) (m_epsg m) (m_isLatLon m) (m_meshHeaderString m)
    (m_numNodes m) (m_numElements m) (m_numOpenBoundaries m)
    (m_numLandBoundaries m) (m_totalOpenBoundaryNodes m)
    (m_totalLandBoundaryNodes m) (m_nodeOrderingLogical m) v (m_nodes m)
    (m_elements m) (m_openBoundaries m) (m_landBoundaries m)
    (m_nodeLookup m) (m_elementLookup m) (m_nodalSearchTree m)
    (m_elementalSearchTree m).

Definition set_m_nodes (v : list Node) (m : Mesh) : Mesh :=
  mkMesh (m_filename m) (m_epsg m) (m_isLatLon m) (m_meshHeaderString m)
    (m_numNodes m) (m_numElements m) (m_numOpenBoundaries m)
    (m_numLandBoundaries m) (m_totalOpenBoundaryNodes m)
    (m_totalLandBoundaryNodes m) (m_nodeOrderingLogical m)
    (m_elementOrderingLogical m) v (m_elements m) (m_openBoundaries m)
    (m_landBoundaries m) (m_nodeLookup m) (m_elementLookup m)
    (m_nodalSearchTree m) (m_elementalSearchTree m).

Definition set_m_elements (v : list Element) (m : Mesh) : Mesh :=
  mkMesh (m_filename m) (m_epsg m) (m_isLatLon m) (m_meshHeaderString m)
    (m_numNodes m) (m_numElements m) (m_numOpenBoundaries m)
    (m_numLandBoundaries m) (m_totalOpenBoundaryNodes m)
    (m_totalLandBoundaryNodes m) (m_nodeOrderingLogical m)
    (m_elementOrderingLogical m) (m_nodes m) v (m_openBoundaries m)
    (m_landBoundaries m) (m_nodeLookup m) (m_elementLookup m)
    (m_nodalSearchTree m) (m_elementalSearchTree m).

Definition set_m_openBoundaries (v : list Boundary) (m : Mesh) : Mesh :=
  mkMesh (m_filename m) (m_epsg m) (m_isLatLon m) (m_meshHeaderString m)
    (m_numNodes m) (m_numElements m) (m_numOpenBoundaries m)
    (m_numLandBoundaries m) (m_totalOpenBoundaryNodes m)
    (m_totalLandBoundaryNodes m) (m_nodeOrderingLogical m)
    (m_elementOrderingLogical m) (m_nodes m) (m_elements m) v
    (m_landBoundaries m) (m_nodeLookup m) (m_elementLookup m)
    (m_nodalSearchTree m) (m_elementalSearchTree m).

Definition set_m_landBoundaries (v : list Boundary) (m : Mesh) : Mesh :=
  mkMesh (m_filename m) (m_epsg m) (m_isLatLon m) (m_meshHeaderString m)
    (m_numNodes m) (m_numElements m) (m_numOpenBoundaries m)
    (m_numLandBoundaries m) (m_totalOpenBoundaryNodes m)
    (m_totalLandBoundaryNodes m) (m_nodeOrderingLogical m)
    (m_elementOrderingLogical m) (m_nodes m) (m_elements m)
    (m_openBoundaries m) v (m_nodeLookup m) (m_elementLookup m)
    (m_nodalSearchTree m) (m_elementalSearchTree m).

Definition set_m_nodeLookup (v : gmap N N) (m : Mesh) : Mesh :=
  mkMesh (m_filename m) (m_epsg m) (m_isLatLon m) (m_meshHeaderString m)
    (m_numNodes m) (m_numElements m) (m_numOpenBoundaries m)
    (m_numLandBoundaries m) (m_totalOpenBoundaryNodes m)
    (m_totalLandBoundaryNodes m) (m_nodeOrderingLogical m)
    (m_elementOrderingLogical m) (m_nodes m) (m_elements m)
    (m_openBoundaries m) (m_landBoundaries m) v (m_elementLookup m)
    (m_nodalSearchTree m) (m_elementalSearchTree m).

Definition set_m_elementLookup (v : gmap N N) (m : Mesh) : Mesh :=
  mkMesh (m_filename m) (m_epsg m) (m_isLatLon m) (m_meshHeaderString m)
    (m_numNodes m) (m_numElements m) (m_numOpenBoundaries m)
    (m_numLandBoundaries m) (m_totalOpenBoundaryNodes m)
    (m_totalLandBoundaryNodes m) (m_nodeOrderingLogical m)
    (m_elementOrderingLogical m) (m_nodes m) (m_elements m)
    (m_openBoundaries m) (m_landBoundaries m) (m_nodeLookup m) v
    (m_nodalSearchTree m) (m_elementalSearchTree m).

Definition set_m_nodalSearchTree (v : option QKdtree2) (m : Mesh) : Mesh :=
  mkMesh (m_filename m) (m_epsg m) (m_isLatLon m) (m_meshHeaderString m)
    (m_numNodes m) (m_numElements m) (m_numOpenBoundaries m)
    (m_numLandBoundaries m) (m_totalOpenBoundaryNodes m)
    (m_totalLandBoundaryNodes m) (m_nodeOrderingLogical m)
    (m_elementOrderingLogical m) (m_nodes m) (m_elements m)
    (m_openBoundaries m) (m_landBoundaries m) (m_nodeLookup m)
    (m_elementLookup m) v (m_elementalSearchTree m).

Definition set_m_elementalSearchTree (v : option QKdtree2) (m : Mesh) : Mesh :=
  mkMesh (m_filename m) (m_epsg m) (m_isLatLon m) (m_meshHeaderString m)
    (m_numNodes m) (m_numElements m) (m_numOpenBoundaries m)
    (m_numLandBoundaries m) (m_totalOpenBoundaryNodes m)
    (m_totalLandBoundaryNodes m) (m_nodeOrderingLogical m)
    (m_elementOrderingLogical m) (m_nodes m) (m_elements m)
    (m_openBoundaries m) (m_landBoundaries m) (m_nodeLookup m)
    (m_elementLookup m) (m_nodalSearchTree m) v.

(** *** Construction and plain accessors *)

Definition defineProjection (epsg : Z) (isLatLon : bool) (m : Mesh) : Mesh :=
  set_m_isLatLon isLatLon (set_m_epsg epsg m).

Definition _init (m : Mesh) : Mesh :=
  let m := if decide (m_epsg m = (-1)%Z)
           then defineProjection 4326 true m else m in
  let m := set_m_nodalSearchTree None m in
  let m := set_m_elementalSearchTree None m in
  let m := set_m_numNodes 0 m in
  let m := set_m_numElements 0 m in
  let m := set_m_numLandBoundaries 0 m in
  let m := set_m_numOpenBoundaries 0 m in
  let m := set_m_totalOpenBoundaryNodes 0 m in
  let m := set_m_totalLandBoundaryNodes 0 m in
  let m := set_m_nodeOrderingLogical true m in
  let m := set_m_elementOrderingLogical true m in
  let m := set_m_nodes [] m in
  let m := set_m_elements [] m in
  let m := set_m_openBoundaries [] m in
  set_m_landBoundaries [] m.

(** [Mesh::Mesh(filename)]: the string, vector, map and pointer members are
    default-constructed; the scalar members are indeterminate until [_init]
    assigns every one of them. *)
Definition Mesh_new (filename : string) : Mesh :=
  _init (mkMesh filename (-1) false "" 0 0 0 0 0 0 false false
           [] [] [] [] ∅ ∅ None None).

Definition filename (m : Mesh) : string := m_filename m.
Definition setFilename (f : string) (m : Mesh) : Mesh := set_m_filename f m.
Definition meshHeaderString (m : Mesh) : string := m_meshHeaderString m.
Definition setMeshHeaderString (h : string) (m : Mesh) : Mesh :=
  set_m_meshHeaderString h m.
Definition numNodes (m : Mesh) : N := m_numNodes m.
Definition setNumNodes (n : N) (m : Mesh) : Mesh := set_m_numNodes n m.
Definition numElements (m : Mesh) : N := m_numElements m.
Definition setNumElements (n : N) (m : Mesh) : Mesh := set_m_numElements n m.
Definition numOpenBoundaries (m : Mesh) : N := m_numOpenBoundaries m.
Definition setNumOpenBoundaries (n : N) (m : Mesh) : Mesh :=
  set_m_numOpenBoundaries n m.
Definition numLandBoundaries (m : Mesh) : N := m_numLandBoundaries m.
Definition setNumLandBoundaries (n : N) (m : Mesh) : Mesh :=
  set_m_numLandBoundaries n m.
Definition isLatLon (m : Mesh) : bool := m_isLatLon m.
Definition nodeOrderingIsLogical (m : Mesh) : bool := m_nodeOrderingLogical m.
Definition elementOrderingIsLogical (m : Mesh) : bool :=
  m_elementOrderingLogical m.

(** Following a [Node*] / an [Element*] of this mesh. *)
Definition node_at (m : Mesh) (p : NodePtr) : option Node :=
  m_nodes m !! N.to_nat p.
Definition element_at (m : Mesh) (p : N) : option Element :=
  m_elements m !! N.to_nat p.

(** *** Boundary node totals *)

Definition totalLandBoundaryNodes : M Mesh N :=
  modify (set_m_totalLandBoundaryNodes 0);;
  bs ← gets m_landBoundaries;
  for_each bs (fun b =>
    modify (fun m => set_m_totalLandBoundaryNodes
                       (size_add (m_totalLandBoundaryNodes m)
                                 (Boundary_length b)) m));;
  gets m_totalLandBoundaryNodes.

Definition totalOpenBoundaryNodes : M Mesh N :=
  modify (set_m_totalOpenBoundaryNodes 0);;
  bs ← gets m_openBoundaries;
  for_each bs (fun b =>
    modify (fun m => set_m_totalOpenBoundaryNodes
                       (size_add (m_totalOpenBoundaryNodes m)
                                 (Boundary_length b)) m));;
  gets m_totalOpenBoundaryNodes.

(** *** Access by position *)

Definition node (index : N) : M Mesh NodePtr :=
  n ← gets numNodes;
  if bool_decide (index < n) then mret index
  else adcircmodules_throw_exception
         ("Mesh: Node index " +:+ to_string index +:+ " out of bounds").

Definition element (index : N) : M Mesh N :=
  n ← gets numElements;
  if bool_decide (index < n) then mret index
  else adcircmodules_throw_exception "Mesh: Element index out of bounds".

(** *** Access by identifier *)

(** [this->m_nodeLookup[id]] and [this->m_elementLookup[id]]. *)
Definition nodeLookup_subscript (id : N) : M Mesh N :=
  fun m => let '(pos, t) := map_subscript (m_nodeLookup m) id in
           (Ok pos, set_m_nodeLookup t m).

Definition elementLookup_subscript (id : N) : M Mesh N :=
  fun m => let '(pos, t) := map_subscript (m_elementLookup m) id in
           (Ok pos, set_m_elementLookup t m).

Definition nodeById (id : N) : M Mesh NodePtr :=
  logical ← gets m_nodeOrderingLogical;
  if logical : bool then
    n ← gets numNodes;
    if bool_decide (0 < id) && bool_decide (id <= n)
    then mret (size_sub id 1)
    else adcircmodules_throw_exception
           ("Mesh: Node id " +:+ to_string id +:+ " not found")
  else nodeLookup_subscript id.

Definition elementById (id : N) : M Mesh N :=
  logical ← gets m_elementOrderingLogical;
  if logical : bool then
    n ← gets numElements;
    if bool_decide (0 < id) && bool_decide (id <= n)
    then mret (size_sub id 1)
    else adcircmodules_throw_exception "Mesh: Element id not found"
  else elementLookup_subscript id.

Definition nodeIndexById (id : N) : M Mesh N :=
  logical ← gets m_nodeOrderingLogical;
  if logical : bool then mret (size_sub id 1)
  else nodeLookup_subscript id.

Definition elementIndexById (id : N) : M Mesh N :=
  logical ← gets m_elementOrderingLogical;
  if logical : bool then mret id
  else elementLookup_subscript id.

(** ** Reading *)

(** *** The input stream

    A text file is its lines and whether the last one is terminated; the
    stream keeps the lines not yet extracted and its [good()] state. *)
Record File := mkFile {
  file_lines : list string;
  file_final_newline : bool;
}.

Record fstream := mkFstream {
  fs_lines : list string;
  fs_final_newline : bool;
  fs_good : bool;
}.

(** [std::fstream fid(name)]: a missing file gives a stream that is not
    good. *)
Definition fstream_open (disk : gmap string File) (name : string) : fstream :=
  match disk !! name with
  | Some f => mkFstream (file_lines f) (file_final_newline f) true
  | None => mkFstream [] false false
  end.

(** [std::getline(fid, buf)]: a stream that is not good leaves [buf] as it
    is; at the end of the input the buffer is erased and the stream fails;
    extracting an unterminated last line sets [eofbit]. *)
Definition getline (buf : string) (f : fstream) : string * fstream :=
  if fs_good f then
    match fs_lines f with
    | [] => ("", mkFstream [] (fs_final_newline f) false)
    | [l] => (l, mkFstream [] (fs_final_newline f) (fs_final_newline f))
    | l :: rest => (l, mkFstream rest (fs_final_newline f) true)
    end
  else (buf, f).

Definition fstream_close (f : fstream) : fstream :=
  mkFstream [] (fs_final_newline f) false.

(** [IO::fileExists]. *)
Definition IO_fileExists (disk : gmap string File) (name : string) : bool :=
  bool_decide (is_Some (disk !! name)).

(** The readers run on the mesh and the open stream. *)
Abbreviation Rd := (M (Mesh * fstream)).

Definition on_mesh {A} (c : M Mesh A) : Rd A :=
  fun '(m, f) => let '(r, m') := c m in (r, (m', f)).

Definition std_getline (buf : string) : Rd string :=
  fun '(m, f) => let '(l, f') := getline buf f in (Ok l, (m, f')).

Definition fid_close : Rd unit :=
  fun '(m, f) => (Ok tt, (m, fstream_close f)).

(** [fid.close(); adcircmodules_throw_exception(msg);] *)
Definition close_and_throw {A} (msg : string) : Rd A :=
  fid_close;; adcircmodules_throw_exception msg.

(** [v[i]] on a [std::vector]: undefined out of range. *)
Definition vector_at {S A} (v : list A) (i : nat) : M S A :=
  match v !! i with
  | Some x => mret x
  | None => undefined_behaviour
  end.

(** A loop that carries a local variable declared outside its body. *)
Fixpoint for_range_with {S A} (n : nat) (i : N) (a : A)
    (body : N -> A -> M S A) : M S A :=
  match n with
  | O => mret a
  | S k => a' ← body i a; for_range_with k (N.succ i) a' body
  end.

(** Evaluation of the arguments [f(x1), f(x2), ...] of one call. *)
Fixpoint map_M {S A B} (f : A -> M S B) (l : list A) : M S (list B) :=
  match l with
  | [] => mret []
  | x :: l' => y ← f x; ys ← map_M f l'; mret (y :: ys)
  end.

(** *** Format detection *)

Definition getMeshFormat (filename : string) : MeshFormat :=
  let extension := IO_getFileExtension filename in
  if bool_decide (extension = ".14" ∨ extension = ".grd") then MESH_ADCIRC
  else if bool_decide (extension = ".2dm") then MESH_2DM
  else if String.index 0 "_net.nc" filename is Some _ then MESH_DFLOW
  else MESH_UNKNOWN.

(** *** Header *)

Definition readAdcircMeshHeader : Rd unit :=
  tempLine ← std_getline "";
  on_mesh (modify (setMeshHeaderString tempLine));;
  tempLine ← std_getline tempLine;
  let tempList := IO_splitString tempLine in
  tempLine ← vector_at tempList 0;
  let '(tempInt, ok) := StringConversion_stringToSizet tempLine in
  (if negb ok then close_and_throw "Error reading mesh header" else mret tt);;
  on_mesh (modify (setNumElements tempInt));;
  tempLine ← vector_at tempList 1;
  let '(tempInt, ok) := StringConversion_stringToSizet tempLine in
  (if negb ok then close_and_throw "Error reading mesh header" else mret tt);;
  on_mesh (modify (setNumNodes tempInt)).

(** *** Nodes *)

(** [m_nodes[i] = n]. *)
Definition store_node (i : N) (n : Node) (m : Mesh) : Mesh :=
  set_m_nodes (<[N.to_nat i := n]> (m_nodes m)) m.

(** [m_nodeLookup[id] = i]. *)
Definition nodeLookup_assign (id i : N) (m : Mesh) : Mesh :=
  set_m_nodeLookup (<[id := i]> (m_nodeLookup m)) m.

Definition readAdcircNodes_record (i : N) : Rd unit :=
  tempLine ← std_getline "";
  match IO_splitStringNodeFormat tempLine with
  | None => close_and_throw "Error reading nodes"
  | Some (id, x, y, z) =>
      (if bool_decide (i ≠ size_sub id 1)
       then on_mesh (modify (set_m_nodeOrderingLogical false))
       else mret tt);;
      on_mesh (modify (store_node i (mkNode id x y z)))
  end.

Definition build_nodeLookup : M Mesh unit :=
  n ← gets m_numNodes;
  for_range (N.to_nat n) 0 (fun i =>
    nodes ← gets m_nodes;
    nd ← vector_at nodes (N.to_nat i);
    modify (nodeLookup_assign (Node_id nd) i)).

Definition readAdcircNodes : Rd unit :=
  on_mesh (modify (fun m =>
    set_m_nodes (resize (N.to_nat (numNodes m)) Node_default (m_nodes m)) m));;
  nodes ← on_mesh (gets m_nodes);
  for_range (length nodes) 0 readAdcircNodes_record;;
  logical ← on_mesh (gets m_nodeOrderingLogical);
  if negb logical then on_mesh build_nodeLookup else mret tt.

(** *** Elements *)

(** [e.setElement(id, ...)] on the element at position [i]. *)
Definition store_element (i id : N) (ptrs : list NodePtr) (m : Mesh) : Mesh :=
  set_m_elements
    (alter (Element_setElement id ptrs) (N.to_nat i) (m_elements m)) m.

Definition elementLookup_assign (id i : N) (m : Mesh) : Mesh :=
  set_m_elementLookup (<[id := i]> (m_elementLookup m)) m.

(** The element loop when the node ordering is sequential. *)
Definition readAdcircElements_logical (i : N) (tempLine : string)
  : Rd string :=
  tempLine ← std_getline tempLine;
  match IO_splitStringElemFormat tempLine with
  | None => close_and_throw "Error reading elements"
  | Some (id, n) =>
      (if bool_decide (length n = 3%nat ∨ length n = 4%nat)
       then on_mesh (modify
              (store_element i id ((fun k => size_sub k 1) <$> n)))
       else mret tt);;
      mret tempLine
  end.

(** The element loop when the nodes are reached through [m_nodeLookup]. *)
Definition readAdcircElements_lookup (i : N) (tempLine : string)
  : Rd string :=
  tempLine ← std_getline tempLine;
  match IO_splitStringElemFormat tempLine with
  | None => close_and_throw "Error reading nodes"
  | Some (id, n) =>
      (if bool_decide (i ≠ size_sub id 1)
       then on_mesh (modify (set_m_elementOrderingLogical false))
       else mret tt);;
      (if bool_decide (length n = 3%nat ∨ length n = 4%nat)
       then ptrs ← on_mesh (map_M nodeLookup_subscript n);
            on_mesh (modify (store_element i id ptrs))
       else mret tt);;
      mret tempLine
  end.

Definition build_elementLookup : M Mesh unit :=
  n ← gets m_numElements;
  for_range (N.to_nat n) 0 (fun i =>
    elements ← gets m_elements;
    e ← vector_at elements (N.to_nat i);
    modify (elementLookup_assign (Element_id e) i)).

Definition readAdcircElements : Rd unit :=
  on_mesh (modify (fun m =>
    set_m_elements
      (resize (N.to_nat (numElements m)) Element_default (m_elements m)) m));;
  elements ← on_mesh (gets m_elements);
  nodesLogical ← on_mesh (gets m_nodeOrderingLogical);
  (if nodesLogical : bool
   then for_range_with (length elements) 0 "" readAdcircElements_logical
   else for_range_with (length elements) 0 "" readAdcircElements_lookup);;
  logical ← on_mesh (gets m_elementOrderingLogical);
  if negb logical then on_mesh build_elementLookup else mret tt.

(** *** Boundaries

    The node of a boundary record, resolved as every boundary reader does:
    [&m_nodes[nid - 1]] when the node ordering is sequential,
    [&m_nodes[m_nodeLookup[nid]]] otherwise. *)
Definition boundary_node_ref (nid : N) : M Mesh NodePtr :=
  logical ← gets m_nodeOrderingLogical;
  if logical : bool then mret (size_sub nid 1) else nodeLookup_subscript nid.

(** A method call on the open (land) boundary at position [k]. *)
Definition on_openBoundary (k : N) (f : Boundary -> Boundary) : Rd unit :=
  on_mesh (modify (fun m =>
    set_m_openBoundaries (alter f (N.to_nat k) (m_openBoundaries m)) m)).

Definition on_landBoundary (k : N) (f : Boundary -> Boundary) : Rd unit :=
  on_mesh (modify (fun m =>
    set_m_landBoundaries (alter f (N.to_nat k) (m_landBoundaries m)) m)).

Definition readAdcircOpenBoundaries_node (k j : N) (tempLine : string)
  : Rd string :=
  tempLine ← std_getline tempLine;
  match IO_splitStringBoundary0Format tempLine with
  | None => close_and_throw "Error reading boundaries"
  | Some nid =>
      p ← on_mesh (boundary_node_ref nid);
      on_openBoundary k (Boundary_setNode1 j p);;
      mret tempLine
  end.

(** The bound [b.length()] of the inner loop is the one in force when the
    loop is entered: the setters called by the body do not change it. *)
Definition readAdcircOpenBoundaries_boundary (k : N) (tempLine : string)
  : Rd string :=
  tempLine ← std_getline tempLine;
  let tempList := IO_splitString tempLine in
  first ← vector_at tempList 0;
  let '(length, ok) := StringConversion_stringToSizet first in
  (if negb ok then close_and_throw "Error reading boundaries" else mret tt);;
  on_openBoundary k (Boundary_setBoundary (-1) length);;
  bs ← on_mesh (gets m_openBoundaries);
  b ← vector_at bs (N.to_nat k);
  for_range_with (N.to_nat (Boundary_length b)) 0 tempLine
    (readAdcircOpenBoundaries_node k).

Definition readAdcircOpenBoundaries : Rd unit :=
  tempLine ← std_getline "";
  let tempList := IO_splitString tempLine in
  first ← vector_at tempList 0;
  let '(num, ok) := StringConversion_stringToSizet first in
  on_mesh (modify (setNumOpenBoundaries num));;
  (if negb ok
   then close_and_throw "Error reading number of open boundaries"
   else mret tt);;
  on_mesh (modify (fun m =>
    set_m_openBoundaries
      (resize (N.to_nat (numOpenBoundaries m)) Boundary_default
              (m_openBoundaries m)) m));;
  tempLine ← std_getline tempLine;
  bs ← on_mesh (gets m_openBoundaries);
  for_range_with (length bs) 0 tempLine readAdcircOpenBoundaries_boundary;;
  mret tt.

Definition readAdcircLandBoundaries_node (k : N) (code : Z) (j : N)
    (tempLine : string) : Rd string :=
  tempLine ← std_getline tempLine;
  (if bool_decide (code = 3 ∨ code = 13 ∨ code = 23)%Z then
     match IO_splitStringBoundary23Format tempLine with
     | None => close_and_throw "Error reading boundaries"
     | Some (n1, crest, supercritical) =>
         p1 ← on_mesh (boundary_node_ref n1);
         on_landBoundary k (Boundary_setNode1 j p1);;
         on_landBoundary k (Boundary_setCrestElevation j crest);;
         on_landBoundary k
           (Boundary_setSupercriticalWeirCoefficient j supercritical)
     end
   else if bool_decide (code = 4 ∨ code = 24)%Z then
     match IO_splitStringBoundary24Format tempLine with
     | None => close_and_throw "Error reading boundaries"
     | Some (n1, n2, crest, subcritical, supercritical) =>
         p1 ← on_mesh (boundary_node_ref n1);
         on_landBoundary k (Boundary_setNode1 j p1);;
         p2 ← on_mesh (boundary_node_ref n2);
         on_landBoundary k (Boundary_setNode2 j p2);;
         on_landBoundary k (Boundary_setCrestElevation j crest);;
         on_landBoundary k
           (Boundary_setSubcriticalWeirCoefficient j subcritical);;
         on_landBoundary k
           (Boundary_setSupercriticalWeirCoefficient j supercritical)
     end
   else if bool_decide (code = 5 ∨ code = 25)%Z then
     match IO_splitStringBoundary25Format tempLine with
     | None => close_and_throw "Error reading boundaries"
     | Some (n1, n2, crest, subcritical, supercritical,
             pipeheight, pipecoef, pipediam) =>
         p1 ← on_mesh (boundary_node_ref n1);
         on_landBoundary k (Boundary_setNode1 j p1);;
         p2 ← on_mesh (boundary_node_ref n2);
         on_landBoundary k (Boundary_setNode2 j p2);;
         on_landBoundary k (Boundary_setCrestElevation j crest);;
         on_landBoundary k
           (Boundary_setSubcriticalWeirCoefficient j subcritical);;
         on_landBoundary k
           (Boundary_setSupercriticalWeirCoefficient j supercritical);;
         on_landBoundary k (Boundary_setPipeHeight j pipeheight);;
         on_landBoundary k (Boundary_setPipeCoefficient j pipecoef);;
         on_landBoundary k (Boundary_setPipeDiameter j pipediam)
     end
   else
     match IO_splitStringBoundary0Format tempLine with
     | None => close_and_throw "Error reading boundaries"
     | Some n1 =>
         p1 ← on_mesh (boundary_node_ref n1);
         on_landBoundary k (Boundary_setNode1 j p1)
     end);;
  mret tempLine.

Definition readAdcircLandBoundaries_boundary (k : N) (tempLine : string)
  : Rd string :=
  tempLine ← std_getline tempLine;
  let tempList := IO_splitString tempLine in
  first ← vector_at tempList 0;
  let '(length, ok) := StringConversion_stringToSizet first in
  (if negb ok then close_and_throw "Error reading boundaries" else mret tt);;
  second ← vector_at tempList 1;
  let '(code, ok) := StringConversion_stringToInt second in
  (if negb ok then close_and_throw "Error reading boundaries" else mret tt);;
  on_landBoundary k (Boundary_setBoundary code length);;
  bs ← on_mesh (gets m_landBoundaries);
  b ← vector_at bs (N.to_nat k);
  for_range_with (N.to_nat (Boundary_length b)) 0 tempLine
    (readAdcircLandBoundaries_node k code).

Definition readAdcircLandBoundaries : Rd unit :=
  tempLine ← std_getline "";
  let tempList := IO_splitString tempLine in
  first ← vector_at tempList 0;
  let '(num, ok) := StringConversion_stringToSizet first in
  on_mesh (modify (setNumLandBoundaries num));;
  (if negb ok then close_and_throw "Error reading boundaries" else mret tt);;
  on_mesh (modify (fun m =>
    set_m_landBoundaries
      (resize (N.to_nat (numLandBoundaries m)) Boundary_default
              (m_landBoundaries m)) m));;
  tempLine ← std_getline tempLine;
  bs ← on_mesh (gets m_landBoundaries);
  for_range_with (length bs) 0 tempLine readAdcircLandBoundaries_boundary;;
  mret tt.

(** *** The native-ASCII reader and [read] *)

Definition readAdcircMesh_sections : Rd unit :=
  readAdcircMeshHeader;;
  readAdcircNodes;;
  readAdcircElements;;
  readAdcircOpenBoundaries;;
  readAdcircLandBoundaries;;
  fid_close.

Definition readAdcircMesh (disk : gmap string File) : M Mesh unit :=
  fun m =>
    let fid := fstream_open disk (filename m) in
    let '(r, (m', _)) := readAdcircMesh_sections (m, fid) in
    (r, m').

(** The readers of the two other formats ([read2dmMesh], [readDflowMesh])
    go through the 2dm line parsers and the netCDF library; they take no
    part in the properties below and stand as parameters of [read]. *)
Class OtherFormats := {
  read2dmMesh : M Mesh unit;
  readDflowMesh : M Mesh unit;
}.

Context `{OtherFormats}.

Definition read (disk : gmap string File) (format : MeshFormat)
  : M Mesh unit :=
  name ← gets m_filename;
  throw_if (bool_decide (name = "")) "No filename has been specified.";;
  throw_if (negb (IO_fileExists disk name)) "File does not exist.";;
  let fmt := match format with
             | MESH_UNKNOWN => getMeshFormat name
             | _ => format
             end in
  modify _init;;
  match fmt with
  | MESH_ADCIRC => readAdcircMesh disk
  | MESH_2DM => read2dmMesh
  | MESH_DFLOW => readDflowMesh
  | MESH_UNKNOWN =>
      adcircmodules_throw_exception "Invalid mesh format selected."
  end.

(** ** Link table *)

(** [operator<] on [std::pair<Node*, Node*>]. *)
Definition pair_lt (p q : NodePtr * NodePtr) : bool :=
  ((p.1 <? q.1) || ((p.1 =? q.1) && (p.2 <? q.2)))%N.

(** Insertion in a [std::set<std::pair<Node*, Node*>>], kept as its
    ascending sequence of keys. *)
Fixpoint std_set_insert (p : NodePtr * NodePtr)
    (s : list (NodePtr * NodePtr)) : list (NodePtr * NodePtr) :=
  match s with
  | [] => [p]
  | q :: s' =>
      if pair_lt p q then p :: q :: s'
      else if pair_lt q p then q :: std_set_insert p s'
      else q :: s'
  end.

(** [std::set s(first, last)]. *)
Definition std_set_of_range (l : list (NodePtr * NodePtr))
  : list (NodePtr * NodePtr) :=
  foldl (fun s p => std_set_insert p s) [] l.

(** A loop over a vector that accumulates into a local variable. *)
Fixpoint for_each_with {S A B} (v : list A) (b : B)
    (body : A -> B -> M S B) : M S B :=
  match v with
  | [] => mret b
  | x :: v' => b' ← body x b; for_each_with v' b' body
  end.

(** [p->id()] for a [Node*] of the mesh: undefined when [p] points outside
    the node vector. *)
Definition node_deref (p : NodePtr) : M Mesh Node :=
  nodes ← gets m_nodes;
  vector_at nodes (N.to_nat p).

Definition generateLinkTable_leg (e_s : Element) (j : nat)
    (legs : list (NodePtr * NodePtr)) : M Mesh (list (NodePtr * NodePtr)) :=
  match Element_elementLeg e_s j with
  | None => undefined_behaviour
  | Some p1 =>
      first ← node_deref p1.1;
      second ← node_deref p1.2;
      let p2 := if bool_decide (Node_id second < Node_id first)
                then (p1.2, p1.1) else p1 in
      mret (legs ++ [p2])
  end.

Definition generateLinkTable_element (e : Element)
    (legs : list (NodePtr * NodePtr)) : M Mesh (list (NodePtr * NodePtr)) :=
  nodes ← gets m_nodes;
  let e_s := Element_sortVerticiesAboutCenter nodes e in
  for_each_with (seq 0 (Z.to_nat (Element_n e_s))) legs
    (generateLinkTable_leg e_s).

Definition generateLinkTable : M Mesh (list (NodePtr * NodePtr)) :=
  elements ← gets m_elements;
  legs ← for_each_with elements [] generateLinkTable_element;
  let s := std_set_of_range legs in
  mret s.

(** ** Search tree and point location *)

Definition element_deref (p : N) : M Mesh Element :=
  elements ← gets m_elements;
  vector_at elements (N.to_nat p).

(** One pass of the loop of [buildElementalSearchTree]: the mean of the
    vertex coordinates of [e] is pushed on [x] and [y]. *)
Definition buildElementalSearchTree_element (e : Element)
    (xy : list double * list double) : M Mesh (list double * list double) :=
  '(tempX, tempY) ← for_each_with (Element_nodes e) (double_zero, double_zero)
     (fun p '(tempX, tempY) =>
        nd ← node_deref p;
        mret (double_add tempX (Node_x nd), double_add tempY (Node_y nd)));
  mret (xy.1 ++ [double_div_int tempX (Element_n e)],
        xy.2 ++ [double_div_int tempY (Element_n e)]).

Definition buildElementalSearchTree : M Mesh unit :=
  elements ← gets m_elements;
  '(x, y) ← for_each_with elements ([], []) buildElementalSearchTree_element;
  old ← gets m_elementalSearchTree;
  (match old with
   | Some t => if QKdtree2_isInitialized t
               then modify (set_m_elementalSearchTree None) else mret tt
   | None => mret tt
   end);;
  let '(t, ierr) := QKdtree2_build x y QKdtree2_new in
  modify (set_m_elementalSearchTree (Some t));;
  throw_if (bool_decide (ierr ≠ QKdtree2_NoError))
    "Mesh: KDTree2 library error".

(** [m_elementalSearchTree->isInitialized()]: undefined on the null pointer
    that [_init] leaves. *)
Definition elementalSearchTreeInitialized : M Mesh bool :=
  t ← gets m_elementalSearchTree;
  match t with
  | Some t => mret (QKdtree2_isInitialized t)
  | None => undefined_behaviour
  end.

Definition elementalSearchTree : M Mesh QKdtree2 :=
  t ← gets m_elementalSearchTree;
  match t with
  | Some t => mret t
  | None => undefined_behaviour
  end.

(** The candidate loop of [findElement]. *)
Fixpoint findElement_candidates (indicies : list N) (location : Point)
  : M Mesh N :=
  match indicies with
  | [] => mret (size_of_int (-1))
  | i :: rest =>
      p ← element i;
      e ← element_deref p;
      nodes ← gets m_nodes;
      let found := Element_isInside nodes e location in
      if found then mret i else findElement_candidates rest location
  end.

Definition findElement (location : Point) : M Mesh N :=
  let searchDepth := 20%Z in
  initialized ← elementalSearchTreeInitialized;
  (if negb initialized then buildElementalSearchTree else mret tt);;
  tree ← elementalSearchTree;
  let indicies := QKdtree2_findXNearest tree location searchDepth in
  findElement_candidates indicies location.

(** ** Writing the native-ASCII format *)

(** The writers run on the mesh and the lines sent to [outputFile]. *)
Abbreviation Wr := (M (Mesh * list string)).

Definition wr_mesh {A} (c : M Mesh A) : Wr A :=
  fun '(m, out) => let '(r, m') := c m in (r, (m', out)).

(** [outputFile << s << "\n";] *)
Definition put_line (s : string) : Wr unit :=
  fun '(m, out) => (Ok tt, (m, out ++ [s])).

Definition writeAdcircMesh_lines : Wr unit :=
  header ← wr_mesh (gets meshHeaderString);
  put_line header;;
  ne ← wr_mesh (gets numElements);
  nn ← wr_mesh (gets numNodes);
  let tempString := format_11i_11i ne nn in
  put_line tempString;;
  nodes ← wr_mesh (gets m_nodes);
  latlon ← wr_mesh (gets isLatLon);
  for_each nodes (fun n => put_line (Node_toAdcircString n latlon));;
  elements ← wr_mesh (gets m_elements);
  for_each elements (fun e => put_line (Element_toAdcircString nodes e));;
  nob ← wr_mesh (gets numOpenBoundaries);
  put_line (to_string nob);;
  tob ← wr_mesh totalOpenBoundaryNodes;
  put_line (to_string tob);;
  obs ← wr_mesh (gets m_openBoundaries);
  for_each obs (fun b =>
    for_each (Boundary_toStringList nodes b) put_line);;
  nlb ← wr_mesh (gets numLandBoundaries);
  put_line (to_string nlb);;
  tlb ← wr_mesh totalLandBoundaryNodes;
  put_line (to_string tlb);;
  lbs ← wr_mesh (gets m_landBoundaries);
  for_each lbs (fun b =>
    for_each (Boundary_toStringList nodes b) put_line).

(** [writeAdcircMesh(filename)]: the outcome, the mesh afterwards and the
    lines of the file written. *)
Definition writeAdcircMesh (m : Mesh) : result unit * Mesh * list string :=
  let '(r, (m', out)) := writeAdcircMesh_lines (m, []) in
  (r, m', out).

End MeshState.

(** ** Vocabulary of the specification *)

Section Vocabulary.
Context `{External}.

(** The sum of the lengths of a boundary collection. *)
Definition boundary_length_sum (bs : list Boundary) : N :=
  foldr (fun b acc => Boundary_length b + acc) 0 bs.

(** Storage position [i] holds identifier [i + 1], for every position. *)
Definition ids_sequential (ids : list N) : Prop :=
  forall (i : nat) (id : N), ids !! i = Some id -> id = N.of_nat i + 1.

(** The freshly-cleared state: zero nodes, elements, open boundaries and
    land boundaries. *)
Definition freshly_cleared (m : Mesh) : Prop :=
  numNodes m = 0 /\ numElements m = 0 /\
  numOpenBoundaries m = 0 /\ numLandBoundaries m = 0 /\
  m_nodes m = [] /\ m_elements m = [] /\
  m_openBoundaries m = [] /\ m_landBoundaries m = [].

(** The legs of an element, in the order [generateLinkTable] asks for
    them. *)
Definition element_legs (e : Element) : list (NodePtr * NodePtr) :=
  omap (Element_elementLeg e) (seq 0 (length (Element_nodes e))).

(** A leg with the node of smaller identifier first, as
    [generateLinkTable] stores it. *)
Definition canonical_leg (m : Mesh) (p : NodePtr * NodePtr)
  : NodePtr * NodePtr :=
  match node_at m p.1, node_at m p.2 with
  | Some first, Some second =>
      if bool_decide (Node_id second < Node_id first) then (p.2, p.1) else p
  | _, _ => p
  end.

(** Every leg of every element, vertices reordered, smaller identifier
    first, in the order of the element vector. *)
Definition link_candidates (m : Mesh) : list (NodePtr * NodePtr) :=
  concat ((fun e =>
             canonical_leg m <$>
               element_legs (Element_sortVerticiesAboutCenter (m_nodes m) e))
          <$> m_elements m).

(** Well-formedness of the mesh the link table is asked of: reordering the
    vertices of an element permutes them, every vertex of every element
    points into the node vector, and no two stored nodes share an
    identifier. *)
Definition reordering_permutes (m : Mesh) : Prop :=
  forall e, Element_nodes (Element_sortVerticiesAboutCenter (m_nodes m) e)
            ≡ₚ Element_nodes e.

Definition vertices_valid (m : Mesh) : Prop :=
  forall e p, e ∈ m_elements m -> p ∈ Element_nodes e ->
              is_Some (node_at m p).

Definition identifiers_unique (m : Mesh) : Prop :=
  forall p q np nq,
    node_at m p = Some np -> node_at m q = Some nq ->
    Node_id np = Node_id nq -> p = q.


(** The element stored at position [i] contains [location]. *)
Definition element_contains (m : Mesh) (location : Point) (i : N) : bool :=
  match element_at m i with
  | Some e => Element_isInside (m_nodes m) e location
  | None => false
  end.

(** The value reported by [findElement] when no element is found: [-1]
    converted to [size_t]. *)
Definition not_found : N := size_of_int (-1).

(** The identifier index answers for every stored node: the identifier of
    the node is a key, mapped to a position that holds a node with that
    identifier. *)
Definition lookup_complete (m : Mesh) : Prop :=
  forall nd, nd ∈ m_nodes m ->
    exists p nd', m_nodeLookup m !! Node_id nd = Some p
                  /\ node_at m p = Some nd'
                  /\ Node_id nd' = Node_id nd.

(** A property of the mesh, read on the state of a reader. *)
Definition of_mesh (Q : Mesh -> Prop) : Mesh * fstream -> Prop :=
  fun st => Q st.1.

(** The collections filled by the sections that follow the node section
    are still empty. *)
Definition later_sections_empty (m : Mesh) : Prop :=
  m_elements m = [] /\ m_openBoundaries m = [] /\ m_landBoundaries m = [].

(** [read(format)] on a mesh of file name [name] runs the native-ASCII
    reader: the format is given, or is left unknown and found from the file
    name. *)
Definition selects_adcirc (format : MeshFormat) (name : string) : Prop :=
  match format with
  | MESH_ADCIRC => True
  | MESH_UNKNOWN => getMeshFormat name = MESH_ADCIRC
  | _ => False
  end.

(** What [readAdcircMesh] runs once the node section is complete. *)
Definition after_nodes : M (Mesh * fstream) unit :=
  readAdcircElements;;
  readAdcircOpenBoundaries;;
  readAdcircLandBoundaries;;
  fid_close.

End Vocabulary.

(** ** Editing, derived tables and the search trees

    The member functions of [mesh.cpp] that change the vectors in place,
    derive tables from them or manage the two kd-trees. *)

Section MeshOperations.
Context `{External}.

(** *** Boundaries by position *)

Definition openBoundary (index : N) : M Mesh N :=
  n ← gets numOpenBoundaries;
  if bool_decide (index < n) then mret index
  else adcircmodules_throw_exception "Mesh: Open boundary index out of bounds".

Definition landBoundary (index : N) : M Mesh N :=
  n ← gets numLandBoundaries;
  if bool_decide (index < n) then mret index
  else adcircmodules_throw_exception "Mesh: Land boundary index out of bounds".

Definition projection (m : Mesh) : Z := m_epsg m.

(** *** Resizing *)

Definition resizeMesh (numNodes' numElements' numOpenBoundaries'
    numLandBoundaries' : N) (m : Mesh) : Mesh :=
  let m :=
    if bool_decide (numNodes' ≠ numNodes m)
    then setNumNodes numNodes'
           (set_m_nodes
              (resize (N.to_nat numNodes') Node_default (m_nodes m)) m)
    else m in
  let m :=
    if bool_decide (numElements' ≠ numElements m)
    then setNumElements numElements'
           (set_m_elements
              (resize (N.to_nat numElements') Element_default (m_elements m))
              m)
    else m in
  let m :=
    if bool_decide (numOpenBoundaries' ≠ numOpenBoundaries m)
    then setNumOpenBoundaries numOpenBoundaries'
           (set_m_openBoundaries
              (resize (N.to_nat numOpenBoundaries') Boundary_default
                      (m_openBoundaries m)) m)
    else m in
  if bool_decide (numLandBoundaries' ≠ numLandBoundaries m)
  then setNumLandBoundaries numLandBoundaries'
         (set_m_landBoundaries
            (resize (N.to_nat numLandBoundaries') Boundary_default
                    (m_landBoundaries m)) m)
  else m.

(** *** Replacing and erasing one record

    [m_nodes[index] = node] and [m_nodes.erase(m_nodes.begin() + index)]
    are undefined when [index] is not a position of the vector, whatever
    the stored count says. *)

Definition addNode (index : N) (node : Node) : M Mesh unit :=
  n ← gets numNodes;
  if bool_decide (index < n) then
    nodes ← gets m_nodes;
    vector_at nodes (N.to_nat index);;
    modify (store_node index node)
  else adcircmodules_throw_exception "Mesh: Node index > number of nodes".

Definition deleteNode (index : N) : M Mesh unit :=
  n ← gets numNodes;
  if bool_decide (index < n) then
    nodes ← gets m_nodes;
    vector_at nodes (N.to_nat index);;
    modify (set_m_nodes (delete (N.to_nat index) nodes));;
    nodes ← gets m_nodes;
    modify (setNumNodes (N.of_nat (length nodes)))
  else adcircmodules_throw_exception "Mesh: Node index > number of nodes".

Definition addElement (index : N) (element : Element) : M Mesh unit :=
  n ← gets numElements;
  if bool_decide (index < n) then
    elements ← gets m_elements;
    vector_at elements (N.to_nat index);;
    modify (fun m =>
      set_m_elements (<[N.to_nat index := element]> (m_elements m)) m)
  else adcircmodules_throw_exception "Mesh: Element index > number of nodes".

Definition deleteElement (index : N) : M Mesh unit :=
  n ← gets numElements;
  if bool_decide (index < n) then
    elements ← gets m_elements;
    vector_at elements (N.to_nat index);;
    modify (set_m_elements (delete (N.to_nat index) elements));;
    elements ← gets m_elements;
    modify (setNumElements (N.of_nat (length elements)))
  else adcircmodules_throw_exception "Mesh: Element index > number of nodes".

(** *** Derived tables *)

(** The comparison [e.n() > n] and the assignment [n = e.n()] convert the
    [int] to [size_t]. *)
Definition getMaxNodesPerElement (m : Mesh) : N :=
  foldl (fun n e =>
           if bool_decide (n < size_of_int (Element_n e))
           then size_of_int (Element_n e) else n)
        0 (m_elements m).

(** One row of [connectivity()]: [v[i] = e.node(i)->id()]. *)
Definition connectivity_row (e : Element) : M Mesh (list N) :=
  map_M (fun p => nd ← node_deref p; mret (Node_id nd)) (Element_nodes e).

Definition connectivity : M Mesh (list (list N)) :=
  elements ← gets m_elements;
  for_each_with elements [] (fun e conn =>
    v ← connectivity_row e;
    mret (conn ++ [v])).

(** *** The kd-trees *)

Definition buildNodalSearchTree : M Mesh unit :=
  nodes ← gets m_nodes;
  let x := Node_x <$> nodes in
  let y := Node_y <$> nodes in
  old ← gets m_nodalSearchTree;
  (match old with
   | Some t => if QKdtree2_isInitialized t
               then modify (set_m_nodalSearchTree None) else mret tt
   | None => mret tt
   end);;
  let '(t, ierr) := QKdtree2_build x y QKdtree2_new in
  modify (set_m_nodalSearchTree (Some t));;
  throw_if (bool_decide (ierr ≠ QKdtree2_NoError))
    "Mesh: KDTree2 library error".

(** [m_nodalSearchTree->isInitialized()]: undefined on the null pointer. *)
Definition nodalSearchTreeInitialized : M Mesh bool :=
  t ← gets m_nodalSearchTree;
  match t with
  | Some t => mret (QKdtree2_isInitialized t)
  | None => undefined_behaviour
  end.

Definition nodalSearchTree : M Mesh QKdtree2 :=
  t ← gets m_nodalSearchTree;
  match t with
  | Some t => mret t
  | None => undefined_behaviour
  end.

Definition deleteNodalSearchTree : M Mesh unit :=
  initialized ← nodalSearchTreeInitialized;
  if initialized : bool then modify (set_m_nodalSearchTree None) else mret tt.

Definition deleteElementalSearchTree : M Mesh unit :=
  initialized ← elementalSearchTreeInitialized;
  if initialized : bool
  then modify (set_m_elementalSearchTree None) else mret tt.

End MeshOperations.

(** [QKdtree2::findNearest], behind the two nearest-neighbour queries. *)
Class NearestSearch `{External} := {
  QKdtree2_findNearest : QKdtree2 -> Point -> N;
}.

Section NearestQueries.
Context `{NearestSearch}.

Definition findNearestNode (location : Point) : M Mesh N :=
  initialized ← nodalSearchTreeInitialized;
  (if negb initialized then buildNodalSearchTree else mret tt);;
  tree ← nodalSearchTree;
  mret (QKdtree2_findNearest tree location).

Definition findNearestElement (location : Point) : M Mesh N :=
  initialized ← elementalSearchTreeInitialized;
  (if negb initialized then buildElementalSearchTree else mret tt);;
  tree ← elementalSearchTree;
  mret (QKdtree2_findNearest tree location).

End NearestQueries.

(** ** Coordinate systems

    [Projection::transform] of [projection.h], behind [reproject()].  The
    call receives the output vector and the flag by reference: its result
    is the error code together with the output vector as the call leaves
    it and the flag it stored, [None] when it stored none. *)
Class ProjectionLib `{External} := {
  Point_default : Point;
  Projection_NoError : Z;
  Projection_transform
    : Z -> Z -> list Point -> list Point -> Z * list Point * option bool;
}.

Section Reprojection.
Context `{ProjectionLib}.

(** Modelled from the spec: [Node::setX] and [Node::setY] (node.h is not
    part of [src/]) replace one coordinate of the position. *)
Definition Node_setX (x : double) (n : Node) : Node :=
  mkNode (Node_id n) x (Node_y n) (Node_z n).
Definition Node_setY (y : double) (n : Node) : Node :=
  mkNode (Node_id n) (Node_x n) y (Node_z n).

(** [p->f()] for a mutating method of [Node] and a [Node*] of the mesh. *)
Definition node_apply (p : NodePtr) (f : Node -> Node) : M Mesh unit :=
  nd ← node_deref p;
  modify (store_node p (f nd)).

(** The body of the loop of [reproject]. *)
Definition reproject_node (outPoint : list Point) (i : N) : M Mesh unit :=
  p ← node i;
  o ← vector_at outPoint (N.to_nat i);
  node_apply p (Node_setX o.1);;
  p ← node i;
  o ← vector_at outPoint (N.to_nat i);
  node_apply p (Node_setY o.2).

(** The local [isLatLon] is declared without a value: reading it after a
    call that stored none is undefined. *)
Definition reproject (epsg : Z) : M Mesh unit :=
  n ← gets numNodes;
  nodes ← gets m_nodes;
  from ← gets projection;
  let inPoint := (fun nd => (Node_x nd, Node_y nd)) <$> nodes in
  let '(ierr, outPoint, isLatLon) :=
    Projection_transform from epsg inPoint
      (replicate (N.to_nat n) Point_default) in
  throw_if (bool_decide (ierr ≠ Projection_NoError))
           "Mesh: Proj4 library error";;
  n ← gets numNodes;
  for_range (N.to_nat n) 0 (reproject_node outPoint);;
  match isLatLon with
  | Some b => modify (defineProjection epsg b)
  | None => undefined_behaviour
  end.

(** A node once both coordinates have been replaced by those of [o]. *)
Definition moved (nd : Node) (o : Point) : Node :=
  Node_setY o.2 (Node_setX o.1 nd).

End Reprojection.

(** ** Further vocabulary *)

Section Invariants.
Context `{External}.

(** The four stored counts are the sizes of the four vectors. *)
Definition counts_match_storage (m : Mesh) : Prop :=
  numNodes m = N.of_nat (length (m_nodes m)) /\
  numElements m = N.of_nat (length (m_elements m)) /\
  numOpenBoundaries m = N.of_nat (length (m_openBoundaries m)) /\
  numLandBoundaries m = N.of_nat (length (m_landBoundaries m)).

(** Line number [k] (from 0) of a file; the empty string past its end. *)
Definition line_of (file : File) (k : nat) : string :=
  default "" (file_lines file !! k).

(** The vertex count that [readAdcircElements] accepts. *)
Definition triangle_or_quad (n : list N) : Prop :=
  length n = 3%nat \/ length n = 4%nat.

(** The stream has delivered the first [k] lines of [lines] and is good
    as long as a line is left. *)
Definition stream_at (lines : list string) (k : nat) (f : fstream) : Prop :=
  fs_lines f = drop k lines /\ ((k < length lines)%nat -> fs_good f = true).

(** The position to which the element and boundary readers resolve the
    node identifier [id]: [id - 1] when the node ordering is sequential,
    the entry of the table otherwise, 0 for an identifier the table does
    not hold. *)
Definition node_position (m : Mesh) (id : N) : NodePtr :=
  if nodeOrderingIsLogical m then size_sub id 1
  else default 0 (m_nodeLookup m !! id).

(** What [readAdcircMesh] runs once the element section, and once the
    open-boundary section, is complete. *)
Definition after_elements : M (Mesh * fstream) unit :=
  readAdcircOpenBoundaries;;
  readAdcircLandBoundaries;;
  fid_close.

Definition after_open_boundaries : M (Mesh * fstream) unit :=
  readAdcircLandBoundaries;;
  fid_close.

(** The element table answers for every stored element. *)
Definition element_lookup_complete (m : Mesh) : Prop :=
  forall e, e ∈ m_elements m ->
    exists p e', m_elementLookup m !! Element_id e = Some p
                 /\ element_at m p = Some e'
                 /\ Element_id e' = Element_id e.

End Invariants.

(** ** A reference instance of the collaborators

    Modelled from the spec: the line grammars of section 6 (node line
    [id x y z], element line [id arity n1 n2 n3 [n4]], boundary header
    [length [code]], boundary node lines led by the node identifier), with
    blank-separated decimal fields.  Coordinates and attributes are
    restricted to integers, the search tree is a plain list of centroids
    scanned in full, and the vertex ordering keeps the order given.  The
    instance serves to run the mesh operations on concrete files. *)
Module Ref.

#[export] Instance floating : Floating := {|
  double := Z;
  double_zero := 0%Z;
  double_add := Z.add;
  double_div_int := Z.div;
|}.

(** Blank-separated fields of a line. *)
Fixpoint fields_from (cur : string) (s : string) : list string :=
  match s with
  | EmptyString => if bool_decide (cur = "") then [] else [cur]
  | String c s' =>
      if bool_decide (c = " "%char)
      then (if bool_decide (cur = "") then [] else [cur]) ++ fields_from "" s'
      else fields_from (cur +:+ String c "") s'
  end.

Definition splitString (s : string) : list string := fields_from "" s.

Definition parse_N (s : string) : option N :=
  N.of_uint <$> NilZero.uint_of_string s.

Definition parse_Z (s : string) : option Z :=
  Z.of_int <$> NilZero.int_of_string s.

Definition stringToSizet (s : string) : N * bool :=
  match parse_N s with
  | Some n => (n mod SIZE_MODULUS, true)
  | None => (0, false)
  end.

Definition stringToInt (s : string) : Z * bool :=
  match parse_Z s with
  | Some z => (z, true)
  | None => (0%Z, false)
  end.

Definition parse_size (s : string) : option N :=
  (fun n => n mod SIZE_MODULUS) <$> parse_N s.

Definition splitStringNodeFormat (s : string) : option (N * Z * Z * Z) :=
  match splitString s with
  | [a; b; c; d] =>
      id ← parse_size a; x ← parse_Z b; y ← parse_Z c; z ← parse_Z d;
      Some (id, x, y, z)
  | _ => None
  end.

Definition splitStringElemFormat (s : string) : option (N * list N) :=
  match splitString s with
  | a :: b :: rest =>
      id ← parse_size a; arity ← parse_N b; n ← mapM parse_size rest;
      if bool_decide (N.of_nat (length n) = arity) then Some (id, n) else None
  | _ => None
  end.

Definition splitStringBoundary0Format (s : string) : option N :=
  match splitString s with
  | a :: _ => parse_size a
  | _ => None
  end.

Definition splitStringBoundary23Format (s : string) : option (N * Z * Z) :=
  match splitString s with
  | [a; b; c] =>
      n1 ← parse_size a; crest ← parse_Z b; super ← parse_Z c;
      Some (n1, crest, super)
  | _ => None
  end.

Definition splitStringBoundary24Format (s : string)
  : option (N * N * Z * Z * Z) :=
  match splitString s with
  | [a; b; c; d; e] =>
      n1 ← parse_size a; n2 ← parse_size b; crest ← parse_Z c;
      sub ← parse_Z d; super ← parse_Z e;
      Some (n1, n2, crest, sub, super)
  | _ => None
  end.

Definition splitStringBoundary25Format (s : string)
  : option (N * N * Z * Z * Z * Z * Z * Z) :=
  match splitString s with
  | [a; b; c; d; e; f; g; h] =>
      n1 ← parse_size a; n2 ← parse_size b; crest ← parse_Z c;
      sub ← parse_Z d; super ← parse_Z e;
      ph ← parse_Z f; pc ← parse_Z g; pd ← parse_Z h;
      Some (n1, n2, crest, sub, super, ph, pc, pd)
  | _ => None
  end.

(** The part of a file name from its last dot on. *)
Fixpoint getFileExtension (s : string) : string :=
  match s with
  | EmptyString => ""
  | String c s' =>
      match getFileExtension s' with
      | EmptyString => if bool_decide (c = "."%char) then s else ""
      | ext => ext
      end
  end.

Definition string_of_Z (z : Z) : string := NilZero.string_of_int (Z.to_int z).

Definition join (l : list string) : string := String.concat " " l.

Definition node_line (n : Node) (_ : bool) : string :=
  join [to_string (Node_id n); string_of_Z (Node_x n);
        string_of_Z (Node_y n); string_of_Z (Node_z n)].

Definition node_id_text (nodes : list Node) (p : NodePtr) : string :=
  match nodes !! N.to_nat p with
  | Some n => to_string (Node_id n)
  | None => "?"
  end.

Definition element_line (nodes : list Node) (e : Element)
  : string :=
  join (to_string (Element_id e)
        :: to_string (N.of_nat (length (Element_nodes e)))
        :: (node_id_text nodes <$> Element_nodes e)).

(** Twice the signed area of the triangle [a b p]. *)
Definition cross (a b p : Z * Z) : Z :=
  ((b.1 - a.1) * (p.2 - a.2) - (b.2 - a.2) * (p.1 - a.1))%Z.

(** Containment in a convex polygon: the point lies on one side of every
    leg. *)
Definition inside_convex (nodes : list Node) (e : Element) (p : Z * Z)
  : bool :=
  match mapM (M := option) (fun q => nodes !! N.to_nat q) (Element_nodes e)
  with
  | Some vs =>
      let pts : list (Z * Z) := map (fun n => (Node_x n, Node_y n)) vs in
      let sides := zip_with (fun a b => cross a b p) pts
                     (drop 1 pts ++ take 1 pts) in
      negb (Nat.eqb (length vs) 0)
      && (forallb (fun c => (0 <=? c)%Z) sides
          || forallb (fun c => (c <=? 0)%Z) sides)
  | None => false
  end.

Record boundary := mkBoundary {
  b_code : Z;
  b_length : N;
  b_node1 : list NodePtr;
  b_node2 : list NodePtr;
  b_attributes : list (list Z);
}.

Definition boundary_empty : boundary := mkBoundary (-1) 0 [] [] [].

Definition boundary_reset (code : Z) (len : N) (b : boundary)
  : boundary :=
  mkBoundary code len (replicate (N.to_nat len) 0)
    (replicate (N.to_nat len) 0) (replicate (N.to_nat len) []).

Definition boundary_node1 (j : N) (p : NodePtr) (b : boundary)
  : boundary :=
  mkBoundary (b_code b) (b_length b) (<[N.to_nat j := p]> (b_node1 b))
    (b_node2 b) (b_attributes b).

Definition boundary_node2 (j : N) (p : NodePtr) (b : boundary)
  : boundary :=
  mkBoundary (b_code b) (b_length b) (b_node1 b)
    (<[N.to_nat j := p]> (b_node2 b)) (b_attributes b).

Definition boundary_attribute (j : N) (v : Z) (b : boundary) : boundary :=
  mkBoundary (b_code b) (b_length b) (b_node1 b) (b_node2 b)
    (alter (fun l => l ++ [v]) (N.to_nat j) (b_attributes b)).

Definition boundary_lines (nodes : list Node) (b : boundary)
  : list string :=
  (if bool_decide (b_code b = (-1)%Z) then to_string (b_length b)
   else join [to_string (b_length b); string_of_Z (b_code b)])
  :: zip_with
       (fun p attrs => join (node_id_text nodes p :: (string_of_Z <$> attrs)))
       (b_node1 b) (b_attributes b).

(** The search tree: the indexed points, or nothing before [build]. *)
Definition tree : Type := option (list (Z * Z)).

Definition distance2 (p q : Z * Z) : Z :=
  ((p.1 - q.1) * (p.1 - q.1) + (p.2 - q.2) * (p.2 - q.2))%Z.

(** Positions of the points, nearest first. *)
Fixpoint insert_by_distance (d : Z) (i : N) (l : list (Z * N))
  : list (Z * N) :=
  match l with
  | [] => [(d, i)]
  | (d', i') :: l' =>
      if (d <? d')%Z then (d, i) :: (d', i') :: l'
      else (d', i') :: insert_by_distance d i l'
  end.

Definition nearest_first (pts : list (Z * Z)) (p : Z * Z) : list N :=
  snd <$> foldl (fun acc '(i, q) =>
                   insert_by_distance (distance2 p q) (N.of_nat i) acc)
                [] (imap (fun i q => (i, q)) pts).

Definition x_nearest (t : tree) (p : Z * Z) (x : Z)
  : list N :=
  match t with
  | Some pts => take (Z.to_nat x) (nearest_first pts p)
  | None => []
  end.

#[export] Instance external : External := {|
  Node_default := mkNode 0 0%Z 0%Z 0%Z;
  Node_toAdcircString := node_line;
  Element_default := mkElement 0 [];
  Element_toAdcircString := element_line;
  Element_sortVerticiesAboutCenter := fun _ e => e;
  Element_isInside := inside_convex;
  Boundary := boundary;
  Boundary_default := boundary_empty;
  Boundary_setBoundary := boundary_reset;
  Boundary_length := b_length;
  Boundary_setNode1 := boundary_node1;
  Boundary_setNode2 := boundary_node2;
  Boundary_setCrestElevation := boundary_attribute;
  Boundary_setSupercriticalWeirCoefficient := boundary_attribute;
  Boundary_setSubcriticalWeirCoefficient := boundary_attribute;
  Boundary_setPipeHeight := boundary_attribute;
  Boundary_setPipeCoefficient := boundary_attribute;
  Boundary_setPipeDiameter := boundary_attribute;
  Boundary_toStringList := boundary_lines;
  IO_getFileExtension := getFileExtension;
  IO_splitString := splitString;
  IO_splitStringNodeFormat := splitStringNodeFormat;
  IO_splitStringElemFormat := splitStringElemFormat;
  IO_splitStringBoundary0Format := splitStringBoundary0Format;
  IO_splitStringBoundary23Format := splitStringBoundary23Format;
  IO_splitStringBoundary24Format := splitStringBoundary24Format;
  IO_splitStringBoundary25Format := splitStringBoundary25Format;
  StringConversion_stringToSizet := stringToSizet;
  StringConversion_stringToInt := stringToInt;
  QKdtree2 := tree;
  QKdtree2_new := None;
  QKdtree2_NoError := 0%Z;
  QKdtree2_isInitialized := fun t => bool_decide (is_Some t);
  QKdtree2_build := fun x y _ => (Some (zip x y), 0%Z);
  QKdtree2_findXNearest := x_nearest;
|}.

(** The other two formats are not exercised: their readers fail. *)
#[export] Instance other_formats : OtherFormats := {|
  read2dmMesh := adcircmodules_throw_exception "2dm reader not modelled";
  readDflowMesh := adcircmodules_throw_exception "DFlow reader not modelled";
|}.

End Ref.

(** ** Concrete meshes *)
Module Fixtures.
Import Ref.

(** Three nodes and one triangle, numbered sequentially, with one open and
    one land boundary of two nodes each. *)
Definition sequential_file : File :=
  mkFile ["triangle"; "1 3";
          "1 0 0 5"; "2 10 0 5"; "3 0 10 5";
          "1 3 1 2 3";
          "1"; "2"; "2"; "1"; "2";
          "1"; "2"; "2 0"; "2"; "3"] true.

(** The same triangle with node identifiers 30, 10, 20 and element
    identifier 7. *)
Definition shuffled_file : File :=
  mkFile ["shuffled"; "1 3";
          "30 0 0 5"; "10 10 0 5"; "20 0 10 5";
          "7 3 30 10 20";
          "0"; "0"; "0"; "0"] true.

(** Sequential nodes, and two elements stored in the order 2, 1. *)
Definition swapped_elements_file : File :=
  mkFile ["swapped"; "2 4";
          "1 0 0 5"; "2 10 0 5"; "3 0 10 5"; "4 10 10 5";
          "2 3 2 4 3"; "1 3 1 2 3";
          "0"; "0"; "0"; "0"] true.

(** A header announcing two nodes, followed by one well-formed node record
    and one that is not. *)
Definition malformed_node_file : File :=
  mkFile ["broken"; "1 2"; "1 0 0 5"; "2 10 zero 5"] true.

(** Two triangles over four nodes, sharing the edge between nodes 2 and 3,
    in both storage orders. *)
Definition two_triangles_file : File :=
  mkFile ["pair"; "2 4";
          "1 0 0 5"; "2 10 0 5"; "3 0 10 5"; "4 10 10 5";
          "1 3 1 2 3"; "2 3 2 4 3";
          "0"; "0"; "0"; "0"] true.

Definition two_triangles_swapped_file : File :=
  mkFile ["pair"; "2 4";
          "1 0 0 5"; "2 10 0 5"; "3 0 10 5"; "4 10 10 5";
          "1 3 2 4 3"; "2 3 1 2 3";
          "0"; "0"; "0"; "0"] true.

Definition disk : gmap string File :=
  {[ "sequential.14" := sequential_file;
     "shuffled.14" := shuffled_file;
     "swapped.14" := swapped_elements_file;
     "malformed.14" := malformed_node_file;
     "pair.grd" := two_triangles_file;
     "pair_swapped.grd" := two_triangles_swapped_file ]}.

(** The mesh object after [Mesh(name)] and [read()]. *)
Definition mesh_of (name : string) : result unit * Mesh :=
  read disk MESH_UNKNOWN (Mesh_new name).

Definition sequential_mesh : Mesh :=
  Eval vm_compute in (mesh_of "sequential.14").2.
Definition shuffled_mesh : Mesh :=
  Eval vm_compute in (mesh_of "shuffled.14").2.
Definition swapped_elements_mesh : Mesh :=
  Eval vm_compute in (mesh_of "swapped.14").2.
Definition two_triangles_mesh : Mesh :=
  Eval vm_compute in (mesh_of "pair.grd").2.
Definition two_triangles_swapped_mesh : Mesh :=
  Eval vm_compute in (mesh_of "pair_swapped.grd").2.

(** The sequential mesh once [buildElementalSearchTree()] has run. *)
Definition searchable_mesh : Mesh :=
  Eval vm_compute in (buildElementalSearchTree sequential_mesh).2.

(** The stages of the read of the malformed file. *)
Definition malformed_start : Mesh := Mesh_new "malformed.14".

Definition malformed_after_header : Mesh * fstream :=
  Eval vm_compute in
    (readAdcircMeshHeader
       (_init malformed_start, fstream_open disk "malformed.14")).2.

Definition malformed_after_nodes : Mesh * fstream :=
  Eval vm_compute in (readAdcircNodes malformed_after_header).2.

End Fixtures.

(** ** The reference instance, continued *)
Module RefMore.
Import Ref.

(** The position of the nearest indexed point, 0 for a tree without
    points. *)
Definition nearest (t : tree) (p : Z * Z) : N :=
  match t with
  | Some pts => default 0 (head (nearest_first pts p))
  | None => 0
  end.

#[export] Instance nearest_search : NearestSearch := {|
  QKdtree2_findNearest := nearest;
|}.

(** A coordinate change that shifts every abscissa by the difference of
    the two codes, refuses a negative target code, and reports the code
    4326 as geographic. *)
Definition transform (from to : Z) (input output : list (Z * Z))
  : Z * list (Z * Z) * option bool :=
  if (to <? 0)%Z then (1%Z, output, None)
  else (0%Z, (fun p => (p.1 + (to - from), p.2)%Z) <$> input,
        Some (bool_decide (to = 4326%Z))).

#[export] Instance projection_lib : ProjectionLib := {|
  Point_default := (0, 0)%Z;
  Projection_NoError := 0%Z;
  Projection_transform := transform;
|}.

End RefMore.

(** ** Further concrete meshes *)
Module MoreFixtures.
Import Ref Fixtures.

(** The object that has read the shuffled file, pointed at the sequential
    file, before and after it reads again. *)
Definition reread_start : Mesh := setFilename "sequential.14" shuffled_mesh.

Definition reread_mesh : Mesh :=
  Eval vm_compute in (read disk MESH_UNKNOWN reread_start).2.

(** The searchable mesh once its tree has been deleted. *)
Definition unsearchable_mesh : Mesh :=
  Eval vm_compute in (deleteElementalSearchTree searchable_mesh).2.

(** A disk that also holds a copy of the sequential file under a name
    without a mesh extension. *)
Definition disk_with_notes : gmap string File :=
  <["notes.txt" := sequential_file]> disk.

(** Files that stop being well-formed in the header, in the element
    section and in either boundary section. *)
Definition unparsed_count_file : File := mkFile ["broken"; "one 3"] true.

Definition unparsed_node_count_file : File :=
  mkFile ["broken"; "1 three"] true.

Definition malformed_element_file : File :=
  mkFile ["broken"; "1 3";
          "1 0 0 5"; "2 10 0 5"; "3 0 10 5";
          "1 3 1 two 3"] true.

Definition malformed_open_boundary_file : File :=
  mkFile ["broken"; "1 3";
          "1 0 0 5"; "2 10 0 5"; "3 0 10 5";
          "1 3 1 2 3";
          "1"; "2"; "2"; "1"; "two"] true.

Definition malformed_land_boundary_file : File :=
  mkFile ["broken"; "1 3";
          "1 0 0 5"; "2 10 0 5"; "3 0 10 5";
          "1 3 1 2 3";
          "1"; "2"; "2"; "1"; "2";
          "1"; "2"; "2 0"; "2"; "three"] true.

(** A large triangle and a small one inside it, near its centre. *)
Definition nested_file : File :=
  mkFile ["nested"; "2 6";
          "1 0 0 5"; "2 30 0 5"; "3 0 30 5";
          "4 14 14 5"; "5 16 14 5"; "6 14 16 5";
          "1 3 1 2 3"; "2 3 4 5 6";
          "0"; "0"; "0"; "0"] true.

Definition more_disk : gmap string File :=
  {[ "count.14" := unparsed_count_file;
     "nodecount.14" := unparsed_node_count_file;
     "element.14" := malformed_element_file;
     "open.14" := malformed_open_boundary_file;
     "land.14" := malformed_land_boundary_file;
     "nested.14" := nested_file ]}.

(** The outcome of [Mesh(name)] and [read()] on these files. *)
Definition left_by (name : string) : result unit * Mesh :=
  read more_disk MESH_UNKNOWN (Mesh_new name).

Definition element_failure_mesh : Mesh :=
  Eval vm_compute in (left_by "element.14").2.

Definition nested_mesh : Mesh :=
  Eval vm_compute in (left_by "nested.14").2.

(** The nested mesh once [buildElementalSearchTree()] has run. *)
Definition nested_searchable_mesh : Mesh :=
  Eval vm_compute in (buildElementalSearchTree nested_mesh).2.

End MoreFixtures.

(** * Properties *)

(** ** Reasoning about computations in [M] *)

Section Monad.
Context {S : Type}.

Lemma bind_unfold {A B} (c : M S A) (k : A -> M S B) (s : S) :
  (c ≫= k) s = match c s with
               | (Ok a, s') => k a s'
               | (Throw msg, s') => (Throw msg, s')
               | (Undefined, s') => (Undefined, s')
               end.
Proof. reflexivity. Qed.

Lemma bind_Ok {A B} (c : M S A) (k : A -> M S B) s a s' :
  c s = (Ok a, s') -> (c ≫= k) s = k a s'.
Proof. intros Hc. rewrite bind_unfold, Hc. reflexivity. Qed.

Lemma bind_Throw {A B} (c : M S A) (k : A -> M S B) s msg s' :
  c s = (Throw msg, s') -> (c ≫= k) s = (Throw msg, s').
Proof. intros Hc. rewrite bind_unfold, Hc. reflexivity. Qed.

Lemma bind_inv_Ok {A B} (c : M S A) (k : A -> M S B) s b s2 :
  (c ≫= k) s = (Ok b, s2) ->
  exists a s1, c s = (Ok a, s1) /\ k a s1 = (Ok b, s2).
Proof.
  rewrite bind_unfold. destruct (c s) as [[a | msg |] s1]; intros Hk.
  - exists a, s1. split; [reflexivity | exact Hk].
  - discriminate Hk.
  - discriminate Hk.
Qed.

Lemma preserves_ret {A} (P : S -> Prop) (a : A) : preserves P (mret a).
Proof. intros s r s' [= <- <-] HP. exact HP. Qed.

Lemma preserves_gets {A} (P : S -> Prop) (f : S -> A) : preserves P (gets f).
Proof. intros s r s' [= <- <-] HP. exact HP. Qed.

Lemma preserves_throw {A} (P : S -> Prop) msg :
  preserves P (adcircmodules_throw_exception msg : M S A).
Proof. intros s r s' [= <- <-] HP. exact HP. Qed.

Lemma preserves_undefined {A} (P : S -> Prop) :
  preserves P (undefined_behaviour : M S A).
Proof. intros s r s' [= <- <-] HP. exact HP. Qed.

Lemma preserves_throw_if (P : S -> Prop) c msg : preserves P (throw_if c msg).
Proof. destruct c; [apply preserves_throw | apply preserves_ret]. Qed.

Lemma preserves_modify (P : S -> Prop) (f : S -> S) :
  (forall s, P s -> P (f s)) -> preserves P (modify f).
Proof. intros Hf s r s' [= <- <-] HP. apply Hf, HP. Qed.

Lemma preserves_bind {A B} (P : S -> Prop) (c : M S A) (k : A -> M S B) :
  preserves P c -> (forall a, preserves P (k a)) -> preserves P (c ≫= k).
Proof.
  intros Hc Hk s r s'. rewrite bind_unfold.
  destruct (c s) as [[a | msg |] s1] eqn:Ec; intros Hr HP.
  - eapply Hk; [exact Hr | eapply Hc; eauto].
  - injection Hr as <- <-. eapply Hc; eauto.
  - injection Hr as <- <-. eapply Hc; eauto.
Qed.

Lemma preserves_vector_at {A} (P : S -> Prop) (v : list A) i :
  preserves P (vector_at v i : M S A).
Proof.
  unfold vector_at. destruct (v !! i);
    [apply preserves_ret | apply preserves_undefined].
Qed.

Lemma preserves_for_range (P : S -> Prop) n i (body : N -> M S unit) :
  (forall j, preserves P (body j)) -> preserves P (for_range n i body).
Proof.
  intros Hb. revert i. induction n as [| n IH]; intros i; simpl.
  - apply preserves_ret.
  - apply preserves_bind; [apply Hb | intros _; apply IH].
Qed.

Lemma preserves_for_range_with {A} (P : S -> Prop) n i (a : A)
    (body : N -> A -> M S A) :
  (forall j b, preserves P (body j b)) ->
  preserves P (for_range_with n i a body).
Proof.
  intros Hb. revert i a. induction n as [| n IH]; intros i a; simpl.
  - apply preserves_ret.
  - apply preserves_bind; [apply Hb | intros b; apply IH].
Qed.

Lemma preserves_for_each {A} (P : S -> Prop) (v : list A)
    (body : A -> M S unit) :
  (forall x, preserves P (body x)) -> preserves P (for_each v body).
Proof.
  intros Hb. induction v as [| x v IH]; simpl.
  - apply preserves_ret.
  - apply preserves_bind; [apply Hb | intros _; apply IH].
Qed.

Lemma preserves_for_each_with {A B} (P : S -> Prop) (v : list A) (b : B)
    (body : A -> B -> M S B) :
  (forall x y, preserves P (body x y)) ->
  preserves P (for_each_with v b body).
Proof.
  intros Hb. revert b. induction v as [| x v IH]; intros b; simpl.
  - apply preserves_ret.
  - apply preserves_bind; [apply Hb | intros y; apply IH].
Qed.

Lemma preserves_map_M {A B} (P : S -> Prop) (f : A -> M S B) (l : list A) :
  (forall x, preserves P (f x)) -> preserves P (map_M f l).
Proof.
  intros Hf. induction l as [| x l IH]; simpl.
  - apply preserves_ret.
  - apply preserves_bind; [apply Hf | intros y].
    apply preserves_bind; [apply IH | intros ys; apply preserves_ret].
Qed.

(** A successful counted loop establishes an invariant indexed by the
    number of iterations done. *)
Lemma for_range_invariant (I : nat -> S -> Prop) n i
    (body : N -> M S unit) s s' :
  I O s ->
  (forall k s1 s2, (k < n)%nat -> I k s1 ->
     body (i + N.of_nat k) s1 = (Ok tt, s2) -> I (Datatypes.S k) s2) ->
  for_range n i body s = (Ok tt, s') ->
  I n s'.
Proof.
  revert I i s. induction n as [| n IH]; intros I i s H0 Hstep Hrun.
  - simpl in Hrun. injection Hrun as <-. exact H0.
  - simpl in Hrun. apply bind_inv_Ok in Hrun as ([] & s1 & Hb & Hrest).
    apply (IH (fun k => I (Datatypes.S k)) (N.succ i) s1).
    + apply (Hstep O s s1); [lia | exact H0 |].
      replace (i + N.of_nat 0) with i by lia. exact Hb.
    + intros k t1 t2 Hk HI Hbk. apply (Hstep (Datatypes.S k) t1 t2);
        [lia | exact HI |].
      replace (i + N.of_nat (Datatypes.S k)) with (N.succ i + N.of_nat k)
        by lia.
      exact Hbk.
    + exact Hrest.
Qed.

End Monad.

Section MeshProperties.
Context `{External}.

(** ** Access by position *)

(** C10. When the stored counts equal the sizes of the node and element
    vectors, [node(index)] and [element(index)] return the pointer to the
    record stored at [index] for every [index] below the count, and throw
    the out-of-bounds exception, returning nothing and leaving the mesh as it
    was, for every [index] at or above the count. *)
Theorem node_element_by_position (m : Mesh) (index : N) :
  numNodes m = N.of_nat (length (m_nodes m)) ->
  numElements m = N.of_nat (length (m_elements m)) ->
  (index < numNodes m ->
     node index m = (Ok index, m) /\ is_Some (node_at m index)) /\
  (numNodes m <= index -> exists msg, node index m = (Throw msg, m)) /\
  (index < numElements m ->
     element index m = (Ok index, m) /\ is_Some (element_at m index)) /\
  (numElements m <= index -> exists msg, element index m = (Throw msg, m)).
Proof.
  intros Hn He. unfold node, element.
  rewrite !bind_unfold. unfold gets. simpl.
  repeat split.
  - rewrite bool_decide_eq_true_2 by assumption. reflexivity.
  - unfold node_at. apply lookup_lt_is_Some_2. lia.
  - intros Hge. rewrite bool_decide_eq_false_2 by lia. eexists. reflexivity.
  - rewrite bool_decide_eq_true_2 by assumption. reflexivity.
  - unfold element_at. apply lookup_lt_is_Some_2. lia.
  - intros Hge. rewrite bool_decide_eq_false_2 by lia. eexists. reflexivity.
Qed.

(** ** Boundary node totals *)

Lemma size_add_fold (bs : list Boundary) (a : N) :
  foldl (fun acc b => size_add acc (Boundary_length b)) (a mod SIZE_MODULUS) bs
  = (a + boundary_length_sum bs) mod SIZE_MODULUS.
Proof.
  revert a. induction bs as [| b bs IH]; intros a; simpl.
  - f_equal. lia.
  - unfold size_add at 2. rewrite N.Div0.add_mod_idemp_l.
    rewrite IH. f_equal. lia.
Qed.

Lemma totalOpen_loop (bs : list Boundary) (m : Mesh) :
  for_each bs (fun b =>
    modify (fun m => set_m_totalOpenBoundaryNodes
                       (size_add (m_totalOpenBoundaryNodes m)
                                 (Boundary_length b)) m)) m
  = (Ok tt,
     set_m_totalOpenBoundaryNodes
       (foldl (fun acc b => size_add acc (Boundary_length b))
              (m_totalOpenBoundaryNodes m) bs) m).
Proof.
  revert m. induction bs as [| b bs IH]; intros m; simpl.
  - destruct m; reflexivity.
  - rewrite bind_unfold. unfold modify at 1. rewrite IH. reflexivity.
Qed.

Lemma totalLand_loop (bs : list Boundary) (m : Mesh) :
  for_each bs (fun b =>
    modify (fun m => set_m_totalLandBoundaryNodes
                       (size_add (m_totalLandBoundaryNodes m)
                                 (Boundary_length b)) m)) m
  = (Ok tt,
     set_m_totalLandBoundaryNodes
       (foldl (fun acc b => size_add acc (Boundary_length b))
              (m_totalLandBoundaryNodes m) bs) m).
Proof.
  revert m. induction bs as [| b bs IH]; intros m; simpl.
  - destruct m; reflexivity.
  - rewrite bind_unfold. unfold modify at 1. rewrite IH. reflexivity.
Qed.

(** Both totals, whatever the sum: the accumulation is modulo [2^64]. *)
Lemma totalOpenBoundaryNodes_wrapped (m : Mesh) :
  totalOpenBoundaryNodes m
  = (Ok (boundary_length_sum (m_openBoundaries m) mod SIZE_MODULUS),
     set_m_totalOpenBoundaryNodes
       (boundary_length_sum (m_openBoundaries m) mod SIZE_MODULUS) m).
Proof.
  unfold totalOpenBoundaryNodes.
  rewrite bind_unfold. unfold modify at 1.
  rewrite bind_unfold. unfold gets at 1. simpl.
  rewrite bind_unfold, totalOpen_loop. simpl.
  change 0 with (0 mod SIZE_MODULUS) at 1 2.
  rewrite size_add_fold. reflexivity.
Qed.

Lemma totalLandBoundaryNodes_wrapped (m : Mesh) :
  totalLandBoundaryNodes m
  = (Ok (boundary_length_sum (m_landBoundaries m) mod SIZE_MODULUS),
     set_m_totalLandBoundaryNodes
       (boundary_length_sum (m_landBoundaries m) mod SIZE_MODULUS) m).
Proof.
  unfold totalLandBoundaryNodes.
  rewrite bind_unfold. unfold modify at 1.
  rewrite bind_unfold. unfold gets at 1. simpl.
  rewrite bind_unfold, totalLand_loop. simpl.
  change 0 with (0 mod SIZE_MODULUS) at 1 2.
  rewrite size_add_fold. reflexivity.
Qed.

(** C8. [totalOpenBoundaryNodes()] is the sum of the lengths of the open
    boundaries and [totalLandBoundaryNodes()] the sum of the lengths of the
    land boundaries, whatever total was stored before the call; the call
    stores the value it returns.  The sums are taken to fit a [size_t]. *)
Theorem totalBoundaryNodes_sum (m : Mesh) :
  boundary_length_sum (m_openBoundaries m) < SIZE_MODULUS ->
  boundary_length_sum (m_landBoundaries m) < SIZE_MODULUS ->
  totalOpenBoundaryNodes m
  = (Ok (boundary_length_sum (m_openBoundaries m)),
     set_m_totalOpenBoundaryNodes
       (boundary_length_sum (m_openBoundaries m)) m) /\
  totalLandBoundaryNodes m
  = (Ok (boundary_length_sum (m_landBoundaries m)),
     set_m_totalLandBoundaryNodes
       (boundary_length_sum (m_landBoundaries m)) m).
Proof.
  intros Ho Hl.
  rewrite totalOpenBoundaryNodes_wrapped, totalLandBoundaryNodes_wrapped.
  rewrite !N.mod_small by assumption. split; reflexivity.
Qed.

(** ** The native-ASCII writer *)

Lemma for_each_put_line {A} (f : A -> string) (l : list A) (m : Mesh)
    (out : list string) :
  for_each l (fun x => put_line (f x)) (m, out)
  = (Ok tt, (m, out ++ (f <$> l))).
Proof.
  revert out. induction l as [| x l IH]; intros out; simpl.
  - rewrite app_nil_r. reflexivity.
  - rewrite bind_unfold. simpl. rewrite IH, <- app_assoc. reflexivity.
Qed.

Lemma for_each_put_line_id (l : list string) (m : Mesh) (out : list string) :
  for_each l put_line (m, out) = (Ok tt, (m, out ++ l)).
Proof.
  revert out. induction l as [| x l IH]; intros out; simpl.
  - rewrite app_nil_r. reflexivity.
  - rewrite bind_unfold. simpl. rewrite IH, <- app_assoc. reflexivity.
Qed.

Lemma for_each_put_lines {A} (g : A -> list string) (l : list A) (m : Mesh)
    (out : list string) :
  for_each l (fun x => for_each (g x) put_line) (m, out)
  = (Ok tt, (m, out ++ concat (g <$> l))).
Proof.
  revert out. induction l as [| x l IH]; intros out; simpl.
  - rewrite app_nil_r. reflexivity.
  - rewrite bind_unfold.
    rewrite for_each_put_line_id. simpl.
    rewrite IH, <- app_assoc. reflexivity.
Qed.

Lemma format_11i_width (n : N) : (11 <= String.length (format_11i n))%nat.
Proof.
  unfold format_11i.
  assert (Hpad : forall k, String.length (spaces k) = k).
  { induction k as [| k IH]; simpl; [reflexivity | rewrite IH; reflexivity]. }
  assert (Happ : forall s t,
             String.length (s +:+ t) = (String.length s + String.length t)%nat).
  { induction s as [| c s IH]; intros t; simpl; [reflexivity |].
    rewrite IH. reflexivity. }
  rewrite Happ, Hpad. lia.
Qed.

(** C9. The file written by [writeAdcircMesh] is, in this order: the header
    string; the line made of two 11-wide integer fields, the element count
    then the node count; one line per node; one line per element; the
    open-boundary count, the total number of open-boundary nodes and the
    records of each open boundary; the land-boundary count, the total number
    of land-boundary nodes and the records of each land boundary.  The call
    succeeds and stores the two totals in the mesh. *)
Theorem writeAdcircMesh_layout (m : Mesh) :
  let total_open :=
    boundary_length_sum (m_openBoundaries m) mod SIZE_MODULUS in
  let total_land :=
    boundary_length_sum (m_landBoundaries m) mod SIZE_MODULUS in
  writeAdcircMesh m
  = (Ok tt,
     set_m_totalLandBoundaryNodes total_land
       (set_m_totalOpenBoundaryNodes total_open m),
     [meshHeaderString m;
      format_11i (numElements m) +:+ " " +:+ format_11i (numNodes m)]
     ++ ((fun n => Node_toAdcircString n (isLatLon m)) <$> m_nodes m)
     ++ (Element_toAdcircString (m_nodes m) <$> m_elements m)
     ++ [to_string (numOpenBoundaries m); to_string total_open]
     ++ concat (Boundary_toStringList (m_nodes m) <$> m_openBoundaries m)
     ++ [to_string (numLandBoundaries m); to_string total_land]
     ++ concat (Boundary_toStringList (m_nodes m) <$> m_landBoundaries m))
  /\ (11 <= String.length (format_11i (numElements m)))%nat
  /\ (11 <= String.length (format_11i (numNodes m)))%nat.
Proof.
  intros total_open total_land.
  split; [| split; apply format_11i_width].
  unfold writeAdcircMesh, writeAdcircMesh_lines.
  rewrite bind_unfold. simpl.
  rewrite bind_unfold. simpl.
  rewrite bind_unfold. simpl.
  rewrite bind_unfold. simpl.
  rewrite bind_unfold. simpl.
  rewrite bind_unfold. simpl.
  rewrite bind_unfold. simpl.
  rewrite bind_unfold, for_each_put_line.
  rewrite bind_unfold. simpl.
  rewrite bind_unfold, for_each_put_line.
  rewrite bind_unfold. simpl.
  rewrite bind_unfold. simpl.
  rewrite bind_unfold. unfold wr_mesh at 1.
  rewrite totalOpenBoundaryNodes_wrapped.
  rewrite bind_unfold. simpl.
  rewrite bind_unfold. simpl.
  rewrite bind_unfold, for_each_put_lines.
  rewrite bind_unfold. simpl.
  rewrite bind_unfold. simpl.
  rewrite bind_unfold. unfold wr_mesh at 1.
  rewrite totalLandBoundaryNodes_wrapped.
  rewrite bind_unfold. simpl.
  rewrite bind_unfold. simpl.
  rewrite for_each_put_lines.
  unfold format_11i_11i, total_open, total_land.
  do 2 f_equal. simpl. repeat (rewrite <- app_assoc; simpl). reflexivity.
Qed.

(** ** Point location *)

Lemma findElement_candidates_first (m : Mesh) (location : Point)
    (candidates : list N) :
  numElements m = N.of_nat (length (m_elements m)) ->
  Forall (fun i => i < numElements m) candidates ->
  findElement_candidates candidates location m
  = (Ok (default not_found
           (List.find (element_contains m location) candidates)), m).
Proof.
  intros Hsize Hcand.
  induction Hcand as [| i rest Hi Hrest IH]; simpl.
  - reflexivity.
  - rewrite bind_unfold. unfold element, gets. rewrite bind_unfold.
    rewrite bool_decide_eq_true_2 by exact Hi. simpl.
    rewrite bind_unfold. unfold element_deref, gets.
    rewrite bind_unfold. unfold vector_at, element_contains, element_at.
    destruct (m_elements m !! N.to_nat i) as [e |] eqn:Ee.
    + simpl. rewrite bind_unfold.
      destruct (Element_isInside (m_nodes m) e location); simpl.
      * reflexivity.
      * exact IH.
    + apply lookup_ge_None in Ee. unfold numElements in *. lia.
Qed.

(** On the null pointer that [_init] leaves, [findElement] has no defined
    behaviour: the tree must have been allocated by
    [buildElementalSearchTree] before. *)
Lemma findElement_null_tree (m : Mesh) (location : Point) :
  m_elementalSearchTree m = None ->
  findElement location m = (Undefined, m).
Proof.
  intros Hnull. unfold findElement.
  rewrite bind_unfold. unfold elementalSearchTreeInitialized.
  rewrite bind_unfold. unfold gets at 1. rewrite Hnull. reflexivity.
Qed.

(** A tree that is allocated but not initialised is rebuilt first; the
    candidates then come from the new tree. *)
Lemma findElement_builds_tree (m m1 : Mesh) (location : Point)
    (old tree : QKdtree2) :
  m_elementalSearchTree m = Some old ->
  QKdtree2_isInitialized old = false ->
  buildElementalSearchTree m = (Ok tt, m1) ->
  m_elementalSearchTree m1 = Some tree ->
  findElement location m
  = findElement_candidates (QKdtree2_findXNearest tree location 20)
      location m1.
Proof.
  intros Hold Hinit Hbuild Htree. unfold findElement.
  rewrite bind_unfold. unfold elementalSearchTreeInitialized.
  rewrite bind_unfold. unfold gets at 1. rewrite Hold. simpl.
  rewrite Hinit. simpl.
  rewrite bind_unfold, Hbuild.
  rewrite bind_unfold. unfold elementalSearchTree.
  rewrite bind_unfold. unfold gets at 1. rewrite Htree. reflexivity.
Qed.

(** With the element search tree built, [findElement(location)] asks it
    for the 20 centroids nearest to [location], scans the candidates in the
    order returned (nearest first), returns the position of the first
    candidate element that contains the point, and returns the not-found
    value [(size_t)-1] when no candidate contains it.  The mesh is left as
    it was. *)
Theorem findElement_first_containing (m : Mesh) (location : Point)
    (tree : QKdtree2) :
  m_elementalSearchTree m = Some tree ->
  QKdtree2_isInitialized tree = true ->
  numElements m = N.of_nat (length (m_elements m)) ->
  Forall (fun i => i < numElements m)
         (QKdtree2_findXNearest tree location 20) ->
  findElement location m
  = (Ok (default not_found
           (List.find (element_contains m location)
                      (QKdtree2_findXNearest tree location 20))), m)
  /\ not_found = 2 ^ 64 - 1.
Proof.
  intros Htree Hinit Hsize Hcand. split; [| reflexivity].
  unfold findElement.
  rewrite bind_unfold. unfold elementalSearchTreeInitialized.
  rewrite bind_unfold. unfold gets at 1. rewrite Htree. simpl.
  rewrite Hinit. simpl.
  rewrite bind_unfold. simpl.
  rewrite bind_unfold. unfold elementalSearchTree.
  rewrite bind_unfold. unfold gets at 1. rewrite Htree. simpl.
  apply findElement_candidates_first; assumption.
Qed.

(** ** Link table *)

(** *** The ordered set of pointer pairs *)

Lemma pair_lt_spec (p q : NodePtr * NodePtr) :
  pair_lt p q = true <-> (p.1 < q.1 \/ (p.1 = q.1 /\ p.2 < q.2)).
Proof.
  unfold pair_lt.
  rewrite orb_true_iff, andb_true_iff, !N.ltb_lt, N.eqb_eq. reflexivity.
Qed.

Lemma pair_lt_irrefl (p : NodePtr * NodePtr) : pair_lt p p = false.
Proof.
  apply not_true_is_false. rewrite pair_lt_spec. lia.
Qed.

Lemma pair_lt_trans (p q r : NodePtr * NodePtr) :
  pair_lt p q = true -> pair_lt q r = true -> pair_lt p r = true.
Proof. rewrite !pair_lt_spec. lia. Qed.

Lemma pair_lt_total (p q : NodePtr * NodePtr) :
  pair_lt p q = false -> pair_lt q p = false -> p = q.
Proof.
  intros Hpq Hqp.
  apply not_true_iff_false in Hpq, Hqp. rewrite pair_lt_spec in Hpq, Hqp.
  destruct p as [p1 p2], q as [q1 q2]; simpl in *. f_equal; lia.
Qed.

Lemma std_set_insert_elem (p x : NodePtr * NodePtr) s :
  x ∈ std_set_insert p s <-> x = p \/ x ∈ s.
Proof.
  induction s as [| q s IH]; simpl.
  - rewrite list_elem_of_singleton, elem_of_nil. tauto.
  - destruct (pair_lt p q) eqn:Hpq; [rewrite elem_of_cons; tauto |].
    destruct (pair_lt q p) eqn:Hqp.
    + rewrite !elem_of_cons, IH. tauto.
    + rewrite (pair_lt_total p q Hpq Hqp), elem_of_cons. tauto.
Qed.

Lemma std_set_insert_sorted (p : NodePtr * NodePtr) s :
  StronglySorted (fun a b => pair_lt a b = true) s ->
  StronglySorted (fun a b => pair_lt a b = true) (std_set_insert p s).
Proof.
  induction 1 as [| q s Hs IH Hq]; simpl.
  - repeat constructor.
  - destruct (pair_lt p q) eqn:Hpq.
    + constructor; [constructor; assumption |].
      constructor; [exact Hpq |].
      eapply Forall_impl; [exact Hq |].
      intros r Hr. simpl in Hr. eapply pair_lt_trans; eassumption.
    + destruct (pair_lt q p) eqn:Hqp.
      * constructor; [exact IH |].
        apply Forall_forall. intros r Hr.
        apply std_set_insert_elem in Hr as [-> | Hr]; [exact Hqp |].
        rewrite Forall_forall in Hq. apply Hq, Hr.
      * constructor; assumption.
Qed.

Lemma std_set_fold_elem (l s : list (NodePtr * NodePtr)) x :
  x ∈ foldl (fun s p => std_set_insert p s) s l <-> x ∈ l \/ x ∈ s.
Proof.
  revert s. induction l as [| p l IH]; intros s; simpl.
  - rewrite elem_of_nil. tauto.
  - rewrite IH, std_set_insert_elem, elem_of_cons. tauto.
Qed.

Lemma std_set_fold_sorted (l s : list (NodePtr * NodePtr)) :
  StronglySorted (fun a b => pair_lt a b = true) s ->
  StronglySorted (fun a b => pair_lt a b = true)
    (foldl (fun s p => std_set_insert p s) s l).
Proof.
  revert s. induction l as [| p l IH]; intros s Hs; simpl.
  - exact Hs.
  - apply IH, std_set_insert_sorted, Hs.
Qed.

Lemma std_set_of_range_elem (l : list (NodePtr * NodePtr)) x :
  x ∈ std_set_of_range l <-> x ∈ l.
Proof.
  unfold std_set_of_range. rewrite std_set_fold_elem, elem_of_nil. tauto.
Qed.

Lemma std_set_of_range_sorted (l : list (NodePtr * NodePtr)) :
  StronglySorted (fun a b => pair_lt a b = true) (std_set_of_range l).
Proof. apply std_set_fold_sorted. constructor. Qed.

Lemma strictly_sorted_NoDup (s : list (NodePtr * NodePtr)) :
  StronglySorted (fun a b => pair_lt a b = true) s -> NoDup s.
Proof.
  induction 1 as [| q s Hs IH Hq]; constructor; [| exact IH].
  intros Hin. rewrite Forall_forall in Hq. specialize (Hq q Hin).
  rewrite pair_lt_irrefl in Hq. discriminate.
Qed.

Lemma std_set_of_range_NoDup (l : list (NodePtr * NodePtr)) :
  NoDup (std_set_of_range l).
Proof. apply strictly_sorted_NoDup, std_set_of_range_sorted. Qed.


(** *** Evaluation of [generateLinkTable] *)

Lemma Element_elementLeg_Some (e : Element) (j : nat) :
  (j < length (Element_nodes e))%nat ->
  exists a b, Element_elementLeg e j = Some (a, b)
              /\ a ∈ Element_nodes e /\ b ∈ Element_nodes e.
Proof.
  intros Hj. unfold Element_elementLeg.
  destruct (lookup_lt_is_Some_2 (Element_nodes e) j Hj) as [a Ha].
  assert (Hk : ((j + 1) mod length (Element_nodes e)
                < length (Element_nodes e))%nat)
    by (apply Nat.mod_upper_bound; lia).
  destruct (lookup_lt_is_Some_2 (Element_nodes e) _ Hk) as [b Hb].
  rewrite Ha, Hb. exists a, b.
  split; [reflexivity |].
  split; eapply list_elem_of_lookup_2; eassumption.
Qed.


Lemma generateLinkTable_legs_loop (m : Mesh) (e_s : Element) (js : list nat)
    (legs : list (NodePtr * NodePtr)) :
  (forall p, p ∈ Element_nodes e_s -> is_Some (node_at m p)) ->
  Forall (fun j => (j < length (Element_nodes e_s))%nat) js ->
  for_each_with js legs (generateLinkTable_leg e_s) m
  = (Ok (legs ++ (canonical_leg m <$> omap (Element_elementLeg e_s) js)), m).
Proof.
  intros Hvalid Hjs. revert legs.
  induction Hjs as [| j js Hj Hjs IH]; intros legs; simpl.
  - rewrite app_nil_r. reflexivity.
  - destruct (Element_elementLeg_Some e_s j Hj) as (a & b & Hab & Ha & Hb).
    rewrite bind_unfold. unfold generateLinkTable_leg. rewrite Hab.
    destruct (Hvalid a Ha) as [na Hna], (Hvalid b Hb) as [nb Hnb].
    unfold node_at in Hna, Hnb.
    unfold node_deref, vector_at, gets. rewrite !bind_unfold. simpl.
    rewrite Hna. simpl. rewrite !bind_unfold. simpl. rewrite Hnb. simpl.
    rewrite IH, <- app_assoc. simpl.
    unfold canonical_leg, node_at. simpl. rewrite Hna, Hnb. reflexivity.
Qed.

Lemma generateLinkTable_element_eval (m : Mesh) (e : Element)
    (legs : list (NodePtr * NodePtr)) :
  (forall p,
     p ∈ Element_nodes (Element_sortVerticiesAboutCenter (m_nodes m) e) ->
     is_Some (node_at m p)) ->
  generateLinkTable_element e legs m
  = (Ok (legs ++ (canonical_leg m <$>
                    element_legs
                      (Element_sortVerticiesAboutCenter (m_nodes m) e))), m).
Proof.
  intros Hvalid. unfold generateLinkTable_element.
  rewrite bind_unfold. unfold gets. simpl.
  unfold Element_n. rewrite Nat2Z.id.
  apply generateLinkTable_legs_loop; [exact Hvalid |].
  apply Forall_forall. intros j Hj. apply elem_of_seq in Hj. lia.
Qed.

Lemma generateLinkTable_elements_loop (m : Mesh) (es : list Element)
    (legs : list (NodePtr * NodePtr)) :
  (forall e p, e ∈ es ->
     p ∈ Element_nodes (Element_sortVerticiesAboutCenter (m_nodes m) e) ->
     is_Some (node_at m p)) ->
  for_each_with es legs generateLinkTable_element m
  = (Ok (legs ++ concat ((fun e =>
            canonical_leg m <$>
              element_legs (Element_sortVerticiesAboutCenter (m_nodes m) e))
          <$> es)), m).
Proof.
  revert legs. induction es as [| e es IH]; intros legs Hvalid; simpl.
  - rewrite app_nil_r. reflexivity.
  - rewrite bind_unfold, generateLinkTable_element_eval.
    + rewrite IH, <- app_assoc; [reflexivity |].
      intros e' p He'. apply Hvalid. right. exact He'.
    + intros p. apply Hvalid. left.
Qed.

Lemma generateLinkTable_eval (m : Mesh) :
  reordering_permutes m -> vertices_valid m ->
  generateLinkTable m = (Ok (std_set_of_range (link_candidates m)), m).
Proof.
  intros Hsort Hvalid. unfold generateLinkTable.
  rewrite bind_unfold. unfold gets. simpl.
  rewrite bind_unfold, generateLinkTable_elements_loop.
  - reflexivity.
  - intros e p He Hp. apply (Hvalid e p He). rewrite <- (Hsort e). exact Hp.
Qed.

(** *** What the table contains *)

Lemma elem_of_concat {A} (x : A) (ls : list (list A)) :
  x ∈ concat ls <-> exists l, x ∈ l /\ l ∈ ls.
Proof.
  induction ls as [| l ls IH]; simpl.
  - rewrite elem_of_nil. split; [tauto |].
    intros (l & _ & Hl). apply elem_of_nil in Hl. exact Hl.
  - rewrite elem_of_app, IH. split.
    + intros [Hx | (l' & Hx & Hl')].
      * exists l. split; [exact Hx | left].
      * exists l'. split; [exact Hx | right; exact Hl'].
    + intros (l' & Hx & Hl'). apply elem_of_cons in Hl' as [-> | Hl'].
      * left. exact Hx.
      * right. exists l'. split; assumption.
Qed.

Lemma link_candidates_elem (m : Mesh) (x : NodePtr * NodePtr) :
  x ∈ link_candidates m <->
  exists e p, e ∈ m_elements m
    /\ p ∈ element_legs (Element_sortVerticiesAboutCenter (m_nodes m) e)
    /\ x = canonical_leg m p.
Proof.
  unfold link_candidates. rewrite elem_of_concat. split.
  - intros (l & Hx & Hl). apply list_elem_of_fmap in Hl as (e & -> & He).
    apply list_elem_of_fmap in Hx as (p & -> & Hp). eauto.
  - intros (e & p & He & Hp & ->).
    exists (canonical_leg m <$>
              element_legs (Element_sortVerticiesAboutCenter (m_nodes m) e)).
    split.
    + apply list_elem_of_fmap. exists p. split; [reflexivity | exact Hp].
    + apply list_elem_of_fmap. exists e. split; [reflexivity | exact He].
Qed.











(** ** The readers *)

(** *** Properties of the mesh kept by every step of a reader *)

Lemma preserves_on_mesh {A} (Q : Mesh -> Prop) (c : M Mesh A) :
  preserves Q c -> preserves (of_mesh Q) (on_mesh c).
Proof.
  intros Hc [m f] r [m' f']. unfold on_mesh, of_mesh. simpl.
  destruct (c m) as [r0 m0] eqn:Ec. intros [= <- <- <-]. eapply Hc, Ec.
Qed.

Lemma preserves_std_getline (Q : Mesh -> Prop) buf :
  preserves (of_mesh Q) (std_getline buf).
Proof.
  intros [m f] r [m' f']. unfold std_getline, of_mesh. simpl.
  destruct (getline buf f). intros [= <- <- <-]. auto.
Qed.

Lemma preserves_fid_close (Q : Mesh -> Prop) :
  preserves (of_mesh Q) fid_close.
Proof. intros [m f] r [m' f']. intros [= <- <- <-]. auto. Qed.

Lemma preserves_close_and_throw {A} (Q : Mesh -> Prop) msg :
  preserves (of_mesh Q) (close_and_throw msg : M (Mesh * fstream) A).
Proof.
  apply preserves_bind; [apply preserves_fid_close |].
  intros _. apply preserves_throw.
Qed.

Lemma preserves_nodeLookup_subscript (Q : Mesh -> Prop) (id : N) :
  (forall m, Q m ->
     Q (set_m_nodeLookup (map_subscript (m_nodeLookup m) id).2 m)) ->
  preserves Q (nodeLookup_subscript id).
Proof.
  intros HQ m r m'. unfold nodeLookup_subscript.
  specialize (HQ m).
  destruct (map_subscript (m_nodeLookup m) id) as [pos t].
  intros [= <- <-]. exact HQ.
Qed.

(** One step of the decomposition of a computation into its primitive
    steps. *)
Ltac frame_step :=
  first
    [ apply preserves_ret | apply preserves_gets | apply preserves_throw
    | apply preserves_undefined | apply preserves_throw_if
    | apply preserves_vector_at | apply preserves_std_getline
    | apply preserves_fid_close | apply preserves_close_and_throw
    | apply preserves_bind; [| intros ?]
    | apply preserves_for_range; intros ?
    | apply preserves_for_range_with; intros ? ?
    | apply preserves_for_each; intros ?
    | apply preserves_for_each_with; intros ? ?
    | apply preserves_map_M; intros ?
    | apply preserves_on_mesh
    | apply preserves_modify; intros ? ?
    | apply preserves_nodeLookup_subscript; intros ? ?
    | match goal with
      | |- preserves _ (if ?b then _ else _) => destruct b
      | |- preserves _ (match ?x with _ => _ end) => destruct x
      end ].

Ltac frame := repeat frame_step.

(** *** A failed read *)

Lemma _init_freshly_cleared (m : Mesh) : freshly_cleared (_init m).
Proof. unfold freshly_cleared, _init. repeat split. Qed.

(** Whatever its outcome, the node section leaves a node vector of the
    size announced by the header, and touches nothing the later sections
    fill. *)
Lemma readAdcircNodes_shape (st st' : Mesh * fstream) r :
  readAdcircNodes st = (r, st') ->
  length (m_nodes st'.1) = N.to_nat (numNodes st.1) /\
  numNodes st'.1 = numNodes st.1 /\
  numElements st'.1 = numElements st.1 /\
  (later_sections_empty st.1 -> later_sections_empty st'.1).
Proof.
  unfold readAdcircNodes. rewrite bind_unfold.
  destruct st as [m f]. simpl.
  set (m1 := set_m_nodes _ m).
  intros Hrun.
  assert (Hkeep : forall Q : Mesh -> Prop,
             (forall m b, Q m -> Q (set_m_nodeOrderingLogical b m)) ->
             (forall m j n, Q m -> Q (store_node j n m)) ->
             (forall m id i, Q m -> Q (nodeLookup_assign id i m)) ->
             Q m1 -> Q st'.1).
  { intros Q Hflag Hstore Hassign HQ.
    match type of Hrun with
    | ?c _ = _ => assert (Hpres : preserves (of_mesh Q) c)
    end.
    { frame; auto. }
    exact (Hpres (m1, f) r st' Hrun HQ). }
  split; [| split; [| split]].
  - apply (Hkeep (fun m' => length (m_nodes m') = N.to_nat (numNodes m))).
    + intros; assumption.
    + intros m' j n Hm'. unfold store_node. simpl.
      rewrite length_insert. exact Hm'.
    + intros; assumption.
    + unfold m1. simpl. apply length_resize.
  - apply (Hkeep (fun m' => numNodes m' = numNodes m)); auto.
  - apply (Hkeep (fun m' => numElements m' = numElements m)); auto.
  - intros (He & Ho & Hl). repeat split.
    + apply (Hkeep (fun m' => m_elements m' = [])); auto.
    + apply (Hkeep (fun m' => m_openBoundaries m' = [])); auto.
    + apply (Hkeep (fun m' => m_landBoundaries m' = [])); auto.
Qed.

(** A header announcing no node leaves the node section nothing to fail
    on. *)
Lemma readAdcircNodes_no_node (st : Mesh * fstream) :
  numNodes st.1 = 0 ->
  exists r st', readAdcircNodes st = (r, st') /\ forall msg, r <> Throw msg.
Proof.
  destruct st as [m f]. simpl. intros Hzero.
  unfold readAdcircNodes. rewrite bind_unfold. simpl.
  rewrite bind_unfold. simpl. rewrite Hzero.
  change (N.to_nat 0) with 0%nat. rewrite resize_0.
  rewrite bind_unfold. simpl.
  rewrite bind_unfold. simpl.
  destruct (m_nodeOrderingLogical m); simpl.
  - eexists _, _. split; [reflexivity | discriminate].
  - unfold build_nodeLookup. rewrite bind_unfold. simpl.
    unfold numNodes in Hzero. rewrite Hzero. simpl.
    eexists _, _. split; [reflexivity | discriminate].
Qed.

Lemma readAdcircMeshHeader_later_sections (st st' : Mesh * fstream) r :
  readAdcircMeshHeader st = (r, st') ->
  later_sections_empty st.1 -> later_sections_empty st'.1.
Proof.
  intros Hrun.
  assert (Hpres : preserves (of_mesh later_sections_empty)
                    readAdcircMeshHeader) by (frame; auto).
  exact (Hpres st r st' Hrun).
Qed.

Context `{!OtherFormats}.

(** [read] on the native-ASCII format, once the file name is set and the
    file exists: the mesh is wiped, then the sections run on the opened
    stream; the mesh of the last state reached is the one left. *)
Lemma read_adcirc_unfold (disk : gmap string File) (format : MeshFormat)
    (m : Mesh) :
  m_filename m <> "" ->
  is_Some (disk !! m_filename m) ->
  selects_adcirc format (m_filename m) ->
  read disk format m
  = let '(r, (m', _)) :=
      readAdcircMesh_sections (_init m, fstream_open disk (m_filename m)) in
    (r, m').
Proof.
  intros Hname Hfile Hformat. unfold read.
  rewrite bind_unfold. unfold gets at 1.
  rewrite bind_unfold. rewrite bool_decide_eq_false_2 by exact Hname. simpl.
  rewrite bind_unfold. unfold IO_fileExists.
  rewrite bool_decide_eq_true_2 by exact Hfile. simpl.
  rewrite bind_unfold. simpl.
  assert (Hfmt : match format with
                 | MESH_UNKNOWN => getMeshFormat (m_filename m)
                 | _ => format
                 end = MESH_ADCIRC)
    by (destruct format; simpl in Hformat; try contradiction; auto).
  rewrite Hfmt. unfold readAdcircMesh.
  replace (filename (_init m)) with (m_filename m); [reflexivity |].
  unfold _init, filename. destruct (decide (m_epsg m = (-1)%Z)); reflexivity.
Qed.

(** X24. When the file exists but neither the format argument nor the
    file name selects a format, [read()] throws
    "Invalid mesh format selected." after it has wiped the mesh: the
    object is left freshly cleared, its previous content gone. *)
Lemma read_invalid_format (disk : gmap string File) (m : Mesh) :
  m_filename m <> "" ->
  is_Some (disk !! m_filename m) ->
  getMeshFormat (m_filename m) = MESH_UNKNOWN ->
  read disk MESH_UNKNOWN m
  = (Throw "Invalid mesh format selected.", _init m)
  /\ freshly_cleared (_init m).
Proof.
  intros Hname Hfile Hfmt. split; [| apply _init_freshly_cleared].
  unfold read.
  rewrite bind_unfold. unfold gets at 1.
  rewrite bind_unfold. rewrite bool_decide_eq_false_2 by exact Hname. simpl.
  rewrite bind_unfold. unfold IO_fileExists.
  rewrite bool_decide_eq_true_2 by exact Hfile. simpl.
  rewrite bind_unfold. simpl. rewrite Hfmt. reflexivity.
Qed.

(** *** The node section *)

Lemma size_sub_1_eq (id i : N) :
  id < SIZE_MODULUS -> i + 1 < SIZE_MODULUS ->
  size_sub id 1 = i <-> id = i + 1.
Proof.
  unfold size_sub, size_of_int, SIZE_MODULUS. intros Hid Hi.
  change (Z.of_N (2 ^ 64)) with (2 ^ 64)%Z.
  change (2 ^ 64) with 18446744073709551616 in *.
  change (2 ^ 64)%Z with 18446744073709551616%Z.
  destruct (N.eq_dec id 0) as [-> | Hpos].
  - change (Z.to_N ((Z.of_N 0 - Z.of_N 1) mod 18446744073709551616))
      with 18446744073709551615. lia.
  - rewrite Z.mod_small by lia. lia.
Qed.

Lemma readAdcircNodes_record_Ok (i : N) (m : Mesh) (f : fstream)
    (st2 : Mesh * fstream) :
  readAdcircNodes_record i (m, f) = (Ok tt, st2) ->
  exists id x y z,
    st2.1 = store_node i (mkNode id x y z)
              (if bool_decide (i <> size_sub id 1)
               then set_m_nodeOrderingLogical false m else m).
Proof.
  unfold readAdcircNodes_record. rewrite bind_unfold.
  unfold std_getline at 1. destruct (getline "" f) as [line f1].
  destruct (IO_splitStringNodeFormat line) as [[[[id x] y] z] |].
  - intros Hrun. exists id, x, y, z.
    rewrite bind_unfold in Hrun.
    destruct (bool_decide (i <> size_sub id 1));
      simpl in Hrun; injection Hrun as <-; reflexivity.
  - unfold close_and_throw. rewrite bind_unfold. simpl. discriminate.
Qed.

Lemma readAdcircNodes_loop (n : nat) (m m' : Mesh) (f f' : fstream) :
  length (m_nodes m) = n ->
  for_range n 0 readAdcircNodes_record (m, f) = (Ok tt, (m', f')) ->
  length (m_nodes m') = n /\
  (m_nodeOrderingLogical m' = true <->
   m_nodeOrderingLogical m = true /\
   forall (i : nat) nd, m_nodes m' !! i = Some nd ->
                        size_sub (Node_id nd) 1 = N.of_nat i).
Proof.
  intros Hlen Hrun.
  pose (I := fun (k : nat) (st : Mesh * fstream) =>
    length (m_nodes st.1) = n /\
    (m_nodeOrderingLogical st.1 = true <->
     m_nodeOrderingLogical m = true /\
     forall (i : nat) nd, (i < k)%nat -> m_nodes st.1 !! i = Some nd ->
                          size_sub (Node_id nd) 1 = N.of_nat i)).
  assert (HI : I n (m', f')).
  { apply (for_range_invariant I n 0 readAdcircNodes_record (m, f));
      [| | exact Hrun].
    - split; [exact Hlen |]. simpl. split; [| tauto].
      intros Hflag. split; [exact Hflag | intros i nd Hi; lia].
    - intros k [ma fa] s2 Hk [Hla Hfa] Hbody. simpl in Hla, Hfa.
      replace (0 + N.of_nat k) with (N.of_nat k) in Hbody by lia.
      apply readAdcircNodes_record_Ok in Hbody as (id & x & y & z & Hs2).
      unfold I. rewrite Hs2. clear Hs2.
      assert (Hnodes : forall mb,
                 m_nodes (store_node (N.of_nat k) (mkNode id x y z) mb)
                 = <[k := mkNode id x y z]> (m_nodes mb)).
      { intros mb. unfold store_node. simpl. rewrite Nat2N.id. reflexivity. }
      assert (Hflag : forall mb,
                 m_nodeOrderingLogical
                   (store_node (N.of_nat k) (mkNode id x y z) mb)
                 = m_nodeOrderingLogical mb) by reflexivity.
      rewrite Hnodes, Hflag. split.
      { rewrite length_insert. destruct (bool_decide _); exact Hla. }
      assert (Hk' : m_nodes
                      (if bool_decide (N.of_nat k <> size_sub id 1)
                       then set_m_nodeOrderingLogical false ma else ma)
                    = m_nodes ma) by (destruct (bool_decide _); reflexivity).
      rewrite Hk'.
      case_bool_decide as Hcmp; simpl.
      + split; [discriminate |]. intros [_ Hall]. exfalso. apply Hcmp.
        symmetry. apply (Hall k (mkNode id x y z)); [lia |].
        apply list_lookup_insert_eq. lia.
      + rewrite Hfa. split.
        * intros [Hm Hall]. split; [exact Hm |]. intros i nd Hi Hnd.
          destruct (decide (i = k)) as [-> | Hne].
          -- rewrite list_lookup_insert_eq in Hnd by lia.
             injection Hnd as <-. simpl.
             destruct (N.eq_dec (N.of_nat k) (size_sub id 1)) as [E | E];
               [symmetry; exact E | contradiction].
          -- rewrite list_lookup_insert_ne in Hnd by lia.
             apply (Hall i nd); [lia | exact Hnd].
        * intros [Hm Hall]. split; [exact Hm |]. intros i nd Hi Hnd.
          apply (Hall i nd); [lia |].
          rewrite list_lookup_insert_ne by lia. exact Hnd. }
  destruct HI as [Hl Hf]. simpl in Hl, Hf. split; [exact Hl |].
  rewrite Hf. split; intros [Hm Hall]; (split; [exact Hm |]).
  - intros i nd Hnd. apply (Hall i nd); [| exact Hnd].
    apply lookup_lt_Some in Hnd. lia.
  - intros i nd _ Hnd. apply (Hall i nd Hnd).
Qed.

Lemma build_nodeLookup_complete (m m' : Mesh) :
  m_numNodes m = N.of_nat (length (m_nodes m)) ->
  build_nodeLookup m = (Ok tt, m') ->
  m_nodes m' = m_nodes m /\
  m_nodeOrderingLogical m' = m_nodeOrderingLogical m /\
  lookup_complete m'.
Proof.
  intros Hsize. unfold build_nodeLookup.
  rewrite bind_unfold. unfold gets at 1. rewrite Hsize, Nat2N.id.
  intros Hrun.
  pose (I := fun (k : nat) (m1 : Mesh) =>
    m_nodes m1 = m_nodes m /\
    m_nodeOrderingLogical m1 = m_nodeOrderingLogical m /\
    forall (i : nat) nd, (i < k)%nat -> m_nodes m !! i = Some nd ->
      exists p nd', m_nodeLookup m1 !! Node_id nd = Some p
                    /\ m_nodes m !! N.to_nat p = Some nd'
                    /\ Node_id nd' = Node_id nd).
  assert (HI : I (length (m_nodes m)) m').
  { refine (for_range_invariant I _ 0 _ m m' _ _ Hrun).
    - repeat split. intros i nd Hi. lia.
    - intros k m1 m2 Hk (Hn1 & Hf1 & Hall) Hbody.
      replace (0 + N.of_nat k) with (N.of_nat k) in Hbody by lia.
      rewrite bind_unfold in Hbody. unfold gets at 1 in Hbody.
      rewrite bind_unfold in Hbody. unfold vector_at in Hbody.
      rewrite Nat2N.id, Hn1 in Hbody.
      destruct (m_nodes m !! k) as [ndk |] eqn:Hndk; [| discriminate].
      simpl in Hbody. injection Hbody as <-.
      split; [exact Hn1 |]. split; [exact Hf1 |].
      intros i nd Hi Hnd. simpl.
      destruct (decide (Node_id ndk = Node_id nd)) as [Heq | Hne].
      + exists (N.of_nat k), ndk. rewrite Heq, lookup_insert_eq, Nat2N.id.
        auto.
      + rewrite lookup_insert_ne by exact Hne.
        apply (Hall i nd); [| exact Hnd].
        destruct (decide (i = k)) as [-> | ?]; [| lia].
        rewrite Hndk in Hnd. injection Hnd as ->. contradiction. }
  destruct HI as (Hn & Hf & Hall).
  split; [exact Hn |]. split; [exact Hf |].
  intros nd Hnd. rewrite Hn in Hnd.
  apply list_elem_of_lookup in Hnd as [i Hi].
  destruct (Hall i nd) as (p & nd' & Hp & Hnd' & Hid);
    [eapply lookup_lt_Some; exact Hi | exact Hi |].
  exists p, nd'. unfold node_at. rewrite Hn. auto.
Qed.

(** The two halves of the node section, on a successful run. *)
Lemma readAdcircNodes_Ok (st st' : Mesh * fstream) :
  readAdcircNodes st = (Ok tt, st') ->
  length (m_nodes st'.1) = N.to_nat (numNodes st.1) /\
  (m_nodeOrderingLogical st'.1 = true <->
   m_nodeOrderingLogical st.1 = true /\
   forall (i : nat) nd, m_nodes st'.1 !! i = Some nd ->
                        size_sub (Node_id nd) 1 = N.of_nat i) /\
  (m_nodeOrderingLogical st'.1 = false -> lookup_complete st'.1).
Proof.
  destruct st as [m f]. unfold readAdcircNodes.
  rewrite bind_unfold. simpl.
  set (m1 := set_m_nodes _ m).
  rewrite bind_unfold. simpl.
  intros Hrun. apply bind_inv_Ok in Hrun as ([] & [m2 f2] & Hloop & Hrest).
  assert (Hlen1 : length (m_nodes m1) = N.to_nat (numNodes m))
    by (unfold m1; simpl; apply length_resize).
  pose proof Hloop as Hloop'.
  apply (readAdcircNodes_loop _ m1 m2 f f2) in Hloop as [Hlen2 Hflag2];
    [| reflexivity].
  rewrite bind_unfold in Hrest. simpl in Hrest.
  destruct (m_nodeOrderingLogical m2) eqn:Hlogical; simpl in Hrest.
  - injection Hrest as <-. simpl.
    split; [rewrite Hlen2; exact Hlen1 |]. split; [| congruence].
    rewrite Hlogical. exact Hflag2.
  - unfold on_mesh in Hrest.
    destruct (build_nodeLookup m2) as [r m3] eqn:Hbuild.
    injection Hrest as -> <-. simpl.
    apply build_nodeLookup_complete in Hbuild as (Hn3 & Hf3 & Hcomplete).
    + rewrite Hn3, Hf3. split; [rewrite Hlen2; exact Hlen1 |].
      split; [| auto].
      rewrite Hlogical. exact Hflag2.
    + assert (Hpres : preserves
                        (of_mesh (fun x => m_numNodes x = m_numNodes m))
                        (for_range (length (m_nodes m1)) 0
                                   readAdcircNodes_record))
        by (frame; auto).
      pose proof (Hpres (m1, f) _ (m2, f2) Hloop' eq_refl) as Hnum.
      unfold of_mesh in Hnum. simpl in Hnum.
      rewrite Hnum, Hlen2, length_resize, N2Nat.id. reflexivity.
Qed.

(** The node section decides the node flag: after a successful run that
    started with the flag set, it is set exactly when every position [i]
    holds identifier [i + 1]. *)
Lemma readAdcircNodes_flag (st st' : Mesh * fstream) :
  m_nodeOrderingLogical st.1 = true ->
  numNodes st.1 < SIZE_MODULUS ->
  readAdcircNodes st = (Ok tt, st') ->
  Forall (fun nd => Node_id nd < SIZE_MODULUS) (m_nodes st'.1) ->
  nodeOrderingIsLogical st'.1 = true
  <-> ids_sequential (Node_id <$> m_nodes st'.1).
Proof.
  intros Hstart Hcount Hrun Hids.
  destruct (readAdcircNodes_Ok st st' Hrun) as (Hlen & Hflag & _).
  unfold nodeOrderingIsLogical. rewrite Hflag.
  assert (Hconv : forall (i : nat) nd,
             m_nodes st'.1 !! i = Some nd ->
             size_sub (Node_id nd) 1 = N.of_nat i
             <-> Node_id nd = N.of_nat i + 1).
  { intros i nd Hnd. apply size_sub_1_eq.
    - rewrite Forall_forall in Hids. apply Hids.
      eapply list_elem_of_lookup_2, Hnd.
    - apply lookup_lt_Some in Hnd. lia. }
  split.
  - intros [_ Hall] i id Hi. rewrite list_lookup_fmap in Hi.
    destruct (m_nodes st'.1 !! i) as [nd |] eqn:Hnd; [| discriminate].
    injection Hi as <-. apply (Hconv i nd Hnd), (Hall i nd Hnd).
  - intros Hseq. split; [exact Hstart |]. intros i nd Hnd.
    apply (Hconv i nd Hnd), (Hseq i).
    rewrite list_lookup_fmap, Hnd. reflexivity.
Qed.

(** *** The sections that follow the node section *)

Lemma lookup_complete_subscript (m : Mesh) (id : N) :
  lookup_complete m ->
  lookup_complete (set_m_nodeLookup (map_subscript (m_nodeLookup m) id).2 m).
Proof.
  intros Hm. unfold map_subscript.
  destruct (m_nodeLookup m !! id) eqn:Hid; simpl.
  - intros nd Hnd. apply (Hm nd Hnd).
  - intros nd Hnd. destruct (Hm nd Hnd) as (p & nd' & Hp & Hrest).
    exists p, nd'. split; [| exact Hrest]. simpl.
    rewrite lookup_insert_ne; [exact Hp |]. intros ->.
    rewrite Hid in Hp. discriminate.
Qed.

Lemma after_nodes_keeps_lookup :
  preserves (of_mesh lookup_complete) after_nodes.
Proof.
  unfold after_nodes. frame;
    solve [assumption | apply lookup_complete_subscript; assumption].
Qed.

Lemma after_nodes_keeps_node_flag (b : bool) :
  preserves (of_mesh (fun m => m_nodeOrderingLogical m = b)) after_nodes.
Proof. unfold after_nodes. frame; assumption. Qed.

(** *** Lookup by identifier after a read *)

Lemma nodeById_indexed (m : Mesh) (id p : N) :
  m_nodeOrderingLogical m = false ->
  m_nodeLookup m !! id = Some p ->
  nodeById id m = (Ok p, m).
Proof.
  intros Hflag Hp. unfold nodeById.
  rewrite bind_unfold. unfold gets. rewrite Hflag.
  unfold nodeLookup_subscript, map_subscript. rewrite Hp.
  destruct m; reflexivity.
Qed.

Lemma read_adcirc_Ok (disk : gmap string File) (format : MeshFormat)
    (m m' : Mesh) :
  m_filename m <> "" ->
  is_Some (disk !! m_filename m) ->
  selects_adcirc format (m_filename m) ->
  read disk format m = (Ok tt, m') ->
  exists st1 st2 f',
    readAdcircMeshHeader (_init m, fstream_open disk (m_filename m))
      = (Ok tt, st1)
    /\ readAdcircNodes st1 = (Ok tt, st2)
    /\ after_nodes st2 = (Ok tt, (m', f')).
Proof.
  intros Hname Hfile Hformat. rewrite read_adcirc_unfold by assumption.
  destruct (readAdcircMesh_sections _) as [r [m1 f1]] eqn:Hrun.
  intros [= -> ->].
  unfold readAdcircMesh_sections in Hrun.
  apply bind_inv_Ok in Hrun as ([] & st1 & Hheader & Hrun).
  apply bind_inv_Ok in Hrun as ([] & st2 & Hnodes & Hrun).
  exists st1, st2, f1. auto.
Qed.

(** *** The element section *)

(** With the node ordering sequential, the element section never compares
    an element identifier with its position: the element flag is left as it
    was. *)
Lemma readAdcircElements_flag_untouched (st st' : Mesh * fstream) r :
  m_nodeOrderingLogical st.1 = true ->
  m_elementOrderingLogical st.1 = true ->
  readAdcircElements st = (r, st') ->
  m_elementOrderingLogical st'.1 = true.
Proof.
  destruct st as [m f]. simpl. intros Hnodes Hflag.
  unfold readAdcircElements.
  rewrite bind_unfold. simpl. rewrite bind_unfold. simpl.
  rewrite bind_unfold. simpl. rewrite Hnodes.
  set (m1 := set_m_elements _ m).
  rewrite bind_unfold.
  destruct (for_range_with _ 0 "" readAdcircElements_logical (m1, f))
    as [r1 [m2 f2]] eqn:Hloop.
  assert (Hflag2 : m_elementOrderingLogical m2 = true).
  { assert (Hpres : preserves
              (of_mesh (fun x => m_elementOrderingLogical x = true))
              (for_range_with (length (m_elements m1)) 0 ""
                              readAdcircElements_logical))
      by (frame; assumption).
    exact (Hpres (m1, f) r1 (m2, f2) Hloop Hflag). }
  destruct r1 as [line | msg |].
  - rewrite bind_unfold. simpl. rewrite Hflag2. simpl.
    intros [= <- <-]. exact Hflag2.
  - intros [= <- <-]. exact Hflag2.
  - intros [= <- <-]. exact Hflag2.
Qed.

(** *** Lookup by identifier, branch by branch *)

Lemma nodeById_sequential_not_found (m : Mesh) (id : N) :
  m_nodeOrderingLogical m = true ->
  id = 0 \/ numNodes m < id ->
  exists msg, nodeById id m = (Throw msg, m).
Proof.
  intros Hflag Hid. unfold nodeById.
  rewrite bind_unfold. unfold gets at 1. rewrite Hflag.
  rewrite bind_unfold. unfold gets at 1.
  replace (bool_decide (0 < id) && bool_decide (id <= numNodes m))
    with false.
  - eexists. reflexivity.
  - symmetry. apply andb_false_iff.
    destruct Hid as [-> | Hgt];
      [left | right]; apply bool_decide_eq_false_2; lia.
Qed.

Lemma elementById_sequential_not_found (m : Mesh) (id : N) :
  m_elementOrderingLogical m = true ->
  id = 0 \/ numElements m < id ->
  exists msg, elementById id m = (Throw msg, m).
Proof.
  intros Hflag Hid. unfold elementById.
  rewrite bind_unfold. unfold gets at 1. rewrite Hflag.
  rewrite bind_unfold. unfold gets at 1.
  replace (bool_decide (0 < id) && bool_decide (id <= numElements m))
    with false.
  - eexists. reflexivity.
  - symmetry. apply andb_false_iff.
    destruct Hid as [-> | Hgt];
      [left | right]; apply bool_decide_eq_false_2; lia.
Qed.

(** Through the lookup table no identifier is ever reported missing: an
    absent one is inserted with position 0, which is returned. *)
Lemma nodeById_indexed_absent (m : Mesh) (id : N) :
  m_nodeOrderingLogical m = false ->
  m_nodeLookup m !! id = None ->
  nodeById id m = (Ok 0, set_m_nodeLookup (<[id := 0]> (m_nodeLookup m)) m).
Proof.
  intros Hflag Hid. unfold nodeById.
  rewrite bind_unfold. unfold gets. rewrite Hflag.
  unfold nodeLookup_subscript, map_subscript. rewrite Hid. reflexivity.
Qed.

Lemma elementById_indexed_absent (m : Mesh) (id : N) :
  m_elementOrderingLogical m = false ->
  m_elementLookup m !! id = None ->
  elementById id m
  = (Ok 0, set_m_elementLookup (<[id := 0]> (m_elementLookup m)) m).
Proof.
  intros Hflag Hid. unfold elementById.
  rewrite bind_unfold. unfold gets. rewrite Hflag.
  unfold elementLookup_subscript, map_subscript. rewrite Hid. reflexivity.
Qed.

Lemma nodeIndexById_sequential (m : Mesh) (id : N) :
  m_nodeOrderingLogical m = true ->
  nodeIndexById id m = (Ok (size_sub id 1), m).
Proof.
  intros Hflag. unfold nodeIndexById.
  rewrite bind_unfold. unfold gets. rewrite Hflag. reflexivity.
Qed.

Lemma elementIndexById_sequential (m : Mesh) (id : N) :
  m_elementOrderingLogical m = true ->
  elementIndexById id m = (Ok id, m).
Proof.
  intros Hflag. unfold elementIndexById.
  rewrite bind_unfold. unfold gets. rewrite Hflag. reflexivity.
Qed.

(** *** Sufficient conditions for a well-formed mesh *)

Lemma NoDup_identifiers_unique (m : Mesh) :
  NoDup (Node_id <$> m_nodes m) -> identifiers_unique m.
Proof.
  intros Hnd p q np nq Hp Hq Hid. unfold node_at in Hp, Hq.
  apply N2Nat.inj.
  apply (NoDup_lookup _ _ _ (Node_id np) Hnd);
    rewrite list_lookup_fmap.
  - rewrite Hp. reflexivity.
  - rewrite Hq, Hid. reflexivity.
Qed.

Lemma Forall_vertices_valid (m : Mesh) :
  Forall (fun e => Forall (fun p => (N.to_nat p < length (m_nodes m))%nat)
                          (Element_nodes e)) (m_elements m) ->
  vertices_valid m.
Proof.
  intros Hall e p He Hp. rewrite Forall_forall in Hall.
  specialize (Hall e He). rewrite Forall_forall in Hall.
  apply lookup_lt_is_Some_2, Hall, Hp.
Qed.

(** ** Failures of [read] before the mesh is wiped *)

(** X1. [read()] tests the file name, then the presence of the file,
    before it wipes anything: with an empty file name it throws
    "No filename has been specified.", with the name of a file that does
    not exist it throws "File does not exist.", and in both cases the mesh
    keeps everything it held. *)
Theorem read_without_file_keeps_mesh (disk : gmap string File)
    (format : MeshFormat) (m : Mesh) :
  m_filename m = "" \/ disk !! m_filename m = None ->
  read disk format m
  = (Throw (if bool_decide (m_filename m = "")
            then "No filename has been specified."
            else "File does not exist."), m).
Proof.
  intros Hcase. unfold read.
  rewrite bind_unfold. unfold gets at 1.
  rewrite bind_unfold.
  case_bool_decide as Hname; simpl.
  - reflexivity.
  - destruct Hcase as [? | Hnone]; [contradiction |].
    rewrite bind_unfold. unfold IO_fileExists.
    rewrite bool_decide_eq_false_2; [reflexivity |].
    rewrite Hnone. intros [? ?]; discriminate.
Qed.

(** ** The kd-trees *)

Lemma vector_at_Ok {S A} (v : list A) (i : nat) (a : A) (s : S) :
  v !! i = Some a -> vector_at v i s = (Ok a, s).
Proof. intros Hv. unfold vector_at. rewrite Hv. reflexivity. Qed.

Lemma centroid_sums (m : Mesh) (ps : list NodePtr) (acc : double * double) :
  (forall p, p ∈ ps -> is_Some (node_at m p)) ->
  exists sums,
    for_each_with ps acc
      (fun p '(tempX, tempY) =>
         nd ← node_deref p;
         mret (double_add tempX (Node_x nd), double_add tempY (Node_y nd))) m
    = (Ok sums, m).
Proof.
  revert acc. induction ps as [| p ps IH]; intros acc Hvalid; simpl.
  - exists acc. reflexivity.
  - destruct (Hvalid p) as [nd Hnd]; [left |]. unfold node_at in Hnd.
    destruct acc as [tempX tempY].
    rewrite bind_unfold. unfold node_deref at 1.
    rewrite !bind_unfold. unfold gets at 1.
    rewrite (vector_at_Ok _ _ nd) by exact Hnd. simpl.
    apply IH. intros q Hq. apply Hvalid. right. exact Hq.
Qed.

Lemma centroids_loop (m : Mesh) (es : list Element)
    (xy : list double * list double) :
  (forall e p, e ∈ es -> p ∈ Element_nodes e -> is_Some (node_at m p)) ->
  exists xs ys,
    for_each_with es xy buildElementalSearchTree_element m
    = (Ok (xy.1 ++ xs, xy.2 ++ ys), m)
    /\ length xs = length es /\ length ys = length es.
Proof.
  revert xy. induction es as [| e es IH]; intros xy Hvalid; simpl.
  - exists [], []. rewrite !app_nil_r. destruct xy. auto.
  - destruct (centroid_sums m (Element_nodes e) (double_zero, double_zero))
      as [[sx sy] Hsum].
    { intros p Hp. apply (Hvalid e); [left | exact Hp]. }
    rewrite bind_unfold. unfold buildElementalSearchTree_element at 1.
    rewrite bind_unfold, Hsum. simpl.
    destruct (IH (xy.1 ++ [double_div_int sx (Element_n e)],
                  xy.2 ++ [double_div_int sy (Element_n e)]))
      as (xs & ys & Hrun & Hx & Hy).
    { intros e' p He'. apply Hvalid. right. exact He'. }
    exists (double_div_int sx (Element_n e) :: xs),
           (double_div_int sy (Element_n e) :: ys).
    rewrite Hrun. simpl. rewrite <- !app_assoc. simpl.
    rewrite Hx, Hy. auto.
Qed.

(** X2. On a mesh whose elements point at stored nodes,
    [buildElementalSearchTree()] builds a new tree from exactly one point
    per stored element, whatever tree was held before, and installs it; a
    build error is thrown after the tree has been installed, and nothing
    else of the mesh changes. *)
Theorem buildElementalSearchTree_installs_tree (m : Mesh) :
  vertices_valid m ->
  exists xs ys,
    length xs = length (m_elements m) /\
    length ys = length (m_elements m) /\
    buildElementalSearchTree m
    = ((if bool_decide ((QKdtree2_build xs ys QKdtree2_new).2
                        ≠ QKdtree2_NoError)
        then Throw "Mesh: KDTree2 library error" else Ok tt),
       set_m_elementalSearchTree
         (Some (QKdtree2_build xs ys QKdtree2_new).1) m).
Proof.
  intros Hvalid.
  destruct (centroids_loop m (m_elements m) ([], [])) as (xs & ys & Hrun & Hx & Hy).
  { intros e p He Hp. apply (Hvalid e p He Hp). }
  exists xs, ys. split; [exact Hx |]. split; [exact Hy |].
  unfold buildElementalSearchTree.
  rewrite bind_unfold. unfold gets at 1.
  rewrite bind_unfold, Hrun. simpl.
  rewrite bind_unfold. unfold gets at 1.
  destruct (QKdtree2_build xs ys QKdtree2_new) as [t ierr] eqn:Hbuild.
  simpl.
  destruct (m_elementalSearchTree m) as [old |];
    [destruct (QKdtree2_isInitialized old) |];
    rewrite bind_unfold; simpl; rewrite bind_unfold; simpl;
    case_bool_decide; reflexivity.
Qed.

(** X3. [deleteElementalSearchTree()] resets the pointer of an initialised
    tree to null and does not allocate a new one: every later
    [findElement] or [deleteElementalSearchTree] dereferences the null
    pointer, until [buildElementalSearchTree()] is called again. *)
Theorem findElement_after_delete_undefined (m : Mesh) (tree : QKdtree2)
    (location : Point) :
  m_elementalSearchTree m = Some tree ->
  QKdtree2_isInitialized tree = true ->
  let m' := set_m_elementalSearchTree None m in
  deleteElementalSearchTree m = (Ok tt, m') /\
  findElement location m' = (Undefined, m') /\
  deleteElementalSearchTree m' = (Undefined, m').
Proof.
  intros Htree Hinit m'. split; [| split].
  - unfold deleteElementalSearchTree, elementalSearchTreeInitialized.
    rewrite !bind_unfold. unfold gets at 1. rewrite Htree. simpl.
    rewrite Hinit. reflexivity.
  - apply findElement_null_tree. reflexivity.
  - unfold deleteElementalSearchTree, elementalSearchTreeInitialized.
    rewrite !bind_unfold. reflexivity.
Qed.

(** Neither tree exists after [read()] has got as far as wiping the
    mesh. *)
Lemma read_adcirc_trees_null (disk : gmap string File) (format : MeshFormat)
    (m m' : Mesh) (r : result unit) :
  m_filename m <> "" ->
  is_Some (disk !! m_filename m) ->
  selects_adcirc format (m_filename m) ->
  read disk format m = (r, m') ->
  m_nodalSearchTree m' = None /\ m_elementalSearchTree m' = None.
Proof.
  intros Hname Hfile Hformat. rewrite read_adcirc_unfold by assumption.
  destruct (readAdcircMesh_sections _) as [r1 [m1 f1]] eqn:Hrun.
  intros [= <- <-].
  assert (Hpres : preserves
            (of_mesh (fun x => m_nodalSearchTree x = None
                               /\ m_elementalSearchTree x = None))
            readAdcircMesh_sections)
    by (unfold readAdcircMesh_sections; frame; assumption).
  apply (Hpres _ _ _ Hrun). unfold of_mesh, _init. simpl. auto.
Qed.

Section QueriesAfterRead.
Context `{!NearestSearch}.

(** X4. [read()] leaves both kd-tree pointers null and no reader builds a
    tree: on the mesh left by a native-ASCII read, whatever its outcome,
    [findElement], [findNearestElement] and [findNearestNode] dereference
    the null pointer instead of building the tree they need. *)
Theorem point_queries_after_read_undefined (disk : gmap string File)
    (format : MeshFormat) (m m' : Mesh) (r : result unit)
    (location : Point) :
  m_filename m <> "" ->
  is_Some (disk !! m_filename m) ->
  selects_adcirc format (m_filename m) ->
  read disk format m = (r, m') ->
  findElement location m' = (Undefined, m') /\
  findNearestElement location m' = (Undefined, m') /\
  findNearestNode location m' = (Undefined, m').
Proof.
  intros Hname Hfile Hformat Hread.
  destruct (read_adcirc_trees_null _ _ _ _ _ Hname Hfile Hformat Hread)
    as [Hnodal Helemental].
  split; [| split].
  - apply findElement_null_tree, Helemental.
  - unfold findNearestElement, elementalSearchTreeInitialized.
    rewrite !bind_unfold. unfold gets at 1. rewrite Helemental. reflexivity.
  - unfold findNearestNode, nodalSearchTreeInitialized.
    rewrite !bind_unfold. unfold gets at 1. rewrite Hnodal. reflexivity.
Qed.

End QueriesAfterRead.

(** ** Editing the vectors *)

Lemma resize_to_count {A} (x : A) (l : list A) (k : N) :
  k = N.of_nat (length l) -> resize (N.to_nat k) x l = l.
Proof. intros ->. rewrite Nat2N.id. apply resize_all. Qed.

Lemma count_of_resize {A} (x : A) (l : list A) (k : N) :
  k = N.of_nat (length (resize (N.to_nat k) x l)).
Proof. rewrite length_resize, N2Nat.id. reflexivity. Qed.

(** X5. On a mesh whose counts are the sizes of its vectors,
    [resizeMesh(n, e, o, l)] resizes each of the four vectors to the size
    asked for, keeping the records below the new size and filling new
    positions with default-constructed records, and stores the four
    counts; it touches neither the ordering flags nor the identifier
    tables. *)
Theorem resizeMesh_counts_and_storage (m : Mesh) (nn ne nob nlb : N) :
  counts_match_storage m ->
  let m' := resizeMesh nn ne nob nlb m in
  m_nodes m' = resize (N.to_nat nn) Node_default (m_nodes m) /\
  m_elements m' = resize (N.to_nat ne) Element_default (m_elements m) /\
  m_openBoundaries m'
  = resize (N.to_nat nob) Boundary_default (m_openBoundaries m) /\
  m_landBoundaries m'
  = resize (N.to_nat nlb) Boundary_default (m_landBoundaries m) /\
  (numNodes m' = nn /\ numElements m' = ne /\
   numOpenBoundaries m' = nob /\ numLandBoundaries m' = nlb) /\
  counts_match_storage m' /\
  (nodeOrderingIsLogical m' = nodeOrderingIsLogical m /\
   elementOrderingIsLogical m' = elementOrderingIsLogical m /\
   m_nodeLookup m' = m_nodeLookup m /\
   m_elementLookup m' = m_elementLookup m).
Proof.
  intros (Hn & He & Ho & Hl) m'.
  assert (Hfields :
    m_nodes m' = resize (N.to_nat nn) Node_default (m_nodes m) /\
    m_elements m' = resize (N.to_nat ne) Element_default (m_elements m) /\
    m_openBoundaries m'
    = resize (N.to_nat nob) Boundary_default (m_openBoundaries m) /\
    m_landBoundaries m'
    = resize (N.to_nat nlb) Boundary_default (m_landBoundaries m) /\
    (numNodes m' = nn /\ numElements m' = ne /\
     numOpenBoundaries m' = nob /\ numLandBoundaries m' = nlb) /\
    (nodeOrderingIsLogical m' = nodeOrderingIsLogical m /\
     elementOrderingIsLogical m' = elementOrderingIsLogical m /\
     m_nodeLookup m' = m_nodeLookup m /\
     m_elementLookup m' = m_elementLookup m)).
  { subst m'. unfold resizeMesh.
    destruct (decide (nn = numNodes m)) as [-> | Hnn];
      [rewrite (bool_decide_eq_false_2 (numNodes m ≠ numNodes m)) by tauto
      | rewrite (bool_decide_eq_true_2 (nn ≠ numNodes m)) by exact Hnn];
      cbn [numElements setNumNodes set_m_numNodes set_m_nodes m_numElements];
      (destruct (decide (ne = numElements m)) as [-> | Hne];
       [rewrite (bool_decide_eq_false_2 (numElements m ≠ numElements m))
          by tauto
       | rewrite (bool_decide_eq_true_2 (ne ≠ numElements m)) by exact Hne]);
      cbn [numOpenBoundaries setNumElements set_m_numElements set_m_elements
           m_numOpenBoundaries];
      (destruct (decide (nob = numOpenBoundaries m)) as [-> | Hnob];
       [rewrite (bool_decide_eq_false_2
                   (numOpenBoundaries m ≠ numOpenBoundaries m)) by tauto
       | rewrite (bool_decide_eq_true_2 (nob ≠ numOpenBoundaries m))
           by exact Hnob]);
      cbn [numLandBoundaries setNumOpenBoundaries set_m_numOpenBoundaries
           set_m_openBoundaries m_numLandBoundaries];
      (destruct (decide (nlb = numLandBoundaries m)) as [-> | Hnlb];
       [rewrite (bool_decide_eq_false_2
                   (numLandBoundaries m ≠ numLandBoundaries m)) by tauto
       | rewrite (bool_decide_eq_true_2 (nlb ≠ numLandBoundaries m))
           by exact Hnlb]);
      simpl;
      rewrite ?(resize_to_count Node_default _ _ Hn),
              ?(resize_to_count Element_default _ _ He),
              ?(resize_to_count Boundary_default _ _ Ho),
              ?(resize_to_count Boundary_default _ _ Hl);
      repeat split. }
  destruct Hfields as (Fn & Fe & Fo & Fl & (Cn & Ce & Co & Cl) & Hrest).
  repeat split; try tauto.
  - rewrite Cn, Fn. apply count_of_resize.
  - rewrite Ce, Fe. apply count_of_resize.
  - rewrite Co, Fo. apply count_of_resize.
  - rewrite Cl, Fl. apply count_of_resize.
Qed.

(** X6. [addNode(index, node)] and [addElement(index, element)] do not add
    a record: below the stored count they overwrite the record held at
    [index] and leave every other record and the count as they were; at or
    above the count they throw and leave the mesh untouched. *)
Theorem addNode_addElement_overwrite (m : Mesh) (index : N) (nd : Node)
    (e : Element) :
  counts_match_storage m ->
  (index < numNodes m ->
     exists m', addNode index nd m = (Ok tt, m') /\
       node_at m' index = Some nd /\
       (forall j, j <> index -> node_at m' j = node_at m j) /\
       m_elements m' = m_elements m /\
       counts_match_storage m' /\ numNodes m' = numNodes m) /\
  (numNodes m <= index ->
     addNode index nd m = (Throw "Mesh: Node index > number of nodes", m)) /\
  (index < numElements m ->
     exists m', addElement index e m = (Ok tt, m') /\
       element_at m' index = Some e /\
       (forall j, j <> index -> element_at m' j = element_at m j) /\
       m_nodes m' = m_nodes m /\
       counts_match_storage m' /\ numElements m' = numElements m) /\
  (numElements m <= index ->
     addElement index e m
     = (Throw "Mesh: Element index > number of nodes", m)).
Proof.
  intros (Hn & He & Ho & Hl). split; [| split; [| split]].
  - intros Hi.
    assert (Hlt : (N.to_nat index < length (m_nodes m))%nat) by lia.
    destruct (lookup_lt_is_Some_2 _ _ Hlt) as [old Hold].
    exists (store_node index nd m). split; [| split; [| split; [| split]]].
    + unfold addNode. rewrite bind_unfold. unfold gets at 1.
      rewrite bool_decide_eq_true_2 by exact Hi.
      rewrite bind_unfold. unfold gets at 1.
      rewrite bind_unfold, (vector_at_Ok _ _ old) by exact Hold.
      reflexivity.
    + unfold node_at, store_node. simpl.
      apply list_lookup_insert_eq. exact Hlt.
    + intros j Hj. unfold node_at, store_node. simpl.
      apply list_lookup_insert_ne. lia.
    + reflexivity.
    + unfold counts_match_storage, store_node, numNodes. simpl.
      rewrite length_insert. auto.
  - intros Hge. unfold addNode. rewrite bind_unfold. unfold gets at 1.
    rewrite bool_decide_eq_false_2 by lia. reflexivity.
  - intros Hi.
    assert (Hlt : (N.to_nat index < length (m_elements m))%nat) by lia.
    destruct (lookup_lt_is_Some_2 _ _ Hlt) as [old Hold].
    exists (set_m_elements (<[N.to_nat index := e]> (m_elements m)) m).
    split; [| split; [| split; [| split]]].
    + unfold addElement. rewrite bind_unfold. unfold gets at 1.
      rewrite bool_decide_eq_true_2 by exact Hi.
      rewrite bind_unfold. unfold gets at 1.
      rewrite bind_unfold, (vector_at_Ok _ _ old) by exact Hold.
      reflexivity.
    + unfold element_at. simpl. apply list_lookup_insert_eq. exact Hlt.
    + intros j Hj. unfold element_at. simpl.
      apply list_lookup_insert_ne. lia.
    + reflexivity.
    + unfold counts_match_storage, numElements. simpl.
      rewrite length_insert. auto.
  - intros Hge. unfold addElement. rewrite bind_unfold. unfold gets at 1.
    rewrite bool_decide_eq_false_2 by lia. reflexivity.
Qed.

Lemma deleteNode_Ok (m : Mesh) (index : N) :
  index < numNodes m ->
  (N.to_nat index < length (m_nodes m))%nat ->
  deleteNode index m
  = (Ok tt,
     setNumNodes (N.of_nat (length (delete (N.to_nat index) (m_nodes m))))
       (set_m_nodes (delete (N.to_nat index) (m_nodes m)) m)).
Proof.
  intros Hi Hlt. destruct (lookup_lt_is_Some_2 _ _ Hlt) as [old Hold].
  unfold deleteNode. rewrite bind_unfold. unfold gets at 1.
  rewrite bool_decide_eq_true_2 by exact Hi.
  rewrite bind_unfold. unfold gets at 1.
  rewrite bind_unfold, (vector_at_Ok _ _ old) by exact Hold.
  reflexivity.
Qed.

Lemma deleteElement_Ok (m : Mesh) (index : N) :
  index < numElements m ->
  (N.to_nat index < length (m_elements m))%nat ->
  deleteElement index m
  = (Ok tt,
     setNumElements
       (N.of_nat (length (delete (N.to_nat index) (m_elements m))))
       (set_m_elements (delete (N.to_nat index) (m_elements m)) m)).
Proof.
  intros Hi Hlt. destruct (lookup_lt_is_Some_2 _ _ Hlt) as [old Hold].
  unfold deleteElement. rewrite bind_unfold. unfold gets at 1.
  rewrite bool_decide_eq_true_2 by exact Hi.
  rewrite bind_unfold. unfold gets at 1.
  rewrite bind_unfold, (vector_at_Ok _ _ old) by exact Hold.
  reflexivity.
Qed.

(** X7. Below the stored count, [deleteNode(index)] and
    [deleteElement(index)] erase the record at [index], move every later
    record one position forward and store the new size of the vector as
    the count; at or above the count they throw and leave the mesh
    untouched. *)
Theorem deleteNode_deleteElement_shift (m : Mesh) (index : N) :
  counts_match_storage m ->
  (index < numNodes m ->
     exists m', deleteNode index m = (Ok tt, m') /\
       numNodes m' + 1 = numNodes m /\
       (forall j, j < index -> node_at m' j = node_at m j) /\
       (forall j, index <= j -> node_at m' j = node_at m (j + 1)) /\
       m_elements m' = m_elements m /\
       counts_match_storage m') /\
  (numNodes m <= index ->
     deleteNode index m = (Throw "Mesh: Node index > number of nodes", m)) /\
  (index < numElements m ->
     exists m', deleteElement index m = (Ok tt, m') /\
       numElements m' + 1 = numElements m /\
       (forall j, j < index -> element_at m' j = element_at m j) /\
       (forall j, index <= j -> element_at m' j = element_at m (j + 1)) /\
       m_nodes m' = m_nodes m /\
       counts_match_storage m') /\
  (numElements m <= index ->
     deleteElement index m
     = (Throw "Mesh: Element index > number of nodes", m)).
Proof.
  intros (Hn & He & Ho & Hl). split; [| split; [| split]].
  - intros Hi.
    assert (Hlt : (N.to_nat index < length (m_nodes m))%nat) by lia.
    pose proof (length_delete (m_nodes m) (N.to_nat index)
                  (lookup_lt_is_Some_2 _ _ Hlt)) as Hlen.
    eexists. split; [apply deleteNode_Ok; assumption |].
    split; [| split; [| split; [| split]]].
    + unfold numNodes, setNumNodes in *. simpl. lia.
    + intros j Hj. unfold node_at. simpl.
      apply list_lookup_delete_lt. lia.
    + intros j Hj. unfold node_at. simpl.
      rewrite list_lookup_delete_ge by lia. f_equal. lia.
    + reflexivity.
    + unfold counts_match_storage, numNodes, setNumNodes. simpl. auto.
  - intros Hge. unfold deleteNode. rewrite bind_unfold. unfold gets at 1.
    rewrite bool_decide_eq_false_2 by lia. reflexivity.
  - intros Hi.
    assert (Hlt : (N.to_nat index < length (m_elements m))%nat) by lia.
    pose proof (length_delete (m_elements m) (N.to_nat index)
                  (lookup_lt_is_Some_2 _ _ Hlt)) as Hlen.
    eexists. split; [apply deleteElement_Ok; assumption |].
    split; [| split; [| split; [| split]]].
    + unfold numElements, setNumElements in *. simpl. lia.
    + intros j Hj. unfold element_at. simpl.
      apply list_lookup_delete_lt. lia.
    + intros j Hj. unfold element_at. simpl.
      rewrite list_lookup_delete_ge by lia. f_equal. lia.
    + reflexivity.
    + unfold counts_match_storage, numElements, setNumElements. simpl. auto.
  - intros Hge. unfold deleteElement. rewrite bind_unfold. unfold gets at 1.
    rewrite bool_decide_eq_false_2 by lia. reflexivity.
Qed.

(** X8. [deleteNode] updates neither the ordering flag nor the identifier
    table.  After a node other than the last is erased from a mesh whose
    identifiers are sequential, the flag still says sequential, and
    [nodeById(index + 1)] answers with the node that moved into the freed
    position, whose identifier is [index + 2]. *)
Theorem deleteNode_keeps_sequential_flag (m : Mesh) (index : N) :
  counts_match_storage m ->
  numNodes m < SIZE_MODULUS ->
  nodeOrderingIsLogical m = true ->
  ids_sequential (Node_id <$> m_nodes m) ->
  index + 1 < numNodes m ->
  exists m' nd,
    deleteNode index m = (Ok tt, m') /\
    nodeOrderingIsLogical m' = true /\
    nodeById (index + 1) m' = (Ok index, m') /\
    node_at m' index = Some nd /\
    Node_id nd = index + 2.
Proof.
  intros (Hn & _) Hsize Hflag Hseq Hi.
  assert (Hlt : (N.to_nat index < length (m_nodes m))%nat) by lia.
  pose proof (length_delete (m_nodes m) (N.to_nat index)
                (lookup_lt_is_Some_2 _ _ Hlt)) as Hlen.
  assert (Hnext : (S (N.to_nat index) < length (m_nodes m))%nat) by lia.
  destruct (lookup_lt_is_Some_2 _ _ Hnext) as [nd Hnd].
  eexists _, nd. split; [apply deleteNode_Ok; [lia | exact Hlt] |].
  split; [exact Hflag |]. split; [| split].
  - unfold nodeById. rewrite bind_unfold. unfold gets at 1.
    unfold nodeOrderingIsLogical in Hflag.
    cbn [m_nodeOrderingLogical setNumNodes set_m_numNodes set_m_nodes].
    rewrite Hflag. rewrite bind_unfold. unfold gets at 1.
    rewrite bool_decide_eq_true_2 by lia.
    rewrite bool_decide_eq_true_2
      by (unfold numNodes, setNumNodes in *; simpl; lia).
    simpl. unfold mret, M_ret. do 2 f_equal.
    apply size_sub_1_eq; lia.
  - unfold node_at. simpl. rewrite list_lookup_delete_ge by lia. exact Hnd.
  - specialize (Hseq (S (N.to_nat index)) (Node_id nd)).
    rewrite list_lookup_fmap, Hnd in Hseq. specialize (Hseq eq_refl). lia.
Qed.

(** ** Derived tables *)

Lemma getMaxNodesPerElement_fold (es : list Element) (a : N) :
  let r := foldl (fun n e =>
                    if bool_decide (n < size_of_int (Element_n e))
                    then size_of_int (Element_n e) else n) a es in
  a <= r /\
  (forall e, e ∈ es -> size_of_int (Element_n e) <= r) /\
  (r = a \/ exists e, e ∈ es /\ r = size_of_int (Element_n e)).
Proof.
  revert a. induction es as [| e es IH]; intros a; simpl.
  - split; [lia |]. split; [| left; reflexivity].
    intros e He. apply elem_of_nil in He. contradiction.
  - set (a' := if bool_decide (a < size_of_int (Element_n e))
               then size_of_int (Element_n e) else a).
    destruct (IH a') as (Hle & Hall & Hex).
    assert (Ha' : a <= a' /\ size_of_int (Element_n e) <= a'
                  /\ (a' = a \/ a' = size_of_int (Element_n e)))
      by (unfold a'; case_bool_decide; lia).
    split; [lia |]. split.
    + intros e' He'. apply elem_of_cons in He' as [-> | He'];
        [lia | apply Hall, He'].
    + destruct Hex as [Hr | (e' & He' & Hr)].
      * destruct Ha' as (_ & _ & [Ha' | Ha']).
        -- left. congruence.
        -- right. exists e. split; [left | congruence].
      * right. exists e'. split; [right; exact He' | exact Hr].
Qed.

Lemma size_of_int_Element_n (e : Element) :
  (Element_n e < Z.of_N SIZE_MODULUS)%Z ->
  size_of_int (Element_n e) = N.of_nat (length (Element_nodes e)).
Proof.
  unfold size_of_int, Element_n. intros Hsmall.
  rewrite Z.mod_small by lia. lia.
Qed.

(** X9. [getMaxNodesPerElement()] is the largest vertex count among the
    stored elements: no element has more vertices, some element has
    exactly that many, and the value is 0 for a mesh without elements. *)
Theorem getMaxNodesPerElement_maximum (m : Mesh) :
  Forall (fun e => (Element_n e < Z.of_N SIZE_MODULUS)%Z) (m_elements m) ->
  (forall e, e ∈ m_elements m ->
     N.of_nat (length (Element_nodes e)) <= getMaxNodesPerElement m) /\
  (m_elements m = [] -> getMaxNodesPerElement m = 0) /\
  (m_elements m <> [] ->
     exists e, e ∈ m_elements m /\
       getMaxNodesPerElement m = N.of_nat (length (Element_nodes e))).
Proof.
  intros Hsmall. rewrite Forall_forall in Hsmall.
  destruct (getMaxNodesPerElement_fold (m_elements m) 0)
    as (_ & Hall & Hex).
  fold (getMaxNodesPerElement m) in Hall, Hex.
  split; [| split].
  - intros e He. rewrite <- size_of_int_Element_n by (apply Hsmall, He).
    apply Hall, He.
  - intros Hnil. unfold getMaxNodesPerElement. rewrite Hnil. reflexivity.
  - intros Hne. destruct Hex as [Hzero | (e & He & Hr)].
    + destruct (m_elements m) as [| e es] eqn:Hes; [contradiction |].
      exists e. split; [left |].
      assert (He : e ∈ e :: es) by left.
      specialize (Hall e He).
      rewrite size_of_int_Element_n in Hall by (apply Hsmall, He). lia.
    + exists e. split; [exact He |].
      rewrite Hr. apply size_of_int_Element_n, Hsmall, He.
Qed.

Lemma connectivity_row_eval (m : Mesh) (ps : list NodePtr) :
  (forall p, p ∈ ps -> is_Some (node_at m p)) ->
  exists row,
    map_M (fun p => nd ← node_deref p; mret (Node_id nd)) ps m
    = (Ok row, m)
    /\ Forall2 (fun p id => exists nd, node_at m p = Some nd
                                       /\ Node_id nd = id) ps row.
Proof.
  induction ps as [| p ps IH]; intros Hvalid; simpl.
  - exists []. split; [reflexivity | constructor].
  - destruct (Hvalid p) as [nd Hnd]; [left |].
    destruct IH as (row & Hrun & Hrow).
    { intros q Hq. apply Hvalid. right. exact Hq. }
    exists (Node_id nd :: row). split.
    + rewrite bind_unfold. unfold node_deref at 1.
      rewrite !bind_unfold. unfold gets at 1.
      unfold node_at in Hnd. rewrite (vector_at_Ok _ _ nd) by exact Hnd.
      simpl. rewrite bind_unfold, Hrun. reflexivity.
    + constructor; [| exact Hrow]. exists nd. auto.
Qed.

Lemma connectivity_loop (m : Mesh) (es : list Element)
    (conn : list (list N)) :
  (forall e p, e ∈ es -> p ∈ Element_nodes e -> is_Some (node_at m p)) ->
  exists rows,
    for_each_with es conn (fun e conn =>
      v ← connectivity_row e; mret (conn ++ [v])) m
    = (Ok (conn ++ rows), m)
    /\ Forall2 (fun e row =>
                  Forall2 (fun p id => exists nd, node_at m p = Some nd
                                                  /\ Node_id nd = id)
                          (Element_nodes e) row) es rows.
Proof.
  revert conn. induction es as [| e es IH]; intros conn Hvalid; simpl.
  - exists []. rewrite app_nil_r. split; [reflexivity | constructor].
  - destruct (connectivity_row_eval m (Element_nodes e)) as (row & Hrow & Hids).
    { intros p Hp. apply (Hvalid e); [left | exact Hp]. }
    destruct (IH (conn ++ [row])) as (rows & Hrun & Hrows).
    { intros e' p He'. apply Hvalid. right. exact He'. }
    exists (row :: rows). split.
    + rewrite bind_unfold. unfold connectivity_row at 1.
      rewrite bind_unfold, Hrow. simpl.
      rewrite Hrun, <- app_assoc. reflexivity.
    + constructor; assumption.
Qed.

(** X10. On a mesh whose elements point at stored nodes, [connectivity()]
    returns one row per stored element, in storage order, and the row of an
    element lists the identifiers of its vertices in the order the element
    holds them; the mesh is left as it was. *)
Theorem connectivity_lists_vertex_identifiers (m : Mesh) :
  vertices_valid m ->
  exists rows,
    connectivity m = (Ok rows, m) /\
    Forall2 (fun e row =>
               Forall2 (fun p id => exists nd, node_at m p = Some nd
                                               /\ Node_id nd = id)
                       (Element_nodes e) row)
            (m_elements m) rows.
Proof.
  intros Hvalid.
  destruct (connectivity_loop m (m_elements m) []) as (rows & Hrun & Hrows).
  { intros e p He Hp. apply (Hvalid e p He Hp). }
  exists rows. split; [| exact Hrows].
  unfold connectivity. rewrite bind_unfold. unfold gets at 1. exact Hrun.
Qed.

(** ** Positions by identifier through the tables *)

(** X11. With both orderings not sequential, [nodeIndexById(id)] and
    [elementIndexById(id)] return the position the table holds for [id]
    and leave the mesh as it was; for an identifier the table does not
    hold they return position 0 and record [id] in the table with that
    position, so that the same query then finds it. *)
Theorem indexById_through_tables (m : Mesh) (id : N) :
  nodeOrderingIsLogical m = false ->
  elementOrderingIsLogical m = false ->
  (forall p, m_nodeLookup m !! id = Some p ->
     nodeIndexById id m = (Ok p, m)) /\
  (m_nodeLookup m !! id = None ->
     let m' := set_m_nodeLookup (<[id := 0]> (m_nodeLookup m)) m in
     nodeIndexById id m = (Ok 0, m') /\
     m_nodeLookup m' !! id = Some 0 /\
     nodeIndexById id m' = (Ok 0, m')) /\
  (forall p, m_elementLookup m !! id = Some p ->
     elementIndexById id m = (Ok p, m)) /\
  (m_elementLookup m !! id = None ->
     let m' := set_m_elementLookup (<[id := 0]> (m_elementLookup m)) m in
     elementIndexById id m = (Ok 0, m') /\
     m_elementLookup m' !! id = Some 0 /\
     elementIndexById id m' = (Ok 0, m')).
Proof.
  unfold nodeOrderingIsLogical, elementOrderingIsLogical.
  intros Hnodes Helements.
  assert (Hn : forall x : Mesh, m_nodeOrderingLogical x = false ->
            forall p, m_nodeLookup x !! id = Some p ->
            nodeIndexById id x = (Ok p, x)).
  { intros x Hx p Hp. unfold nodeIndexById.
    rewrite bind_unfold. unfold gets. rewrite Hx.
    unfold nodeLookup_subscript, map_subscript. rewrite Hp.
    destruct x; reflexivity. }
  assert (He : forall x : Mesh, m_elementOrderingLogical x = false ->
            forall p, m_elementLookup x !! id = Some p ->
            elementIndexById id x = (Ok p, x)).
  { intros x Hx p Hp. unfold elementIndexById.
    rewrite bind_unfold. unfold gets. rewrite Hx.
    unfold elementLookup_subscript, map_subscript. rewrite Hp.
    destruct x; reflexivity. }
  split; [| split; [| split]].
  - apply Hn, Hnodes.
  - intros Hnone. split; [| split].
    + unfold nodeIndexById. rewrite bind_unfold. unfold gets. rewrite Hnodes.
      unfold nodeLookup_subscript, map_subscript. rewrite Hnone. reflexivity.
    + simpl. apply lookup_insert_eq.
    + apply Hn; [exact Hnodes |]. simpl. apply lookup_insert_eq.
  - apply He, Helements.
  - intros Hnone. split; [| split].
    + unfold elementIndexById. rewrite bind_unfold. unfold gets.
      rewrite Helements.
      unfold elementLookup_subscript, map_subscript. rewrite Hnone.
      reflexivity.
    + simpl. apply lookup_insert_eq.
    + apply He; [exact Helements |]. simpl. apply lookup_insert_eq.
Qed.

(** ** The mesh left by a successful read *)

(** *** What the later sections keep *)

Lemma after_nodes_keeps_nodes (ns : list Node) (n : N) :
  preserves (of_mesh (fun x => m_nodes x = ns /\ m_numNodes x = n))
            after_nodes.
Proof. unfold after_nodes. frame; assumption. Qed.

Lemma after_elements_keeps_elements (es : list Element) (n : N) (b : bool)
    (t : gmap N N) :
  preserves (of_mesh (fun x => m_elements x = es /\ m_numElements x = n
                               /\ m_elementOrderingLogical x = b
                               /\ m_elementLookup x = t))
            after_elements.
Proof. unfold after_elements. frame; assumption. Qed.

Lemma after_elements_keeps_nodes (ns : list Node) (n : N) (b : bool) :
  preserves (of_mesh (fun x => m_nodes x = ns /\ m_numNodes x = n
                               /\ m_nodeOrderingLogical x = b))
            after_elements.
Proof. unfold after_elements. frame; assumption. Qed.

Lemma after_open_boundaries_keeps (bs : list Boundary) (n : N) :
  preserves (of_mesh (fun x => m_openBoundaries x = bs
                               /\ m_numOpenBoundaries x = n))
            after_open_boundaries.
Proof. unfold after_open_boundaries. frame; assumption. Qed.

(** *** Sizes *)

Lemma readAdcircElements_shape (st st' : Mesh * fstream) r :
  readAdcircElements st = (r, st') ->
  length (m_elements st'.1) = N.to_nat (numElements st.1) /\
  numElements st'.1 = numElements st.1.
Proof.
  unfold readAdcircElements. rewrite bind_unfold.
  destruct st as [m f]. simpl.
  set (m1 := set_m_elements _ m).
  intros Hrun.
  assert (Hkeep : forall Q : Mesh -> Prop,
             (forall m b, Q m -> Q (set_m_elementOrderingLogical b m)) ->
             (forall m i id ptrs, Q m -> Q (store_element i id ptrs m)) ->
             (forall m t, Q m -> Q (set_m_nodeLookup t m)) ->
             (forall m id i, Q m -> Q (elementLookup_assign id i m)) ->
             Q m1 -> Q st'.1).
  { intros Q Hflag Hstore Htable Hassign HQ.
    match type of Hrun with
    | ?c _ = _ => assert (Hpres : preserves (of_mesh Q) c)
    end.
    { frame; auto. }
    exact (Hpres (m1, f) r st' Hrun HQ). }
  split.
  - apply (Hkeep (fun m' => length (m_elements m')
                            = N.to_nat (numElements m))).
    + intros; assumption.
    + intros m' i id ptrs Hm'. unfold store_element. simpl.
      rewrite length_alter. exact Hm'.
    + intros; assumption.
    + intros; assumption.
    + unfold m1. simpl. apply length_resize.
  - apply (Hkeep (fun m' => numElements m' = numElements m)); auto.
Qed.

Lemma readAdcircOpenBoundaries_Ok (st st' : Mesh * fstream) :
  readAdcircOpenBoundaries st = (Ok tt, st') ->
  length (m_openBoundaries st'.1) = N.to_nat (numOpenBoundaries st'.1).
Proof.
  unfold readAdcircOpenBoundaries. intros Hrun.
  apply bind_inv_Ok in Hrun as (line & s1 & _ & Hrun).
  apply bind_inv_Ok in Hrun as (first & s2 & _ & Hrun).
  destruct (StringConversion_stringToSizet first) as [num ok].
  apply bind_inv_Ok in Hrun as ([] & s3 & _ & Hrun).
  apply bind_inv_Ok in Hrun as ([] & s4 & _ & Hrun).
  apply bind_inv_Ok in Hrun as ([] & s5 & Hresize & Hrun).
  destruct s4 as [m4 f4]. simpl in Hresize. injection Hresize as <-.
  match type of Hrun with
  | ?c _ = _ =>
      assert (Hpres : preserves
                (of_mesh (fun x => length (m_openBoundaries x)
                                   = N.to_nat (numOpenBoundaries x))) c)
  end.
  { frame; unfold numOpenBoundaries in *; simpl in *;
      rewrite ?length_alter; assumption. }
  apply (Hpres _ _ _ Hrun). unfold of_mesh. simpl. apply length_resize.
Qed.

Lemma readAdcircLandBoundaries_Ok (st st' : Mesh * fstream) :
  readAdcircLandBoundaries st = (Ok tt, st') ->
  length (m_landBoundaries st'.1) = N.to_nat (numLandBoundaries st'.1).
Proof.
  unfold readAdcircLandBoundaries. intros Hrun.
  apply bind_inv_Ok in Hrun as (line & s1 & _ & Hrun).
  apply bind_inv_Ok in Hrun as (first & s2 & _ & Hrun).
  destruct (StringConversion_stringToSizet first) as [num ok].
  apply bind_inv_Ok in Hrun as ([] & s3 & _ & Hrun).
  apply bind_inv_Ok in Hrun as ([] & s4 & _ & Hrun).
  apply bind_inv_Ok in Hrun as ([] & s5 & Hresize & Hrun).
  destruct s4 as [m4 f4]. simpl in Hresize. injection Hresize as <-.
  match type of Hrun with
  | ?c _ = _ =>
      assert (Hpres : preserves
                (of_mesh (fun x => length (m_landBoundaries x)
                                   = N.to_nat (numLandBoundaries x))) c)
  end.
  { frame; unfold numLandBoundaries in *; simpl in *;
      rewrite ?length_alter; assumption. }
  apply (Hpres _ _ _ Hrun). unfold of_mesh. simpl. apply length_resize.
Qed.

(** The sections of a successful native-ASCII read, one by one. *)
Lemma read_adcirc_sections (disk : gmap string File) (format : MeshFormat)
    (m m' : Mesh) :
  m_filename m <> "" ->
  is_Some (disk !! m_filename m) ->
  selects_adcirc format (m_filename m) ->
  read disk format m = (Ok tt, m') ->
  exists st1 st2 st3 st4 st5,
    readAdcircMeshHeader (_init m, fstream_open disk (m_filename m))
      = (Ok tt, st1)
    /\ readAdcircNodes st1 = (Ok tt, st2)
    /\ readAdcircElements st2 = (Ok tt, st3)
    /\ readAdcircOpenBoundaries st3 = (Ok tt, st4)
    /\ readAdcircLandBoundaries st4 = (Ok tt, st5)
    /\ st5.1 = m'
    /\ after_nodes st2 = (Ok tt, (m', fstream_close st5.2))
    /\ after_elements st3 = (Ok tt, (m', fstream_close st5.2))
    /\ after_open_boundaries st4 = (Ok tt, (m', fstream_close st5.2)).
Proof.
  intros Hname Hfile Hformat Hread.
  destruct (read_adcirc_Ok disk format m m' Hname Hfile Hformat Hread)
    as (st1 & st2 & f' & Hheader & Hnodes & Hafter).
  pose proof Hafter as Hafter2.
  unfold after_nodes in Hafter2.
  apply bind_inv_Ok in Hafter2 as ([] & st3 & Helements & Hafter3).
  pose proof Hafter3 as Hafter4.
  apply bind_inv_Ok in Hafter4 as ([] & st4 & Hopen & Hafter5).
  pose proof Hafter5 as Hafter6.
  apply bind_inv_Ok in Hafter6 as ([] & st5 & Hland & Hclose).
  destruct st5 as [m5 f5]. simpl in Hclose. injection Hclose as <- <-.
  exists st1, st2, st3, st4, (m5, f5). simpl. auto 10.
Qed.

(** X12. After a successful native-ASCII read the four counts are the
    sizes of the four vectors: every position below a count holds a
    record. *)
Theorem read_counts_match_storage (disk : gmap string File)
    (format : MeshFormat) (m m' : Mesh) :
  m_filename m <> "" ->
  is_Some (disk !! m_filename m) ->
  selects_adcirc format (m_filename m) ->
  read disk format m = (Ok tt, m') ->
  counts_match_storage m'.
Proof.
  intros Hname Hfile Hformat Hread.
  destruct (read_adcirc_sections disk format m m' Hname Hfile Hformat Hread)
    as (st1 & st2 & st3 & st4 & st5 & _ & Hnodes & Helements & Hopen & Hland
        & Hm' & Hafter2 & Hafter3 & Hafter4).
  destruct (readAdcircNodes_shape _ _ _ Hnodes) as (Hlen2 & Hnn2 & _ & _).
  destruct (readAdcircElements_shape _ _ _ Helements) as (Hlen3 & Hne3).
  pose proof (readAdcircOpenBoundaries_Ok _ _ Hopen) as Hlen4.
  pose proof (readAdcircLandBoundaries_Ok _ _ Hland) as Hlen5.
  pose proof (after_nodes_keeps_nodes _ _ st2 _ _ Hafter2
                (conj eq_refl eq_refl)) as [Kn1 Kn2].
  pose proof (after_elements_keeps_elements _ _ _ _ st3 _ _ Hafter3
                (conj eq_refl (conj eq_refl (conj eq_refl eq_refl))))
    as (Ke1 & Ke2 & _).
  pose proof (after_open_boundaries_keeps _ _ st4 _ _ Hafter4
                (conj eq_refl eq_refl)) as [Ko1 Ko2].
  simpl in Kn1, Kn2, Ke1, Ke2, Ko1, Ko2.
  unfold counts_match_storage, numNodes, numElements, numOpenBoundaries,
    numLandBoundaries in *.
  rewrite Kn1, Kn2, Ke1, Ke2, Ko1, Ko2, <- Hm'.
  rewrite Hlen2, Hlen4, Hlen5.
  assert (Hne2 : m_numElements st2.1 = m_numElements st1.1)
    by apply (readAdcircNodes_shape _ _ _ Hnodes).
  repeat split; lia.
Qed.

(** *** The node flag and lookup by identifier *)

(** The node section of a successful read, with what the later sections
    keep of it. *)
Lemma read_adcirc_node_section (disk : gmap string File)
    (format : MeshFormat) (m m' : Mesh) :
  m_filename m <> "" ->
  is_Some (disk !! m_filename m) ->
  selects_adcirc format (m_filename m) ->
  read disk format m = (Ok tt, m') ->
  exists st1 st2,
    readAdcircNodes st1 = (Ok tt, st2)
    /\ m_nodeOrderingLogical st1.1 = true
    /\ numNodes st1.1 = numNodes m'
    /\ m_nodes st2.1 = m_nodes m'
    /\ m_nodeOrderingLogical st2.1 = m_nodeOrderingLogical m'.
Proof.
  intros Hname Hfile Hformat Hread.
  destruct (read_adcirc_sections disk format m m' Hname Hfile Hformat Hread)
    as (st1 & st2 & st3 & st4 & st5 & Hheader & Hnodes & _ & _ & _
        & _ & Hafter2 & _ & _).
  exists st1, st2. split; [exact Hnodes |].
  assert (Hpres : preserves
                    (of_mesh (fun x => m_nodeOrderingLogical x = true))
                    readAdcircMeshHeader) by (frame; assumption).
  pose proof (Hpres _ _ _ Hheader) as Hflag1.
  destruct (readAdcircNodes_shape _ _ _ Hnodes) as (_ & Hnn2 & _ & _).
  pose proof (after_nodes_keeps_nodes _ _ st2 _ _ Hafter2
                (conj eq_refl eq_refl)) as [Kn1 Kn2].
  pose proof (after_nodes_keeps_node_flag _ st2 _ _ Hafter2 eq_refl)
    as Kflag.
  unfold of_mesh in Kflag. simpl in Kn1, Kn2, Kflag.
  split; [apply Hflag1; unfold of_mesh, _init; reflexivity |].
  unfold numNodes in *. repeat split; congruence.
Qed.

(** X13. After a successful native-ASCII read the node flag says whether
    the stored node identifiers are sequential:
    [nodeOrderingIsLogical()] is true exactly when every position [i]
    of the node vector holds identifier [i + 1]. *)
Theorem read_node_flag_iff_sequential (disk : gmap string File)
    (format : MeshFormat) (m m' : Mesh) :
  m_filename m <> "" ->
  is_Some (disk !! m_filename m) ->
  selects_adcirc format (m_filename m) ->
  read disk format m = (Ok tt, m') ->
  numNodes m' < SIZE_MODULUS ->
  Forall (fun nd => Node_id nd < SIZE_MODULUS) (m_nodes m') ->
  nodeOrderingIsLogical m' = true
  <-> ids_sequential (Node_id <$> m_nodes m').
Proof.
  intros Hname Hfile Hformat Hread Hcount Hids.
  destruct (read_adcirc_node_section disk format m m'
              Hname Hfile Hformat Hread)
    as (st1 & st2 & Hnodes & Hflag1 & Hnn & Hns & Hflag2).
  unfold nodeOrderingIsLogical. rewrite <- Hflag2, <- Hns.
  apply (readAdcircNodes_flag st1 st2); try assumption.
  - rewrite Hnn. exact Hcount.
  - rewrite Hns. exact Hids.
Qed.

(** X14. After a successful native-ASCII read that found the node
    identifiers sequential, [nodeById(id)] returns, for every [id] from 1
    to the node count, the pointer to position [id - 1], where the node of
    identifier [id] is stored; for every other [id] it throws
    "Mesh: Node id <id> not found".  The mesh is left as it was. *)
Theorem nodeById_after_sequential_read (disk : gmap string File)
    (format : MeshFormat) (m m' : Mesh) (id : N) :
  m_filename m <> "" ->
  is_Some (disk !! m_filename m) ->
  selects_adcirc format (m_filename m) ->
  read disk format m = (Ok tt, m') ->
  numNodes m' < SIZE_MODULUS ->
  Forall (fun nd => Node_id nd < SIZE_MODULUS) (m_nodes m') ->
  nodeOrderingIsLogical m' = true ->
  (0 < id <= numNodes m' ->
     exists nd, nodeById id m' = (Ok (id - 1), m')
                /\ node_at m' (id - 1) = Some nd
                /\ Node_id nd = id) /\
  (id = 0 \/ numNodes m' < id ->
     nodeById id m'
     = (Throw ("Mesh: Node id " +:+ to_string id +:+ " not found"), m')).
Proof.
  intros Hname Hfile Hformat Hread Hcount Hids Hflag.
  destruct (read_adcirc_node_section disk format m m'
              Hname Hfile Hformat Hread)
    as (st1 & st2 & Hnodes & Hflag1 & Hnn & Hns & Hflag2).
  assert (Hseq : ids_sequential (Node_id <$> m_nodes m')).
  { rewrite <- Hns.
    apply (readAdcircNodes_flag st1 st2); try assumption.
    - rewrite Hnn. exact Hcount.
    - rewrite Hns. exact Hids.
    - unfold nodeOrderingIsLogical in *. congruence. }
  destruct (readAdcircNodes_shape _ _ _ Hnodes) as (Hlen & _).
  rewrite Hns, Hnn in Hlen.
  unfold nodeOrderingIsLogical in Hflag.
  split.
  - intros [Hpos Hle].
    assert (Hlt : (N.to_nat (id - 1) < length (m_nodes m'))%nat) by lia.
    destruct (lookup_lt_is_Some_2 _ _ Hlt) as [nd Hnd].
    exists nd. split; [| split].
    + unfold nodeById. rewrite bind_unfold. unfold gets at 1.
      rewrite Hflag. rewrite bind_unfold. unfold gets at 1.
      rewrite !bool_decide_eq_true_2 by lia. simpl.
      unfold mret, M_ret. do 2 f_equal.
      apply size_sub_1_eq; lia.
    + exact Hnd.
    + specialize (Hseq (N.to_nat (id - 1)) (Node_id nd)).
      rewrite list_lookup_fmap, Hnd in Hseq. specialize (Hseq eq_refl). lia.
  - intros Hout. unfold nodeById. rewrite bind_unfold. unfold gets at 1.
    rewrite Hflag. rewrite bind_unfold. unfold gets at 1.
    replace (bool_decide (0 < id) && bool_decide (id <= numNodes m'))
      with false; [reflexivity |].
    symmetry. apply andb_false_iff.
    destruct Hout as [-> | Hgt];
      [left | right]; apply bool_decide_eq_false_2; lia.
Qed.

Lemma map_subscript_keeps_keys (t : gmap N N) (id k : N) :
  is_Some (t !! k) -> is_Some ((map_subscript t id).2 !! k).
Proof.
  intros Hk. unfold map_subscript.
  destruct (t !! id) eqn:Hid; simpl; [exact Hk |].
  rewrite lookup_insert_is_Some. destruct (decide (id = k)); auto.
Qed.

(** X15. [read()] wipes the vectors but neither identifier table: every
    identifier that [m_nodeLookup] or [m_elementLookup] held before a
    native-ASCII read is still a key of the table afterwards, whatever the
    outcome of the read and whatever the file holds. *)
Theorem read_keeps_identifier_tables (disk : gmap string File)
    (format : MeshFormat) (m m' : Mesh) (r : result unit) :
  m_filename m <> "" ->
  is_Some (disk !! m_filename m) ->
  selects_adcirc format (m_filename m) ->
  read disk format m = (r, m') ->
  (forall k, is_Some (m_nodeLookup m !! k) ->
             is_Some (m_nodeLookup m' !! k)) /\
  (forall k, is_Some (m_elementLookup m !! k) ->
             is_Some (m_elementLookup m' !! k)).
Proof.
  intros Hname Hfile Hformat. rewrite read_adcirc_unfold by assumption.
  destruct (readAdcircMesh_sections _) as [r1 [m1 f1]] eqn:Hrun.
  intros [= <- <-].
  split; intros k Hk.
  - assert (Hpres : preserves
              (of_mesh (fun x => is_Some (m_nodeLookup x !! k)))
              readAdcircMesh_sections).
    { unfold readAdcircMesh_sections.
      frame; try assumption;
        try (apply map_subscript_keeps_keys; assumption).
      unfold nodeLookup_assign. simpl.
      rewrite lookup_insert_is_Some.
      match goal with
      | |- ?a = k \/ _ => destruct (decide (a = k)); auto
      end. }
    apply (Hpres _ _ _ Hrun). unfold of_mesh, _init. simpl.
    destruct (decide (m_epsg m = (-1)%Z)); exact Hk.
  - assert (Hpres : preserves
              (of_mesh (fun x => is_Some (m_elementLookup x !! k)))
              readAdcircMesh_sections).
    { unfold readAdcircMesh_sections.
      frame; try assumption.
      unfold elementLookup_assign. simpl.
      rewrite lookup_insert_is_Some.
      match goal with
      | |- ?a = k \/ _ => destruct (decide (a = k)); auto
      end. }
    apply (Hpres _ _ _ Hrun). unfold of_mesh, _init. simpl.
    destruct (decide (m_epsg m = (-1)%Z)); exact Hk.
Qed.

(** *** What the sections decode *)

Lemma stream_at_open (disk : gmap string File) (name : string)
    (file : File) :
  disk !! name = Some file ->
  stream_at (file_lines file) 0 (fstream_open disk name).
Proof.
  intros Hf. unfold stream_at, fstream_open. rewrite Hf. simpl. auto.
Qed.

Lemma getline_stream_at (lines : list string) (k : nat) (buf : string)
    (f : fstream) :
  stream_at lines k f -> (k < length lines)%nat ->
  exists f', getline buf f = (default "" (lines !! k), f')
             /\ stream_at lines (S k) f'.
Proof.
  intros [Hl Hg] Hk.
  destruct (lookup_lt_is_Some_2 lines k Hk) as [l Hlk].
  unfold getline. rewrite (Hg Hk), Hl, (drop_S _ _ _ Hlk), Hlk. simpl.
  destruct (drop (S k) lines) as [| l2 rest] eqn:Hd.
  - eexists. split; [reflexivity |]. split; simpl.
    + symmetry. exact Hd.
    + intros HS. apply (f_equal length) in Hd.
      rewrite length_drop in Hd. simpl in Hd. lia.
  - eexists. split; [reflexivity |]. split; simpl.
    + symmetry. exact Hd.
    + reflexivity.
Qed.

Lemma std_getline_stream_at (lines : list string) (k : nat) (buf : string)
    (m : Mesh) (f : fstream) :
  stream_at lines k f -> (k < length lines)%nat ->
  exists f', std_getline buf (m, f) = (Ok (default "" (lines !! k)), (m, f'))
             /\ stream_at lines (S k) f'.
Proof.
  intros Hst Hk.
  destruct (getline_stream_at lines k buf f Hst Hk) as (f' & Hg & Hst').
  exists f'. split; [| exact Hst'].
  unfold std_getline. rewrite Hg. reflexivity.
Qed.

Lemma readAdcircMeshHeader_decoded (lines : list string) (m : Mesh)
    (f : fstream) (st1 : Mesh * fstream) :
  stream_at lines 0 f -> (2 <= length lines)%nat ->
  readAdcircMeshHeader (m, f) = (Ok tt, st1) ->
  stream_at lines 2 st1.2 /\
  exists a b rest ne nn,
    IO_splitString (default "" (lines !! 1%nat)) = a :: b :: rest /\
    StringConversion_stringToSizet a = (ne, true) /\
    StringConversion_stringToSizet b = (nn, true) /\
    st1.1 = setNumNodes nn
              (setNumElements ne
                 (setMeshHeaderString (default "" (lines !! 0%nat)) m)).
Proof.
  intros Hst Hlen Hrun. unfold readAdcircMeshHeader in Hrun.
  destruct (std_getline_stream_at lines 0 "" m f Hst) as (f1 & Hg1 & Hst1);
    [lia |].
  rewrite (bind_Ok _ _ _ _ _ Hg1) in Hrun.
  rewrite bind_unfold in Hrun. simpl in Hrun.
  set (m1 := setMeshHeaderString _ m) in Hrun.
  destruct (std_getline_stream_at lines 1 (default "" (lines !! 0%nat))
              m1 f1 Hst1) as (f2 & Hg2 & Hst2); [lia |].
  rewrite (bind_Ok _ _ _ _ _ Hg2) in Hrun.
  cbv zeta in Hrun.
  destruct (IO_splitString (default "" (lines !! 1%nat)))
    as [| a [| b rest]] eqn:Hsplit.
  - rewrite bind_unfold in Hrun. simpl in Hrun. discriminate.
  - rewrite bind_unfold in Hrun. simpl in Hrun.
    destruct (StringConversion_stringToSizet a) as [ne [|]].
    + rewrite bind_unfold in Hrun. simpl in Hrun.
      rewrite bind_unfold in Hrun. simpl in Hrun.
      rewrite bind_unfold in Hrun. simpl in Hrun. discriminate.
    + rewrite bind_unfold in Hrun. simpl in Hrun. discriminate.
  - rewrite bind_unfold in Hrun. simpl in Hrun.
    destruct (StringConversion_stringToSizet a) as [ne [|]] eqn:Ha.
    + rewrite bind_unfold in Hrun. simpl in Hrun.
      rewrite bind_unfold in Hrun. simpl in Hrun.
      rewrite bind_unfold in Hrun. simpl in Hrun.
      destruct (StringConversion_stringToSizet b) as [nn [|]] eqn:Hb.
      * rewrite bind_unfold in Hrun. simpl in Hrun.
        injection Hrun as <-. simpl. split; [exact Hst2 |].
        exists a, b, rest, ne, nn. auto.
      * rewrite bind_unfold in Hrun. simpl in Hrun. discriminate.
    + rewrite bind_unfold in Hrun. simpl in Hrun. discriminate.
Qed.

Lemma readAdcircNodes_record_decoded (lines : list string) (p : nat) (i : N)
    (m : Mesh) (f : fstream) (s2 : Mesh * fstream) :
  stream_at lines p f -> (p < length lines)%nat ->
  readAdcircNodes_record i (m, f) = (Ok tt, s2) ->
  stream_at lines (S p) s2.2 /\
  exists id x y z,
    IO_splitStringNodeFormat (default "" (lines !! p)) = Some (id, x, y, z)
    /\ s2.1 = store_node i (mkNode id x y z)
                (if bool_decide (i <> size_sub id 1)
                 then set_m_nodeOrderingLogical false m else m).
Proof.
  intros Hst Hp. unfold readAdcircNodes_record.
  destruct (std_getline_stream_at lines p "" m f Hst Hp) as (f1 & Hg & Hst1).
  rewrite (bind_Ok _ _ _ _ _ Hg).
  destruct (IO_splitStringNodeFormat _) as [[[[id x] y] z] |].
  - intros Hrun. rewrite bind_unfold in Hrun.
    assert (Hs2 : s2 = (store_node i (mkNode id x y z)
                          (if bool_decide (i <> size_sub id 1)
                           then set_m_nodeOrderingLogical false m else m),
                        f1)).
    { destruct (bool_decide (i <> size_sub id 1));
        simpl in Hrun; injection Hrun as <-; reflexivity. }
    subst s2. simpl. split; [exact Hst1 | exists id, x, y, z; auto].
  - unfold close_and_throw. rewrite bind_unfold. simpl. discriminate.
Qed.

Lemma readAdcircNodes_loop_decoded (lines : list string) (base n : nat)
    (m m' : Mesh) (f f' : fstream) :
  stream_at lines base f -> (base + n <= length lines)%nat ->
  length (m_nodes m) = n ->
  for_range n 0 readAdcircNodes_record (m, f) = (Ok tt, (m', f')) ->
  stream_at lines (base + n) f' /\
  forall i, (i < n)%nat ->
    exists id x y z,
      IO_splitStringNodeFormat (default "" (lines !! (base + i)%nat))
      = Some (id, x, y, z)
      /\ m_nodes m' !! i = Some (mkNode id x y z).
Proof.
  intros Hst Hlen Hn Hrun.
  pose (I := fun (k : nat) (st : Mesh * fstream) =>
    stream_at lines (base + k) st.2 /\
    length (m_nodes st.1) = n /\
    forall i, (i < k)%nat ->
      exists id x y z,
        IO_splitStringNodeFormat (default "" (lines !! (base + i)%nat))
        = Some (id, x, y, z)
        /\ m_nodes st.1 !! i = Some (mkNode id x y z)).
  assert (HI : I n (m', f')).
  { apply (for_range_invariant I n 0 readAdcircNodes_record (m, f));
      [| | exact Hrun].
    - unfold I. simpl. rewrite Nat.add_0_r.
      split; [exact Hst |]. split; [exact Hn |]. intros i Hi. lia.
    - intros k [ma fa] s2 Hk (Hsa & Hla & Hall) Hbody. simpl in Hsa, Hla, Hall.
      replace (0 + N.of_nat k) with (N.of_nat k) in Hbody by lia.
      destruct (readAdcircNodes_record_decoded lines (base + k) (N.of_nat k)
                  ma fa s2 Hsa)
        as (Hs2 & id & x & y & z & Hparse & Hm2); [lia | exact Hbody |].
      unfold I. replace (base + S k)%nat with (S (base + k)) by lia.
      split; [exact Hs2 |].
      rewrite Hm2. unfold store_node. simpl. rewrite Nat2N.id.
      assert (Hnodes : m_nodes
                         (if bool_decide (N.of_nat k <> size_sub id 1)
                          then set_m_nodeOrderingLogical false ma else ma)
                       = m_nodes ma) by (destruct (bool_decide _); reflexivity).
      rewrite Hnodes.
      split; [rewrite length_insert; exact Hla |].
      intros i Hi. destruct (decide (i = k)) as [-> | Hne].
      + exists id, x, y, z. split; [exact Hparse |].
        apply list_lookup_insert_eq. lia.
      + destruct (Hall i) as (id' & x' & y' & z' & Hp' & Hn'); [lia |].
        exists id', x', y', z'. split; [exact Hp' |].
        rewrite list_lookup_insert_ne by lia. exact Hn'. }
  destruct HI as (Hend & _ & Hall). split; assumption.
Qed.

Lemma build_nodeLookup_keeps_nodes (ns : list Node) :
  preserves (fun x => m_nodes x = ns) build_nodeLookup.
Proof. unfold build_nodeLookup. frame; assumption. Qed.

Lemma readAdcircNodes_decoded (lines : list string) (base : nat)
    (st st' : Mesh * fstream) :
  stream_at lines base st.2 ->
  (base + N.to_nat (numNodes st.1) <= length lines)%nat ->
  readAdcircNodes st = (Ok tt, st') ->
  stream_at lines (base + N.to_nat (numNodes st.1)) st'.2 /\
  forall i, (i < N.to_nat (numNodes st.1))%nat ->
    exists id x y z,
      IO_splitStringNodeFormat (default "" (lines !! (base + i)%nat))
      = Some (id, x, y, z)
      /\ m_nodes st'.1 !! i = Some (mkNode id x y z).
Proof.
  destruct st as [m f]. simpl. intros Hst Hlen. unfold readAdcircNodes.
  rewrite bind_unfold. simpl.
  set (m1 := set_m_nodes _ m).
  rewrite bind_unfold. simpl.
  intros Hrun. apply bind_inv_Ok in Hrun as ([] & [m2 f2] & Hloop & Hrest).
  assert (Hlen1 : length (m_nodes m1) = N.to_nat (numNodes m))
    by (unfold m1; simpl; apply length_resize).
  destruct (readAdcircNodes_loop_decoded lines base (length (m_nodes m1))
              m1 m2 f f2 Hst ltac:(rewrite Hlen1; exact Hlen) eq_refl Hloop)
    as [Hst2 Hall].
  rewrite Hlen1 in Hst2, Hall.
  rewrite bind_unfold in Hrest. simpl in Hrest.
  destruct (m_nodeOrderingLogical m2); simpl in Hrest.
  - injection Hrest as <-. simpl. auto.
  - unfold on_mesh in Hrest.
    destruct (build_nodeLookup m2) as [r m3] eqn:Hbuild.
    injection Hrest as -> <-. simpl. split; [exact Hst2 |].
    rewrite (build_nodeLookup_keeps_nodes _ _ _ _ Hbuild eq_refl).
    exact Hall.
Qed.

Lemma header_fields_kept_by_nodes (h : string) (ne nn : N) :
  preserves (of_mesh (fun x => m_meshHeaderString x = h
                               /\ m_numElements x = ne
                               /\ m_numNodes x = nn))
            readAdcircNodes.
Proof. unfold readAdcircNodes. frame; assumption. Qed.

Lemma header_fields_kept_after_nodes (h : string) (ne nn : N) :
  preserves (of_mesh (fun x => m_meshHeaderString x = h
                               /\ m_numElements x = ne
                               /\ m_numNodes x = nn))
            after_nodes.
Proof. unfold after_nodes. frame; assumption. Qed.

(** X16. A successful native-ASCII read of a file that holds the lines
    its header announces decodes the header and the node section line by
    line: the header string is the first line, the second line gives the
    element count and then the node count, and the node stored at position
    [i] is the one that line [3 + i] of the file describes. *)
Theorem read_nodes_decoded (disk : gmap string File) (format : MeshFormat)
    (m m' : Mesh) (file : File) :
  m_filename m <> "" ->
  disk !! m_filename m = Some file ->
  selects_adcirc format (m_filename m) ->
  read disk format m = (Ok tt, m') ->
  (2 + N.to_nat (numNodes m') <= length (file_lines file))%nat ->
  meshHeaderString m' = line_of file 0 /\
  (exists a b rest,
     IO_splitString (line_of file 1) = a :: b :: rest /\
     StringConversion_stringToSizet a = (numElements m', true) /\
     StringConversion_stringToSizet b = (numNodes m', true)) /\
  (forall i, i < numNodes m' ->
     exists id x y z,
       IO_splitStringNodeFormat (line_of file (2 + N.to_nat i))
       = Some (id, x, y, z)
       /\ node_at m' i = Some (mkNode id x y z)).
Proof.
  intros Hname Hfile Hformat Hread Hlines.
  destruct (read_adcirc_sections disk format m m' Hname
              (ex_intro _ file Hfile) Hformat Hread)
    as (st1 & st2 & st3 & st4 & st5 & Hheader & Hnodes & _ & _ & _
        & _ & Hafter2 & _ & _).
  destruct (readAdcircMeshHeader_decoded (file_lines file) _ _ st1
              (stream_at_open _ _ _ Hfile) ltac:(lia) Hheader)
    as (Hst1 & a & b & rest & ne & nn & Hsplit & Ha & Hb & Hm1).
  pose proof (header_fields_kept_by_nodes _ _ _ st1 _ _ Hnodes
                (conj eq_refl (conj eq_refl eq_refl))) as Hk2.
  pose proof (header_fields_kept_after_nodes _ _ _ st2 _ _ Hafter2 Hk2)
    as (Kh & Kne & Knn).
  pose proof (after_nodes_keeps_nodes _ _ st2 _ _ Hafter2
                (conj eq_refl eq_refl)) as [Kns _].
  simpl in Kh, Kne, Knn, Kns.
  rewrite Hm1 in Kh, Kne, Knn. simpl in Kh, Kne, Knn.
  assert (Hnn1 : numNodes st1.1 = numNodes m')
    by (rewrite Hm1; unfold numNodes; simpl; congruence).
  destruct (readAdcircNodes_decoded (file_lines file) 2 st1 st2 Hst1)
    as [_ Hall]; [rewrite Hnn1; exact Hlines | exact Hnodes |].
  split; [exact Kh |]. split.
  - exists a, b, rest. unfold line_of, numElements, numNodes.
    rewrite Kne, Knn. auto.
  - intros i Hi. unfold node_at, line_of. rewrite Kns.
    apply Hall. rewrite Hnn1. lia.
Qed.

(** *** The element section *)

Lemma for_range_with_invariant {St A} (I : nat -> A -> St -> Prop) n i
    (a : A) (body : N -> A -> M St A) s a' s' :
  I O a s ->
  (forall k a1 s1 a2 s2, (k < n)%nat -> I k a1 s1 ->
     body (i + N.of_nat k) a1 s1 = (Ok a2, s2) -> I (S k) a2 s2) ->
  for_range_with n i a body s = (Ok a', s') ->
  I n a' s'.
Proof.
  revert I i a s. induction n as [| n IH]; intros I i a s Hzero Hstep Hrun.
  - simpl in Hrun. injection Hrun as <- <-. exact Hzero.
  - simpl in Hrun. apply bind_inv_Ok in Hrun as (a1 & s1 & Hb & Hrest).
    apply (IH (fun k => I (S k)) (N.succ i) a1 s1).
    + apply (Hstep O a s a1 s1); [lia | exact Hzero |].
      replace (i + N.of_nat 0) with i by lia. exact Hb.
    + intros k b1 t1 b2 t2 Hk HI Hbk.
      apply (Hstep (S k) b1 t1 b2 t2); [lia | exact HI |].
      replace (i + N.of_nat (S k)) with (N.succ i + N.of_nat k) by lia.
      exact Hbk.
    + exact Hrest.
Qed.

Lemma map_subscript_value (t : gmap N N) (id : N) :
  (map_subscript t id).1 = default 0 (t !! id).
Proof. unfold map_subscript. destruct (t !! id); reflexivity. Qed.

Lemma map_subscript_default (t : gmap N N) (id k : N) :
  default 0 ((map_subscript t id).2 !! k) = default 0 (t !! k).
Proof.
  unfold map_subscript. destruct (t !! id) eqn:Hid; simpl; [reflexivity |].
  destruct (decide (id = k)) as [<- | Hne].
  - rewrite lookup_insert_eq, Hid. reflexivity.
  - rewrite lookup_insert_ne by exact Hne. reflexivity.
Qed.

(** The arguments [m_nodeLookup[n[0]]], [m_nodeLookup[n[1]]], ... of one
    [setElement] call: identifiers the table does not hold are inserted
    with position 0, which is what they are resolved to. *)
Lemma map_M_nodeLookup_subscript (g : N -> N) (n : list N) (m : Mesh) :
  (forall k, default 0 (m_nodeLookup m !! k) = g k) ->
  exists t',
    map_M nodeLookup_subscript n m = (Ok (g <$> n), set_m_nodeLookup t' m)
    /\ forall k, default 0 (t' !! k) = g k.
Proof.
  revert m. induction n as [| id n IH]; intros m Hg; simpl.
  - exists (m_nodeLookup m). split; [destruct m; reflexivity | exact Hg].
  - rewrite bind_unfold. unfold nodeLookup_subscript at 1.
    pose proof (map_subscript_value (m_nodeLookup m) id) as Hv.
    pose proof (map_subscript_default (m_nodeLookup m) id) as Hd.
    destruct (map_subscript (m_nodeLookup m) id) as [pos t]. simpl in Hv, Hd.
    destruct (IH (set_m_nodeLookup t m)) as (t' & Hrun & Ht').
    { intros k. simpl. rewrite Hd. apply Hg. }
    exists t'. split; [| exact Ht'].
    rewrite bind_unfold, Hrun. simpl. rewrite Hv, Hg. reflexivity.
Qed.

Lemma readAdcircElements_logical_decoded (lines : list string) (p : nat)
    (i : N) (buf : string) (m : Mesh) (f : fstream) (l : string)
    (s2 : Mesh * fstream) :
  stream_at lines p f -> (p < length lines)%nat ->
  readAdcircElements_logical i buf (m, f) = (Ok l, s2) ->
  stream_at lines (S p) s2.2 /\
  exists id n t',
    IO_splitStringElemFormat (default "" (lines !! p)) = Some (id, n) /\
    t' = m_nodeLookup m /\
    s2.1 = (if bool_decide (length n = 3%nat \/ length n = 4%nat)
            then store_element i id ((fun k => size_sub k 1) <$> n)
            else fun x => x)
             (set_m_nodeLookup t' m).
Proof.
  intros Hst Hp. unfold readAdcircElements_logical.
  destruct (std_getline_stream_at lines p buf m f Hst Hp) as (f1 & Hg & Hst1).
  rewrite (bind_Ok _ _ _ _ _ Hg).
  destruct (IO_splitStringElemFormat _) as [[id n] |].
  - intros Hrun. rewrite bind_unfold in Hrun.
    assert (Hs2 : s2 = ((if bool_decide (length n = 3%nat \/ length n = 4%nat)
                         then store_element i id
                                ((fun k => size_sub k 1) <$> n)
                         else fun x => x) m, f1)).
    { destruct (bool_decide (length n = 3%nat \/ length n = 4%nat));
        simpl in Hrun; injection Hrun as _ <-; reflexivity. }
    subst s2. simpl. split; [exact Hst1 |].
    exists id, n, (m_nodeLookup m). split; [reflexivity |].
    split; [reflexivity |]. destruct m; reflexivity.
  - unfold close_and_throw. rewrite bind_unfold. simpl. discriminate.
Qed.

Lemma readAdcircElements_lookup_decoded (g : N -> N) (lines : list string)
    (p : nat) (i : N) (buf : string) (m : Mesh) (f : fstream) (l : string)
    (s2 : Mesh * fstream) :
  stream_at lines p f -> (p < length lines)%nat ->
  (forall k, default 0 (m_nodeLookup m !! k) = g k) ->
  readAdcircElements_lookup i buf (m, f) = (Ok l, s2) ->
  stream_at lines (S p) s2.2 /\
  exists id n t',
    IO_splitStringElemFormat (default "" (lines !! p)) = Some (id, n) /\
    (forall k, default 0 (t' !! k) = g k) /\
    s2.1 = (if bool_decide (length n = 3%nat \/ length n = 4%nat)
            then store_element i id (g <$> n)
            else fun x => x)
             (set_m_nodeLookup t'
                (if bool_decide (i <> size_sub id 1)
                 then set_m_elementOrderingLogical false m else m)).
Proof.
  intros Hst Hp Hg. unfold readAdcircElements_lookup.
  destruct (std_getline_stream_at lines p buf m f Hst Hp) as (f1 & Hl & Hst1).
  rewrite (bind_Ok _ _ _ _ _ Hl).
  destruct (IO_splitStringElemFormat _) as [[id n] |].
  - intros Hrun. rewrite bind_unfold in Hrun.
    remember (if bool_decide (i <> size_sub id 1)
              then set_m_elementOrderingLogical false m else m) as m1 eqn:Hm1.
    assert (Hstep1 :
      (if bool_decide (i <> size_sub id 1)
       then on_mesh (modify (set_m_elementOrderingLogical false))
       else mret tt) (m, f1) = (Ok tt, (m1, f1))).
    { rewrite Hm1. destruct (bool_decide (i <> size_sub id 1));
        reflexivity. }
    rewrite Hstep1 in Hrun. rewrite bind_unfold in Hrun.
    assert (Hg1 : forall k, default 0 (m_nodeLookup m1 !! k) = g k).
    { intros k. rewrite Hm1.
      destruct (bool_decide (i <> size_sub id 1)); apply Hg. }
    clear Hstep1.
    destruct (map_M_nodeLookup_subscript g n m1 Hg1) as (t' & Hmap & Ht').
    destruct (bool_decide (length n = 3%nat \/ length n = 4%nat)) eqn:Htaq.
    + rewrite bind_unfold in Hrun. unfold on_mesh at 1 in Hrun.
      rewrite Hmap in Hrun. simpl in Hrun. injection Hrun as _ <-.
      simpl. split; [exact Hst1 |].
      exists id, n, t'. split; [reflexivity |]. split; [exact Ht' |].
      rewrite Htaq, <- Hm1. reflexivity.
    + simpl in Hrun. injection Hrun as _ <-. simpl. split; [exact Hst1 |].
      exists id, n, (m_nodeLookup m1). split; [reflexivity |].
      split; [exact Hg1 |]. rewrite Htaq, <- Hm1. clear Hm1.
      destruct m1; reflexivity.
  - unfold close_and_throw. rewrite bind_unfold. simpl. discriminate.
Qed.

(** The loop of the element section, for either of its two bodies: [g]
    resolves a node identifier, [compare] says whether the body compares
    the element identifier with its position, [P] is what the body keeps
    of the node table. *)
Lemma element_loop_decoded (body : N -> string -> M (Mesh * fstream) string)
    (g : N -> N) (compare : bool) (P : gmap N N -> Prop)
    (lines : list string) (base ne : nat) (m m' : Mesh) (f f' : fstream)
    (buf l : string) :
  (forall p i buf m f l s2,
     stream_at lines p f -> (p < length lines)%nat ->
     P (m_nodeLookup m) ->
     body i buf (m, f) = (Ok l, s2) ->
     stream_at lines (S p) s2.2 /\
     exists id n t',
       IO_splitStringElemFormat (default "" (lines !! p)) = Some (id, n) /\
       P t' /\
       s2.1 = (if bool_decide (length n = 3%nat \/ length n = 4%nat)
               then store_element i id (g <$> n)
               else fun x => x)
                (set_m_nodeLookup t'
                   (if compare && bool_decide (i <> size_sub id 1)
                    then set_m_elementOrderingLogical false m else m))) ->
  stream_at lines base f -> (base + ne <= length lines)%nat ->
  length (m_elements m) = ne ->
  (forall i, (i < ne)%nat -> m_elements m !! i = Some Element_default) ->
  P (m_nodeLookup m) ->
  for_range_with ne 0 buf body (m, f) = (Ok l, (m', f')) ->
  stream_at lines (base + ne) f' /\
  P (m_nodeLookup m') /\
  length (m_elements m') = ne /\
  (forall i, (i < ne)%nat ->
     exists id n,
       IO_splitStringElemFormat (default "" (lines !! (base + i)%nat))
       = Some (id, n) /\
       (triangle_or_quad n ->
          m_elements m' !! i = Some (mkElement id (g <$> n))) /\
       (~ triangle_or_quad n ->
          m_elements m' !! i = Some Element_default)) /\
  (m_elementOrderingLogical m' = true <->
   m_elementOrderingLogical m = true /\
   (compare = true ->
    forall (i : nat) id n, (i < ne)%nat ->
      IO_splitStringElemFormat (default "" (lines !! (base + i)%nat))
      = Some (id, n) ->
      size_sub id 1 = N.of_nat i)).
Proof.
  intros Hbody Hst Hlen Hne Hinit HP0 Hrun.
  pose (I := fun (k : nat) (_ : string) (st : Mesh * fstream) =>
    stream_at lines (base + k) st.2 /\
    P (m_nodeLookup st.1) /\
    length (m_elements st.1) = ne /\
    (forall i, (i < k)%nat ->
       exists id n,
         IO_splitStringElemFormat (default "" (lines !! (base + i)%nat))
         = Some (id, n) /\
         (triangle_or_quad n ->
            m_elements st.1 !! i = Some (mkElement id (g <$> n))) /\
         (~ triangle_or_quad n ->
            m_elements st.1 !! i = Some Element_default)) /\
    (forall i, (k <= i < ne)%nat ->
       m_elements st.1 !! i = Some Element_default) /\
    (m_elementOrderingLogical st.1 = true <->
     m_elementOrderingLogical m = true /\
     (compare = true ->
      forall (i : nat) id n, (i < k)%nat ->
        IO_splitStringElemFormat (default "" (lines !! (base + i)%nat))
        = Some (id, n) ->
        size_sub id 1 = N.of_nat i))).
  assert (HI : I ne l (m', f')).
  { apply (for_range_with_invariant I ne 0 buf body (m, f)); [| | exact Hrun].
    - unfold I. simpl. rewrite Nat.add_0_r.
      split; [exact Hst |]. split; [exact HP0 |]. split; [exact Hne |].
      split; [intros i Hi; lia |].
      split; [intros i Hi; apply Hinit; lia |].
      split; [intros Hflag; split; [exact Hflag | intros _ i id n Hi; lia]
             | tauto].
    - intros k b1 [ma fa] b2 s2 Hk (Hsa & HPa & Hla & Hdone & Htodo & Hflag)
        Hstep.
      simpl in Hsa, HPa, Hla, Hdone, Htodo, Hflag.
      replace (0 + N.of_nat k) with (N.of_nat k) in Hstep by lia.
      destruct (Hbody (base + k)%nat (N.of_nat k) b1 ma fa b2 s2 Hsa
                  ltac:(lia) HPa Hstep)
        as (Hs2 & id & n & t' & Hparse & HPt & Hm2).
      set (c := compare && bool_decide (N.of_nat k <> size_sub id 1)) in Hm2.
      assert (Htable : m_nodeLookup s2.1 = t').
      { rewrite Hm2.
        destruct (bool_decide (length n = 3%nat \/ length n = 4%nat)), c;
          reflexivity. }
      assert (Helems : m_elements s2.1
                       = if bool_decide (length n = 3%nat \/ length n = 4%nat)
                         then alter (Element_setElement id (g <$> n)) k
                                    (m_elements ma)
                         else m_elements ma).
      { rewrite Hm2.
        destruct (bool_decide (length n = 3%nat \/ length n = 4%nat)), c;
          unfold store_element; simpl; rewrite ?Nat2N.id; reflexivity. }
      assert (Hflag2 : m_elementOrderingLogical s2.1
                       = if c then false else m_elementOrderingLogical ma).
      { rewrite Hm2.
        destruct (bool_decide (length n = 3%nat \/ length n = 4%nat)), c;
          reflexivity. }
      assert (Hother : forall i, i <> k ->
                m_elements s2.1 !! i = m_elements ma !! i).
      { intros i Hi. rewrite Helems.
        destruct (bool_decide (length n = 3%nat \/ length n = 4%nat));
          [apply list_lookup_alter_ne; lia | reflexivity]. }
      unfold I. replace (base + S k)%nat with (S (base + k)) by lia.
      split; [exact Hs2 |].
      split; [rewrite Htable; exact HPt |].
      split.
      { rewrite Helems.
        destruct (bool_decide (length n = 3%nat \/ length n = 4%nat));
          rewrite ?length_alter; exact Hla. }
      split.
      { intros i Hi. destruct (decide (i = k)) as [-> | Hik].
        - exists id, n. split; [exact Hparse |].
          rewrite Helems. unfold triangle_or_quad. split; intros Htaq.
          + rewrite bool_decide_eq_true_2 by exact Htaq.
            rewrite list_lookup_alter_eq, (Htodo k) by lia. reflexivity.
          + rewrite bool_decide_eq_false_2 by exact Htaq. apply Htodo. lia.
        - destruct (Hdone i) as (id' & n' & Hp' & Ht & Hf); [lia |].
          exists id', n'. split; [exact Hp' |].
          rewrite (Hother i Hik). auto. }
      split.
      { intros i Hi. rewrite Hother by lia. apply Htodo. lia. }
      rewrite Hflag2. unfold c. destruct compare; simpl.
      + destruct (decide (N.of_nat k = size_sub id 1)) as [Heq | Hcmp].
        * rewrite bool_decide_eq_false_2 by (intros Hx; exact (Hx Heq)).
          rewrite Hflag.
          split; intros [Hm Hall]; (split; [exact Hm |]);
            intros _ i id' n' Hi Hp'.
          -- destruct (decide (i = k)) as [-> | Hik].
             ++ rewrite Hparse in Hp'. injection Hp' as <- <-.
                symmetry. exact Heq.
             ++ apply (Hall eq_refl i id' n'); [lia | exact Hp'].
          -- apply (Hall eq_refl i id' n'); [lia | exact Hp'].
        * rewrite bool_decide_eq_true_2 by exact Hcmp.
          split; [discriminate |]. intros [_ Hall]. exfalso. apply Hcmp.
          symmetry. apply (Hall eq_refl k id n); [lia | exact Hparse].
      + rewrite Hflag.
        split; intros [Hm Hall]; (split; [exact Hm |]); intros Hc;
          discriminate Hc. }
  destruct HI as (Hend & HPend & Hlend & Hdone & _ & Hflag).
  repeat (split; [assumption |]). exact Hflag.
Qed.

Lemma readAdcircElements_decoded (lines : list string) (base : nat)
    (st st' : Mesh * fstream) :
  stream_at lines base st.2 ->
  (base + N.to_nat (numElements st.1) <= length lines)%nat ->
  m_elements st.1 = [] ->
  readAdcircElements st = (Ok tt, st') ->
  (forall k, default 0 (m_nodeLookup st'.1 !! k)
             = default 0 (m_nodeLookup st.1 !! k)) /\
  (forall i, (i < N.to_nat (numElements st.1))%nat ->
     exists id n,
       IO_splitStringElemFormat (default "" (lines !! (base + i)%nat))
       = Some (id, n) /\
       (triangle_or_quad n ->
          m_elements st'.1 !! i
          = Some (mkElement id (node_position st.1 <$> n))) /\
       (~ triangle_or_quad n ->
          m_elements st'.1 !! i = Some Element_default)) /\
  (m_elementOrderingLogical st'.1 = true <->
   m_elementOrderingLogical st.1 = true /\
   (m_nodeOrderingLogical st.1 = false ->
    forall (i : nat) id n, (i < N.to_nat (numElements st.1))%nat ->
      IO_splitStringElemFormat (default "" (lines !! (base + i)%nat))
      = Some (id, n) ->
      size_sub id 1 = N.of_nat i)).
Proof.
  destruct st as [m f]. simpl. intros Hst Hlen Hempty.
  unfold readAdcircElements.
  rewrite bind_unfold. simpl.
  set (m1 := set_m_elements _ m).
  rewrite bind_unfold. simpl. rewrite bind_unfold. simpl.
  intros Hrun. apply bind_inv_Ok in Hrun as (l & [m2 f2] & Hloop & Hrest).
  assert (Hlen1 : length (m_elements m1) = N.to_nat (numElements m))
    by (unfold m1; simpl; apply length_resize).
  assert (Hdefault : forall i, (i < length (m_elements m1))%nat ->
            m_elements m1 !! i = Some Element_default).
  { intros i Hi. rewrite Hlen1 in Hi. unfold m1. simpl. rewrite Hempty.
    apply lookup_resize_new; simpl; lia. }
  assert (Hkeep : m_elements st'.1 = m_elements m2
                  /\ m_elementOrderingLogical st'.1
                     = m_elementOrderingLogical m2
                  /\ m_nodeLookup st'.1 = m_nodeLookup m2).
  { match type of Hrest with
    | ?c _ = _ =>
        assert (Hpres : preserves
          (of_mesh (fun x => m_elements x = m_elements m2
                             /\ m_elementOrderingLogical x
                                = m_elementOrderingLogical m2
                             /\ m_nodeLookup x = m_nodeLookup m2)) c)
          by (frame; assumption)
    end.
    apply (Hpres _ _ _ Hrest). unfold of_mesh. simpl. auto. }
  destruct Hkeep as (Ke & Kf & Kt). rewrite Ke, Kf, Kt.
  unfold node_position, nodeOrderingIsLogical.
  destruct (m_nodeOrderingLogical m) eqn:Hflag.
  - destruct (element_loop_decoded readAdcircElements_logical
                (fun k => size_sub k 1) false
                (fun t => t = m_nodeLookup m)
                lines base (length (m_elements m1)) m1 m2 f f2 "" l)
      as (_ & Htable & _ & Hall & Hord); try assumption.
    + intros p i buf ma fa la s2 Hsa Hp HPa Hstep.
      destruct (readAdcircElements_logical_decoded lines p i buf ma fa la s2
                  Hsa Hp Hstep)
        as (Hs2 & id & n & t' & Hparse & Ht' & Hm2).
      split; [exact Hs2 |]. exists id, n, t'.
      split; [exact Hparse |]. split; [congruence | exact Hm2].
    + rewrite Hlen1. exact Hlen.
    + reflexivity.
    + reflexivity.
    + rewrite Hlen1 in Hall, Hord. rewrite Htable.
      split; [reflexivity |]. split; [exact Hall |].
      rewrite Hord. unfold m1. simpl.
      split; intros [Hm _]; (split; [exact Hm |]); intros Hc; discriminate Hc.
  - destruct (element_loop_decoded readAdcircElements_lookup
                (fun k => default 0 (m_nodeLookup m !! k)) true
                (fun t => forall k, default 0 (t !! k)
                                    = default 0 (m_nodeLookup m !! k))
                lines base (length (m_elements m1)) m1 m2 f f2 "" l)
      as (_ & Htable & _ & Hall & Hord); try assumption.
    + intros p i buf ma fa la s2 Hsa Hp HPa Hstep.
      apply (readAdcircElements_lookup_decoded _ lines p i buf ma fa la s2
               Hsa Hp HPa Hstep).
    + rewrite Hlen1. exact Hlen.
    + reflexivity.
    + intros k. reflexivity.
    + rewrite Hlen1 in Hall, Hord.
      split; [exact Htable |]. split; [exact Hall |].
      rewrite Hord. unfold m1. simpl.
      split; intros [Hm Hcmp]; (split; [exact Hm |]); intros _;
        apply Hcmp; reflexivity.
Qed.

Lemma after_elements_keeps_positions (g : N -> N) :
  preserves (of_mesh (fun x => forall k,
                        default 0 (m_nodeLookup x !! k) = g k))
            after_elements.
Proof.
  unfold after_elements. frame; try assumption;
    intros k; simpl; rewrite map_subscript_default; auto.
Qed.

(** The element section of a successful read of a file that holds the
    lines its header announces, with what the later sections keep of
    it. *)
Lemma read_adcirc_element_section (disk : gmap string File)
    (format : MeshFormat) (m m' : Mesh) (file : File) :
  m_filename m <> "" ->
  disk !! m_filename m = Some file ->
  selects_adcirc format (m_filename m) ->
  read disk format m = (Ok tt, m') ->
  (2 + N.to_nat (numNodes m') + N.to_nat (numElements m')
   <= length (file_lines file))%nat ->
  (forall i, (i < N.to_nat (numElements m'))%nat ->
     exists id n,
       IO_splitStringElemFormat
         (line_of file (2 + N.to_nat (numNodes m') + i))
       = Some (id, n) /\
       (triangle_or_quad n ->
          m_elements m' !! i = Some (mkElement id (node_position m' <$> n)))
       /\
       (~ triangle_or_quad n -> m_elements m' !! i = Some Element_default))
  /\
  (m_elementOrderingLogical m' = true <->
   (m_nodeOrderingLogical m' = false ->
    forall (i : nat) id n, (i < N.to_nat (numElements m'))%nat ->
      IO_splitStringElemFormat
        (line_of file (2 + N.to_nat (numNodes m') + i))
      = Some (id, n) ->
      size_sub id 1 = N.of_nat i)).
Proof.
  intros Hname Hfile Hformat Hread Hlines.
  destruct (read_adcirc_sections disk format m m' Hname
              (ex_intro _ file Hfile) Hformat Hread)
    as (st1 & st2 & st3 & st4 & st5 & Hheader & Hnodes & Helements & _ & _
        & _ & Hafter2 & Hafter3 & _).
  destruct (readAdcircMeshHeader_decoded (file_lines file) _ _ st1
              (stream_at_open _ _ _ Hfile) ltac:(lia) Hheader)
    as (Hst1 & _).
  (* counts *)
  destruct (readAdcircNodes_shape _ _ _ Hnodes) as (_ & Hnn2 & Hne2 & Hlater2).
  destruct (readAdcircElements_shape _ _ _ Helements) as (_ & Hne3).
  pose proof (after_nodes_keeps_nodes _ _ st2 _ _ Hafter2
                (conj eq_refl eq_refl)) as [_ Knn].
  pose proof (after_elements_keeps_elements _ _ _ _ st3 _ _ Hafter3
                (conj eq_refl (conj eq_refl (conj eq_refl eq_refl))))
    as (Kes & Kne & Kef & _).
  simpl in Knn, Kes, Kne, Kef.
  assert (Hnn1 : numNodes st1.1 = numNodes m')
    by (unfold numNodes in *; congruence).
  assert (Hne2' : numElements st2.1 = numElements m')
    by (unfold numElements in *; congruence).
  (* the stream at the start of the element section *)
  destruct (readAdcircNodes_decoded (file_lines file) 2 st1 st2 Hst1)
    as [Hst2 _]; [rewrite Hnn1; lia | exact Hnodes |].
  rewrite Hnn1 in Hst2.
  (* the collections the node section has not touched *)
  assert (Hempty2 : m_elements st2.1 = []).
  { apply Hlater2.
    apply (readAdcircMeshHeader_later_sections _ _ _ Hheader).
    unfold later_sections_empty, _init. simpl. auto. }
  assert (Hflag2 : m_elementOrderingLogical st2.1 = true).
  { assert (Hp1 : preserves
              (of_mesh (fun x => m_elementOrderingLogical x = true))
              readAdcircMeshHeader) by (frame; assumption).
    assert (Hp2 : preserves
              (of_mesh (fun x => m_elementOrderingLogical x = true))
              readAdcircNodes) by (unfold readAdcircNodes; frame; assumption).
    apply (Hp2 _ _ _ Hnodes), (Hp1 _ _ _ Hheader).
    unfold of_mesh, _init. reflexivity. }
  destruct (readAdcircElements_decoded (file_lines file)
              (2 + N.to_nat (numNodes m')) st2 st3 Hst2)
    as (Htable3 & Hall & Hord); [rewrite Hne2'; lia | exact Hempty2
                                | exact Helements |].
  rewrite Hne2' in Hall, Hord.
  (* what the boundary sections keep *)
  pose proof (after_nodes_keeps_node_flag _ st2 _ _ Hafter2 eq_refl)
    as Knf.
  unfold of_mesh in Knf. simpl in Knf.
  pose proof (after_elements_keeps_positions _ st3 _ _ Hafter3
                (fun k => eq_refl)) as Ktable.
  unfold of_mesh in Ktable. simpl in Ktable.
  assert (Hpos : forall k, node_position m' k = node_position st2.1 k).
  { intros k. unfold node_position, nodeOrderingIsLogical.
    rewrite Knf, Ktable, Htable3. reflexivity. }
  split.
  - intros i Hi. destruct (Hall i Hi) as (id & n & Hparse & Ht & Hf).
    exists id, n. unfold line_of. split; [exact Hparse |].
    rewrite Kes.
    replace (node_position m' <$> n) with (node_position st2.1 <$> n)
      by (apply list_fmap_ext; intros; symmetry; apply Hpos).
    auto.
  - rewrite Kef, Hord, Knf. unfold line_of. tauto.
Qed.

(** X17. A successful native-ASCII read of a file that holds the lines
    its header announces decodes the element section line by line.  The
    element stored at position [i] is the one of the line that follows the
    node lines by [i]: it carries the identifier of the line and points at
    the positions of the nodes the line names.  A line that names neither
    3 nor 4 nodes leaves a default-constructed element at its position,
    without an error. *)
Theorem read_elements_decoded (disk : gmap string File)
    (format : MeshFormat) (m m' : Mesh) (file : File) :
  m_filename m <> "" ->
  disk !! m_filename m = Some file ->
  selects_adcirc format (m_filename m) ->
  read disk format m = (Ok tt, m') ->
  (2 + N.to_nat (numNodes m') + N.to_nat (numElements m')
   <= length (file_lines file))%nat ->
  forall i, i < numElements m' ->
    exists id n,
      IO_splitStringElemFormat
        (line_of file (2 + N.to_nat (numNodes m') + N.to_nat i))
      = Some (id, n) /\
      (triangle_or_quad n ->
         element_at m' i = Some (mkElement id (node_position m' <$> n))) /\
      (~ triangle_or_quad n -> element_at m' i = Some Element_default).
Proof.
  intros Hname Hfile Hformat Hread Hlines i Hi.
  destruct (read_adcirc_element_section disk format m m' file
              Hname Hfile Hformat Hread Hlines) as [Hall _].
  apply (Hall (N.to_nat i)). lia.
Qed.

(** X18. After a successful native-ASCII read of a file that holds the
    lines its header announces, the element flag is true exactly when the
    node flag is true or every element line carries the identifier of its
    position plus one: the element identifiers are compared with their
    positions only when the node identifiers were found not
    sequential. *)
Theorem read_element_flag (disk : gmap string File)
    (format : MeshFormat) (m m' : Mesh) (file : File) :
  m_filename m <> "" ->
  disk !! m_filename m = Some file ->
  selects_adcirc format (m_filename m) ->
  read disk format m = (Ok tt, m') ->
  (2 + N.to_nat (numNodes m') + N.to_nat (numElements m')
   <= length (file_lines file))%nat ->
  elementOrderingIsLogical m' = true
  <-> nodeOrderingIsLogical m' = true
      \/ forall i id n, i < numElements m' ->
           IO_splitStringElemFormat
             (line_of file (2 + N.to_nat (numNodes m') + N.to_nat i))
           = Some (id, n) ->
           size_sub id 1 = i.
Proof.
  intros Hname Hfile Hformat Hread Hlines.
  destruct (read_adcirc_element_section disk format m m' file
              Hname Hfile Hformat Hread Hlines) as [_ Hord].
  unfold elementOrderingIsLogical, nodeOrderingIsLogical. rewrite Hord.
  split.
  - intros Hcmp. destruct (m_nodeOrderingLogical m'); [left; reflexivity |].
    right. intros i id n Hi Hparse.
    rewrite <- (N2Nat.id i). apply (Hcmp eq_refl (N.to_nat i) id n); [lia |].
    exact Hparse.
  - intros [Hseq | Hcmp] Hnodes; [congruence |].
    intros i id n Hi Hparse.
    apply (Hcmp (N.of_nat i) id n); [lia |]. rewrite Nat2N.id. exact Hparse.
Qed.

(** *** Elements by identifier *)

Lemma build_elementLookup_complete (m m' : Mesh) :
  m_numElements m = N.of_nat (length (m_elements m)) ->
  build_elementLookup m = (Ok tt, m') ->
  m_elements m' = m_elements m /\ element_lookup_complete m'.
Proof.
  intros Hsize. unfold build_elementLookup.
  rewrite bind_unfold. unfold gets at 1. rewrite Hsize, Nat2N.id.
  intros Hrun.
  pose (I := fun (k : nat) (m1 : Mesh) =>
    m_elements m1 = m_elements m /\
    forall (i : nat) e, (i < k)%nat -> m_elements m !! i = Some e ->
      exists p e', m_elementLookup m1 !! Element_id e = Some p
                   /\ m_elements m !! N.to_nat p = Some e'
                   /\ Element_id e' = Element_id e).
  assert (HI : I (length (m_elements m)) m').
  { refine (for_range_invariant I _ 0 _ m m' _ _ Hrun).
    - split; [reflexivity |]. intros i e Hi. lia.
    - intros k m1 m2 Hk (He1 & Hall) Hbody.
      replace (0 + N.of_nat k) with (N.of_nat k) in Hbody by lia.
      rewrite bind_unfold in Hbody. unfold gets at 1 in Hbody.
      rewrite bind_unfold in Hbody. unfold vector_at in Hbody.
      rewrite Nat2N.id, He1 in Hbody.
      destruct (m_elements m !! k) as [ek |] eqn:Hek; [| discriminate].
      simpl in Hbody. injection Hbody as <-.
      split; [exact He1 |].
      intros i e Hi He. simpl.
      destruct (decide (Element_id ek = Element_id e)) as [Heq | Hne].
      + exists (N.of_nat k), ek. rewrite Heq, lookup_insert_eq, Nat2N.id.
        auto.
      + rewrite lookup_insert_ne by exact Hne.
        apply (Hall i e); [| exact He].
        destruct (decide (i = k)) as [-> | ?]; [| lia].
        rewrite Hek in He. injection He as ->. contradiction. }
  destruct HI as (He & Hall).
  split; [exact He |].
  intros e Hin. rewrite He in Hin.
  apply list_elem_of_lookup in Hin as [i Hi].
  destruct (Hall i e) as (p & e' & Hp & He' & Hid);
    [eapply lookup_lt_Some; exact Hi | exact Hi |].
  exists p, e'. unfold element_at. rewrite He. auto.
Qed.

Lemma readAdcircElements_table (st st' : Mesh * fstream) :
  readAdcircElements st = (Ok tt, st') ->
  m_elementOrderingLogical st'.1 = false ->
  element_lookup_complete st'.1.
Proof.
  destruct st as [m f]. unfold readAdcircElements.
  rewrite bind_unfold. simpl.
  set (m1 := set_m_elements _ m).
  rewrite bind_unfold. simpl. rewrite bind_unfold. simpl.
  intros Hrun Hflag.
  apply bind_inv_Ok in Hrun as (l & [m2 f2] & Hloop & Hrest).
  assert (Hsize : length (m_elements m2) = N.to_nat (numElements m)
                  /\ m_numElements m2 = m_numElements m).
  { match type of Hloop with
    | ?c _ = _ =>
        assert (Hpres : preserves
          (of_mesh (fun x => length (m_elements x) = N.to_nat (numElements m)
                             /\ m_numElements x = m_numElements m)) c)
    end.
    { destruct (m_nodeOrderingLogical m);
        frame; unfold store_element in *; simpl in *;
        rewrite ?length_alter; assumption. }
    apply (Hpres _ _ _ Hloop). unfold of_mesh, m1. simpl.
    split; [apply length_resize | reflexivity]. }
  destruct Hsize as [Hlen2 Hnum2].
  rewrite bind_unfold in Hrest. simpl in Hrest.
  destruct (m_elementOrderingLogical m2) eqn:Hflag2; simpl in Hrest.
  - injection Hrest as <-. simpl in Hflag. congruence.
  - unfold on_mesh in Hrest.
    destruct (build_elementLookup m2) as [r m3] eqn:Hbuild.
    injection Hrest as -> <-. simpl.
    apply (build_elementLookup_complete m2 m3); [| exact Hbuild].
    rewrite Hnum2, Hlen2. unfold numElements. rewrite N2Nat.id. reflexivity.
Qed.

Lemma elementById_indexed (m : Mesh) (id p : N) :
  m_elementOrderingLogical m = false ->
  m_elementLookup m !! id = Some p ->
  elementById id m = (Ok p, m).
Proof.
  intros Hflag Hp. unfold elementById.
  rewrite bind_unfold. unfold gets. rewrite Hflag.
  unfold elementLookup_subscript, map_subscript. rewrite Hp.
  destruct m; reflexivity.
Qed.

(** X19. After a native-ASCII read that found the element identifiers
    not sequential, [elementById(id)] returns, for every identifier [id]
    carried by a stored element, a pointer to an element whose stored
    identifier is [id]; the call throws nothing and leaves the mesh as it
    was. *)
Theorem elementById_after_shuffled_read (disk : gmap string File)
    (format : MeshFormat) (m m' : Mesh) :
  m_filename m <> "" ->
  is_Some (disk !! m_filename m) ->
  selects_adcirc format (m_filename m) ->
  read disk format m = (Ok tt, m') ->
  elementOrderingIsLogical m' = false ->
  forall e, e ∈ m_elements m' ->
    exists p e', elementById (Element_id e) m' = (Ok p, m')
                 /\ element_at m' p = Some e'
                 /\ Element_id e' = Element_id e.
Proof.
  intros Hname Hfile Hformat Hread Hflag e He.
  destruct (read_adcirc_sections disk format m m' Hname Hfile Hformat Hread)
    as (st1 & st2 & st3 & st4 & st5 & _ & _ & Helements & _ & _
        & _ & _ & Hafter3 & _).
  pose proof (after_elements_keeps_elements _ _ _ _ st3 _ _ Hafter3
                (conj eq_refl (conj eq_refl (conj eq_refl eq_refl))))
    as (Kes & _ & Kef & Ket).
  simpl in Kes, Kef, Ket. unfold elementOrderingIsLogical in Hflag.
  assert (Hcomplete : element_lookup_complete st3.1)
    by (apply (readAdcircElements_table st2 st3 Helements); congruence).
  destruct (Hcomplete e) as (p & e' & Hp & Hat & Hid);
    [rewrite <- Kes; exact He |].
  exists p, e'. split; [| split; [| exact Hid]].
  - apply elementById_indexed; [exact Hflag |]. rewrite Ket. exact Hp.
  - unfold element_at in *. rewrite Kes. exact Hat.
Qed.

(** *** From the element lines to the connectivity table *)

(** Both ways of resolving a node identifier reach a node that carries
    it. *)
Lemma read_node_position_resolves (disk : gmap string File)
    (format : MeshFormat) (m m' : Mesh) :
  m_filename m <> "" ->
  is_Some (disk !! m_filename m) ->
  selects_adcirc format (m_filename m) ->
  read disk format m = (Ok tt, m') ->
  numNodes m' < SIZE_MODULUS ->
  Forall (fun nd => Node_id nd < SIZE_MODULUS) (m_nodes m') ->
  forall nd, nd ∈ m_nodes m' ->
    exists nd', node_at m' (node_position m' (Node_id nd)) = Some nd'
                /\ Node_id nd' = Node_id nd.
Proof.
  intros Hname Hfile Hformat Hread Hcount Hids nd Hnd.
  destruct (read_adcirc_sections disk format m m' Hname Hfile Hformat Hread)
    as (st1 & st2 & st3 & st4 & st5 & Hheader & Hnodes & _ & _ & _
        & _ & Hafter2 & _ & _).
  destruct (readAdcircNodes_Ok st1 st2 Hnodes) as (Hlen & _ & Hcomplete).
  destruct (readAdcircNodes_shape _ _ _ Hnodes) as (_ & Hnn2 & _ & _).
  pose proof (after_nodes_keeps_nodes _ _ st2 _ _ Hafter2
                (conj eq_refl eq_refl)) as [Kns Knn].
  pose proof (after_nodes_keeps_node_flag _ st2 _ _ Hafter2 eq_refl)
    as Knf.
  unfold of_mesh in Knf. simpl in Kns, Knn, Knf.
  unfold node_position, nodeOrderingIsLogical.
  destruct (m_nodeOrderingLogical m') eqn:Hflag.
  - assert (Hflag1 : m_nodeOrderingLogical st1.1 = true).
    { assert (Hp : preserves
                (of_mesh (fun x => m_nodeOrderingLogical x = true))
                readAdcircMeshHeader) by (frame; assumption).
      apply (Hp _ _ _ Hheader). unfold of_mesh, _init. reflexivity. }
    assert (Hseq : ids_sequential (Node_id <$> m_nodes m')).
    { rewrite Kns.
      apply (readAdcircNodes_flag st1 st2); try assumption.
      - unfold numNodes in *. congruence.
      - rewrite <- Kns. exact Hids.
      - unfold nodeOrderingIsLogical. congruence. }
    apply list_elem_of_lookup in Hnd as [j Hj].
    pose proof (lookup_lt_Some _ _ _ Hj) as Hlt.
    rewrite Kns, Hlen in Hlt.
    pose proof (Hseq j (Node_id nd)) as Hid.
    rewrite list_lookup_fmap, Hj in Hid. specialize (Hid eq_refl).
    exists nd. split; [| reflexivity].
    assert (Hpos : size_sub (Node_id nd) 1 = N.of_nat j).
    { apply size_sub_1_eq; [| | exact Hid];
        unfold numNodes in *; lia. }
    unfold node_at. rewrite Hpos, Nat2N.id. exact Hj.
  - assert (Hlookup : lookup_complete m').
    { apply (after_nodes_keeps_lookup st2 _ _ Hafter2).
      apply Hcomplete. congruence. }
    destruct (Hlookup nd Hnd) as (p & nd' & Hp & Hat & Hid).
    exists nd'. rewrite Hp. simpl. auto.
Qed.

Lemma read_adcirc_element_count (disk : gmap string File)
    (format : MeshFormat) (m m' : Mesh) :
  m_filename m <> "" ->
  is_Some (disk !! m_filename m) ->
  selects_adcirc format (m_filename m) ->
  read disk format m = (Ok tt, m') ->
  length (m_elements m') = N.to_nat (numElements m').
Proof.
  intros Hname Hfile Hformat Hread.
  destruct (read_adcirc_sections disk format m m' Hname Hfile Hformat Hread)
    as (st1 & st2 & st3 & st4 & st5 & _ & _ & Helements & _ & _
        & _ & _ & Hafter3 & _).
  destruct (readAdcircElements_shape _ _ _ Helements) as (Hlen3 & Hne3).
  pose proof (after_elements_keeps_elements _ _ _ _ st3 _ _ Hafter3
                (conj eq_refl (conj eq_refl (conj eq_refl eq_refl))))
    as (Kes & Kne & _).
  simpl in Kes, Kne. unfold numElements in *.
  rewrite Kes, Kne, Hlen3, Hne3. reflexivity.
Qed.

Lemma resolved_row (m : Mesh) (n row : list N) :
  Forall (fun k => exists nd, node_at m (node_position m k) = Some nd
                              /\ Node_id nd = k) n ->
  Forall2 (fun p id => exists nd, node_at m p = Some nd /\ Node_id nd = id)
          (node_position m <$> n) row ->
  row = n.
Proof.
  revert row. induction n as [| k n IH]; intros row Hres Hrow.
  - apply Forall2_nil_inv_l in Hrow. exact Hrow.
  - simpl in Hrow.
    apply Forall2_cons_inv_l in Hrow as (id & row' & Hid & Hrow' & ->).
    apply Forall_cons in Hres as [(nd & Hnd & Hk) Hres].
    destruct Hid as (nd' & Hnd' & Hid').
    rewrite Hnd in Hnd'. injection Hnd' as <-.
    f_equal; [congruence | apply IH; assumption].
Qed.

(** X21. Reading a native-ASCII file and asking for the connectivity
    table gives back the node identifiers of the element lines.  When the
    file holds the lines its header announces and every element line
    names 3 or 4 identifiers of stored nodes, [connectivity()] succeeds on
    the mesh read and its row [i] is the list of node identifiers of
    element line [i], whether the node identifiers are sequential or
    resolved through the table. *)
Theorem connectivity_after_read (disk : gmap string File)
    (format : MeshFormat) (m m' : Mesh) (file : File) :
  m_filename m <> "" ->
  disk !! m_filename m = Some file ->
  selects_adcirc format (m_filename m) ->
  read disk format m = (Ok tt, m') ->
  (2 + N.to_nat (numNodes m') + N.to_nat (numElements m')
   <= length (file_lines file))%nat ->
  numNodes m' < SIZE_MODULUS ->
  Forall (fun nd => Node_id nd < SIZE_MODULUS) (m_nodes m') ->
  (forall i id n, i < numElements m' ->
     IO_splitStringElemFormat
       (line_of file (2 + N.to_nat (numNodes m') + N.to_nat i))
     = Some (id, n) ->
     triangle_or_quad n /\
     Forall (fun k => exists nd, nd ∈ m_nodes m' /\ Node_id nd = k) n) ->
  exists rows,
    connectivity m' = (Ok rows, m') /\
    length rows = N.to_nat (numElements m') /\
    forall i id n, i < numElements m' ->
      IO_splitStringElemFormat
        (line_of file (2 + N.to_nat (numNodes m') + N.to_nat i))
      = Some (id, n) ->
      rows !! N.to_nat i = Some n.
Proof.
  intros Hname Hfile Hformat Hread Hlines Hcount Hids Hwell.
  pose proof (ex_intro (fun f => disk !! m_filename m = Some f) file Hfile)
    as Hsome.
  destruct (read_adcirc_element_section disk format m m' file
              Hname Hfile Hformat Hread Hlines) as [Hall _].
  pose proof (read_adcirc_element_count disk format m m'
                Hname Hsome Hformat Hread) as Hlen.
  pose proof (read_node_position_resolves disk format m m'
                Hname Hsome Hformat Hread Hcount Hids) as Hres.
  (* every identifier of a well-formed line is resolved *)
  assert (Hline : forall (i : nat), (i < N.to_nat (numElements m'))%nat ->
            exists id n,
              IO_splitStringElemFormat
                (line_of file (2 + N.to_nat (numNodes m') + i))
              = Some (id, n) /\
              m_elements m' !! i
              = Some (mkElement id (node_position m' <$> n)) /\
              Forall (fun k => exists nd,
                        node_at m' (node_position m' k) = Some nd
                        /\ Node_id nd = k) n).
  { intros i Hi. destruct (Hall i Hi) as (id & n & Hparse & Ht & _).
    destruct (Hwell (N.of_nat i) id n) as [Htaq Hstored];
      [lia | rewrite Nat2N.id; exact Hparse |].
    exists id, n. split; [exact Hparse |]. split; [apply Ht, Htaq |].
    apply Forall_forall. intros k Hk.
    rewrite Forall_forall in Hstored.
    destruct (Hstored k Hk) as (nd & Hnd & <-).
    apply Hres, Hnd. }
  destruct (connectivity_loop m' (m_elements m') []) as (rows & Hrun & Hrows).
  { intros e p He Hp. apply list_elem_of_lookup in He as [i Hi].
    pose proof (lookup_lt_Some _ _ _ Hi) as Hlt. rewrite Hlen in Hlt.
    destruct (Hline i Hlt) as (id & n & _ & He & Hok).
    rewrite Hi in He. injection He as ->. simpl in Hp.
    apply list_elem_of_fmap in Hp as (k & -> & Hk).
    rewrite Forall_forall in Hok.
    destruct (Hok k Hk) as (nd & Hnd & _). exists nd. exact Hnd. }
  exists rows. split; [| split].
  - unfold connectivity. rewrite bind_unfold. unfold gets at 1. exact Hrun.
  - rewrite <- Hlen. symmetry. eapply Forall2_length, Hrows.
  - intros i id n Hi Hparse.
    destruct (Hline (N.to_nat i)) as (id' & n' & Hparse' & He & Hok); [lia |].
    rewrite Hparse in Hparse'. injection Hparse' as <- <-.
    destruct (Forall2_lookup_l _ _ _ _ _ Hrows He) as (row & Hrow & Hids').
    simpl in Hids'. rewrite Hrow. f_equal.
    apply (resolved_row m'); assumption.
Qed.

(** ** What the link table holds *)

Lemma omap_length_total {A B} (f : A -> option B) (l : list A) :
  (forall a, a ∈ l -> is_Some (f a)) -> length (omap f l) = length l.
Proof.
  induction l as [| a l IH]; intros Hall; simpl; [reflexivity |].
  destruct (Hall a) as [b Hb]; [left |]. rewrite Hb. simpl.
  f_equal. apply IH. intros a' Ha'. apply Hall. right. exact Ha'.
Qed.

Lemma element_legs_length (e : Element) :
  length (element_legs e) = length (Element_nodes e).
Proof.
  unfold element_legs. rewrite omap_length_total.
  - apply length_seq.
  - intros j Hj. apply elem_of_seq in Hj.
    destruct (Element_elementLeg_Some e j) as (a & b & Hab & _); [lia |].
    rewrite Hab. eexists. reflexivity.
Qed.

Lemma link_candidates_length (m : Mesh) :
  reordering_permutes m ->
  length (link_candidates m)
  = sum_list ((fun e => length (Element_nodes e)) <$> m_elements m).
Proof.
  intros Hsort. unfold link_candidates.
  induction (m_elements m) as [| e es IH]; [reflexivity |].
  rewrite !fmap_cons. cbn [concat sum_list_with].
  rewrite length_app, length_fmap, element_legs_length, IH.
  rewrite (Permutation_length (Hsort e)). reflexivity.
Qed.

(** X22. On a mesh whose elements point at stored nodes,
    [generateLinkTable()] returns exactly the legs of the elements: a pair
    is in the table if and only if it is a leg of some stored element,
    taken with the node of smaller identifier first.  The table comes out
    in ascending order of the pointer pairs, and holds no more pairs than
    the elements have vertices. *)
Theorem generateLinkTable_covers_element_legs (m : Mesh) :
  reordering_permutes m -> vertices_valid m ->
  exists links,
    generateLinkTable m = (Ok links, m) /\
    (forall x, x ∈ links <->
       exists e p, e ∈ m_elements m
         /\ p ∈ element_legs
                  (Element_sortVerticiesAboutCenter (m_nodes m) e)
         /\ x = canonical_leg m p) /\
    StronglySorted (fun a b => pair_lt a b = true) links /\
    (length links
     <= sum_list ((fun e => length (Element_nodes e)) <$> m_elements m))%nat.
Proof.
  intros Hsort Hvalid.
  exists (std_set_of_range (link_candidates m)).
  split; [apply generateLinkTable_eval; assumption |].
  split; [| split].
  - intros x. rewrite std_set_of_range_elem. apply link_candidates_elem.
  - apply std_set_of_range_sorted.
  - rewrite <- link_candidates_length by exact Hsort.
    apply submseteq_length, NoDup_submseteq.
    + apply std_set_of_range_NoDup.
    + intros x. rewrite std_set_of_range_elem. auto.
Qed.

(** ** Boundaries by position *)

(** X20. When the stored boundary counts are the sizes of the boundary
    vectors, [openBoundary(index)] and [landBoundary(index)] return the
    pointer to the boundary stored at [index] for every [index] below the
    count, and throw the out-of-bounds exception, leaving the mesh as it
    was, for every [index] at or above the count. *)
Theorem boundary_by_position (m : Mesh) (index : N) :
  counts_match_storage m ->
  (index < numOpenBoundaries m ->
     openBoundary index m = (Ok index, m)
     /\ is_Some (m_openBoundaries m !! N.to_nat index)) /\
  (numOpenBoundaries m <= index ->
     openBoundary index m
     = (Throw "Mesh: Open boundary index out of bounds", m)) /\
  (index < numLandBoundaries m ->
     landBoundary index m = (Ok index, m)
     /\ is_Some (m_landBoundaries m !! N.to_nat index)) /\
  (numLandBoundaries m <= index ->
     landBoundary index m
     = (Throw "Mesh: Land boundary index out of bounds", m)).
Proof.
  intros (_ & _ & Ho & Hl). unfold openBoundary, landBoundary.
  rewrite !bind_unfold. unfold gets. simpl.
  repeat split.
  - rewrite bool_decide_eq_true_2 by assumption. reflexivity.
  - apply lookup_lt_is_Some_2. lia.
  - intros Hge. rewrite bool_decide_eq_false_2 by lia. reflexivity.
  - rewrite bool_decide_eq_true_2 by assumption. reflexivity.
  - apply lookup_lt_is_Some_2. lia.
  - intros Hge. rewrite bool_decide_eq_false_2 by lia. reflexivity.
Qed.

(** ** What a failed read leaves *)

(** A computation that throws does so in its first part, or in what follows
    once the first part has succeeded. *)
Lemma bind_inv_Throw {S A B} (c : M S A) (k : A -> M S B) s msg s2 :
  (c ≫= k) s = (Throw msg, s2) ->
  c s = (Throw msg, s2)
  \/ exists a s1, c s = (Ok a, s1) /\ k a s1 = (Throw msg, s2).
Proof.
  rewrite bind_unfold. destruct (c s) as [[a | msg' |] s1]; intros Hrun.
  - right. exists a, s1. auto.
  - left. injection Hrun as -> ->. reflexivity.
  - discriminate.
Qed.

(** The header reader throws before it records the node count, and, when
    the first count does not parse, before it records the element
    count. *)
Lemma readAdcircMeshHeader_Throw (m : Mesh) (f : fstream) (msg : string)
    (st : Mesh * fstream) :
  readAdcircMeshHeader (m, f) = (Throw msg, st) ->
  exists h, st.1 = setMeshHeaderString h m
            \/ exists ne, st.1 = setNumElements ne (setMeshHeaderString h m).
Proof.
  unfold readAdcircMeshHeader. rewrite bind_unfold.
  unfold std_getline at 1. destruct (getline "" f) as [h f1].
  rewrite bind_unfold. simpl.
  rewrite bind_unfold. unfold std_getline at 1.
  destruct (getline h f1) as [line f2]. cbv zeta.
  intros Hrun. exists h.
  destruct (IO_splitString line) as [| a [| b rest]].
  - rewrite bind_unfold in Hrun. simpl in Hrun. discriminate.
  - rewrite bind_unfold in Hrun. simpl in Hrun.
    destruct (StringConversion_stringToSizet a) as [ne [|]].
    + rewrite bind_unfold in Hrun. simpl in Hrun.
      rewrite bind_unfold in Hrun. simpl in Hrun.
      rewrite bind_unfold in Hrun. simpl in Hrun. discriminate.
    + rewrite bind_unfold in Hrun. simpl in Hrun.
      injection Hrun as _ <-. left. reflexivity.
  - rewrite bind_unfold in Hrun. simpl in Hrun.
    destruct (StringConversion_stringToSizet a) as [ne [|]].
    + rewrite bind_unfold in Hrun. simpl in Hrun.
      rewrite bind_unfold in Hrun. simpl in Hrun.
      rewrite bind_unfold in Hrun. simpl in Hrun.
      destruct (StringConversion_stringToSizet b) as [nn [|]].
      * rewrite bind_unfold in Hrun. simpl in Hrun. discriminate.
      * rewrite bind_unfold in Hrun. simpl in Hrun.
        injection Hrun as _ <-. right. exists ne. reflexivity.
    + rewrite bind_unfold in Hrun. simpl in Hrun.
      injection Hrun as _ <-. left. reflexivity.
Qed.

(** Without an announced element, the element section throws nothing. *)
Lemma readAdcircElements_no_element (st : Mesh * fstream) :
  numElements st.1 = 0 ->
  exists r st', readAdcircElements st = (r, st')
                /\ forall msg, r <> Throw msg.
Proof.
  destruct st as [m f]. simpl. intros Hzero.
  unfold readAdcircElements. rewrite bind_unfold. simpl.
  rewrite bind_unfold. simpl. rewrite Hzero.
  change (N.to_nat 0) with 0%nat. rewrite resize_0.
  rewrite bind_unfold. simpl.
  rewrite bind_unfold.
  assert (Hloop : forall (b : bool) s,
            (if b
             then for_range_with (length (@nil Element)) 0 ""
                    readAdcircElements_logical
             else for_range_with (length (@nil Element)) 0 ""
                    readAdcircElements_lookup) s = (Ok "", s))
    by (intros [|] s; reflexivity).
  rewrite Hloop. rewrite bind_unfold. simpl.
  destruct (m_elementOrderingLogical m); simpl.
  - eexists _, _. split; [reflexivity | discriminate].
  - unfold build_elementLookup. rewrite bind_unfold. simpl.
    unfold numElements in Hzero. rewrite Hzero. simpl.
    eexists _, _. split; [reflexivity | discriminate].
Qed.

(** What the sections after the node section never touch. *)
Lemma readAdcircElements_keeps (ns : list Node) (n : N)
    (obs lbs : list Boundary) (no nl : N) :
  preserves (of_mesh (fun x => m_nodes x = ns /\ m_numNodes x = n
                               /\ m_openBoundaries x = obs
                               /\ m_landBoundaries x = lbs
                               /\ m_numOpenBoundaries x = no
                               /\ m_numLandBoundaries x = nl))
            readAdcircElements.
Proof. unfold readAdcircElements. frame; assumption. Qed.

Lemma readAdcircOpenBoundaries_keeps (ns : list Node) (n : N)
    (es : list Element) (ne : N) (lbs : list Boundary) (nl : N) :
  preserves (of_mesh (fun x => m_nodes x = ns /\ m_numNodes x = n
                               /\ m_elements x = es /\ m_numElements x = ne
                               /\ m_landBoundaries x = lbs
                               /\ m_numLandBoundaries x = nl))
            readAdcircOpenBoundaries.
Proof. unfold readAdcircOpenBoundaries. frame; assumption. Qed.

Lemma readAdcircLandBoundaries_keeps (ns : list Node) (n : N)
    (es : list Element) (ne : N) (obs : list Boundary) (no : N) :
  preserves (of_mesh (fun x => m_nodes x = ns /\ m_numNodes x = n
                               /\ m_elements x = es /\ m_numElements x = ne
                               /\ m_openBoundaries x = obs
                               /\ m_numOpenBoundaries x = no))
            readAdcircLandBoundaries.
Proof. unfold readAdcircLandBoundaries. frame; assumption. Qed.

Lemma readAdcircNodes_keeps_boundaries (obs lbs : list Boundary) (no nl : N) :
  preserves (of_mesh (fun x => m_openBoundaries x = obs
                               /\ m_landBoundaries x = lbs
                               /\ m_numOpenBoundaries x = no
                               /\ m_numLandBoundaries x = nl))
            readAdcircNodes.
Proof. unfold readAdcircNodes. frame; assumption. Qed.

(** The state that [_init] leaves. *)
Lemma _init_later_sections_empty (m : Mesh) :
  m_nodes (_init m) = [] /\ later_sections_empty (_init m) /\
  numNodes (_init m) = 0 /\ numElements (_init m) = 0 /\
  numOpenBoundaries (_init m) = 0 /\ numLandBoundaries (_init m) = 0.
Proof. unfold _init, later_sections_empty. repeat split. Qed.

(** C4, as the code has it.  [read()] wipes the mesh before the reader of
    the format starts and never again: a native-ASCII read throws an
    exception and leaves a mesh exactly when one of its sections throws
    that exception and leaves that mesh, the sections before it having
    run to their end.  A failure in the header leaves no
    record and no node count; the element count is already recorded when
    it is the node count that does not parse.  After the header, the two
    counts it announced stay recorded and the node vector has the
    announced size.  A failure on a node record leaves the element and
    boundary collections empty; a failure on an element record keeps the
    nodes read and an element vector of the announced size; a failure in
    the open boundaries keeps the elements read as well, and a failure in
    the land boundaries also the open boundaries read.  Whenever the
    header announced a node or an element, the mesh left is not in the
    freshly-cleared state.  (Storage for an announced count is taken to be
    available.) *)
Theorem read_failure_keeps_partial_mesh (disk : gmap string File)
    (format : MeshFormat) (m m' : Mesh) (msg : string) :
  m_filename m <> "" ->
  is_Some (disk !! m_filename m) ->
  selects_adcirc format (m_filename m) ->
  let start := (_init m, fstream_open disk (m_filename m)) in
  read disk format m = (Throw msg, m')
  <->
  ((exists st,
      readAdcircMeshHeader start = (Throw msg, st) /\ st.1 = m' /\
      numNodes m' = 0 /\ m_nodes m' = [] /\ later_sections_empty m' /\
      (numElements m' = 0 -> freshly_cleared m'))
   \/
   exists st1,
    readAdcircMeshHeader start = (Ok tt, st1) /\
    numNodes m' = numNodes st1.1 /\
    numElements m' = numElements st1.1 /\
    length (m_nodes m') = N.to_nat (numNodes m') /\
    (0 < numNodes m' \/ 0 < numElements m' -> ~ freshly_cleared m') /\
    ((exists st,
        readAdcircNodes st1 = (Throw msg, st) /\ st.1 = m' /\
        0 < numNodes m' /\ later_sections_empty m')
     \/
     exists st2,
       readAdcircNodes st1 = (Ok tt, st2) /\
       m_nodes m' = m_nodes st2.1 /\
       length (m_elements m') = N.to_nat (numElements m') /\
       ((exists st,
           readAdcircElements st2 = (Throw msg, st) /\ st.1 = m' /\
           0 < numElements m' /\
           m_openBoundaries m' = [] /\ m_landBoundaries m' = [])
        \/
        exists st3,
          readAdcircElements st2 = (Ok tt, st3) /\
          m_elements m' = m_elements st3.1 /\
          ((exists st,
              readAdcircOpenBoundaries st3 = (Throw msg, st) /\ st.1 = m' /\
              m_landBoundaries m' = [])
           \/
           exists st4 st,
             readAdcircOpenBoundaries st3 = (Ok tt, st4) /\
             readAdcircLandBoundaries st4 = (Throw msg, st) /\ st.1 = m' /\
             m_openBoundaries m' = m_openBoundaries st4.1 /\
             length (m_openBoundaries m')
             = N.to_nat (numOpenBoundaries m'))))).
Proof.
  intros Hname Hfile Hformat start. split; [intros Hread | intros Hcase].
  2: {
    rewrite read_adcirc_unfold by assumption. fold start.
    unfold readAdcircMesh_sections.
    destruct Hcase
      as [(st & Hh & <- & _)
         | (st1 & Hh & _ & _ & _ & _ &
            [(st & Hn & <- & _)
            | (st2 & Hn & _ & _ &
               [(st & He & <- & _)
               | (st3 & He & _ &
                  [(st & Ho & <- & _)
                  | (st4 & st & Ho & Hl & <- & _)])])])].
    - rewrite (bind_Throw _ _ _ _ _ Hh). destruct st; reflexivity.
    - rewrite (bind_Ok _ _ _ _ _ Hh), (bind_Throw _ _ _ _ _ Hn).
      destruct st; reflexivity.
    - rewrite (bind_Ok _ _ _ _ _ Hh), (bind_Ok _ _ _ _ _ Hn),
        (bind_Throw _ _ _ _ _ He).
      destruct st; reflexivity.
    - rewrite (bind_Ok _ _ _ _ _ Hh), (bind_Ok _ _ _ _ _ Hn),
        (bind_Ok _ _ _ _ _ He), (bind_Throw _ _ _ _ _ Ho).
      destruct st; reflexivity.
    - rewrite (bind_Ok _ _ _ _ _ Hh), (bind_Ok _ _ _ _ _ Hn),
        (bind_Ok _ _ _ _ _ He), (bind_Ok _ _ _ _ _ Ho),
        (bind_Throw _ _ _ _ _ Hl).
      destruct st; reflexivity. }
  rewrite read_adcirc_unfold in Hread by assumption.
  fold start in Hread.
  destruct (readAdcircMesh_sections start) as [r [mf ff]] eqn:Hrun.
  injection Hread as -> ->.
  destruct (_init_later_sections_empty m)
    as (Hn0 & (He0 & Ho0 & Hl0) & Hnn0 & Hne0 & Hno0 & Hnl0).
  assert (Hnot : forall x : Mesh,
            0 < numNodes x \/ 0 < numElements x -> ~ freshly_cleared x).
  { intros x Hpos (Hzn & Hze & _). lia. }
  unfold readAdcircMesh_sections in Hrun.
  apply bind_inv_Throw in Hrun as [Hheader | ([] & st1 & Hheader & Hrun)].
  { (* the header *)
    left. exists (m', ff). split; [exact Hheader |]. split; [reflexivity |].
    destruct (readAdcircMeshHeader_Throw _ _ _ _ Hheader) as (h & Hcase).
    simpl in Hcase.
    assert (Hshape : numNodes m' = 0 /\ m_nodes m' = [] /\
                     later_sections_empty m' /\
                     numOpenBoundaries m' = 0 /\ numLandBoundaries m' = 0).
    { destruct Hcase as [-> | (ne & ->)];
        unfold later_sections_empty; simpl; auto 10. }
    destruct Hshape as (Hzn & Hns & (Hes & Hos & Hls) & Hzo & Hzl).
    split; [exact Hzn |]. split; [exact Hns |].
    split; [split; [| split]; assumption |].
    intros Hze. unfold freshly_cleared. auto 10. }
  right. exists st1. split; [exact Hheader |].
  pose proof (readAdcircMeshHeader_later_sections _ _ _ Hheader
                (conj He0 (conj Ho0 Hl0))) as Hlater1.
  assert (Hcounts1 : m_numOpenBoundaries st1.1 = 0
                     /\ m_numLandBoundaries st1.1 = 0).
  { assert (Hpres : preserves
                      (of_mesh (fun x => m_numOpenBoundaries x = 0
                                         /\ m_numLandBoundaries x = 0))
                      readAdcircMeshHeader)
      by (unfold readAdcircMeshHeader; frame; assumption).
    apply (Hpres _ _ _ Hheader). split; assumption. }
  apply bind_inv_Throw in Hrun as [Hnodes | ([] & st2 & Hnodes & Hrun)].
  { (* a node record *)
    destruct (readAdcircNodes_shape _ _ _ Hnodes)
      as (Hlen & Hnn & Hne & Hkeep).
    simpl in Hlen, Hnn, Hne, Hkeep.
    assert (Hpos : 0 < numNodes m').
    { rewrite Hnn. apply N.neq_0_lt_0. intros Hzero.
      destruct (readAdcircNodes_no_node st1 Hzero) as (r & st' & Hr & Hno).
      rewrite Hnodes in Hr. injection Hr as <- <-. exact (Hno msg eq_refl). }
    split; [exact Hnn |]. split; [exact Hne |].
    split; [rewrite Hlen, Hnn; reflexivity |].
    split; [apply Hnot |].
    left. exists (m', ff). auto. }
  destruct (readAdcircNodes_shape _ _ _ Hnodes)
    as (Hlen2 & Hnn2 & Hne2 & Hkeep2).
  pose proof (Hkeep2 Hlater1) as (He2 & _).
  pose proof (readAdcircNodes_keeps_boundaries _ _ _ _ st1 _ _ Hnodes
                (conj eq_refl (conj eq_refl (conj eq_refl eq_refl))))
    as (Ho2 & Hl2 & Hno2 & Hnl2).
  simpl in Ho2, Hl2, Hno2, Hnl2.
  destruct Hlater1 as (_ & Ho1 & Hl1). destruct Hcounts1 as [Hno1 Hnl1].
  rewrite Ho1 in Ho2. rewrite Hl1 in Hl2.
  rewrite Hno1 in Hno2. rewrite Hnl1 in Hnl2.
  apply bind_inv_Throw in Hrun as [Helems | ([] & st3 & Helems & Hrun)].
  { (* an element record *)
    destruct (readAdcircElements_shape _ _ _ Helems) as [Hlen3 Hne3].
    pose proof (readAdcircElements_keeps _ _ _ _ _ _ st2 _ _ Helems
                  (conj eq_refl (conj eq_refl (conj Ho2 (conj Hl2
                     (conj Hno2 Hnl2))))))
      as (Kns & Knn & Kos & Kls & _).
    simpl in Hlen3, Hne3, Kns, Knn, Kos, Kls.
    assert (Hpos : 0 < numElements m').
    { rewrite Hne3. apply N.neq_0_lt_0. intros Hzero.
      destruct (readAdcircElements_no_element st2 Hzero)
        as (r & st' & Hr & Hno).
      rewrite Helems in Hr. injection Hr as <- <-.
      exact (Hno msg eq_refl). }
    assert (Hnn : numNodes m' = numNodes st1.1)
      by (unfold numNodes in *; congruence).
    split; [exact Hnn |].
    split; [congruence |].
    split; [rewrite Kns, Hlen2, Hnn; reflexivity |].
    split; [apply Hnot |].
    right. exists st2. split; [exact Hnodes |]. split; [exact Kns |].
    split; [rewrite Hlen3, Hne3; reflexivity |].
    left. exists (m', ff). auto 10. }
  destruct (readAdcircElements_shape _ _ _ Helems) as [Hlen3 Hne3].
  pose proof (readAdcircElements_keeps _ _ _ _ _ _ st2 _ _ Helems
                (conj eq_refl (conj eq_refl (conj Ho2 (conj Hl2
                   (conj Hno2 Hnl2))))))
    as (Kns3 & Knn3 & Kos3 & Kls3 & Kno3 & Knl3).
  simpl in Kns3, Knn3, Kos3, Kls3, Kno3, Knl3.
  apply bind_inv_Throw in Hrun as [Hopen | ([] & st4 & Hopen & Hrun)].
  { (* an open boundary *)
    pose proof (readAdcircOpenBoundaries_keeps _ _ _ _ _ _ st3 _ _ Hopen
                  (conj eq_refl (conj eq_refl (conj eq_refl (conj eq_refl
                     (conj Kls3 Knl3))))))
      as (Kns & Knn & Kes & Kne & Kls & _).
    simpl in Kns, Knn, Kes, Kne, Kls.
    assert (Hnn : numNodes m' = numNodes st1.1)
      by (unfold numNodes in *; congruence).
    assert (Hne : numElements m' = numElements st1.1)
      by (unfold numElements in *; congruence).
    split; [exact Hnn |]. split; [exact Hne |].
    split; [rewrite Kns, Kns3, Hlen2, Hnn; reflexivity |].
    split; [apply Hnot |].
    right. exists st2. split; [exact Hnodes |].
    split; [congruence |].
    split; [rewrite Kes, Hlen3, Hne, Hne2; reflexivity |].
    right. exists st3. split; [exact Helems |]. split; [exact Kes |].
    left. exists (m', ff). auto. }
  pose proof (readAdcircOpenBoundaries_keeps _ _ _ _ _ _ st3 _ _ Hopen
                (conj eq_refl (conj eq_refl (conj eq_refl (conj eq_refl
                   (conj Kls3 Knl3))))))
    as (Kns4 & Knn4 & Kes4 & Kne4 & Kls4 & Knl4).
  simpl in Kns4, Knn4, Kes4, Kne4, Kls4, Knl4.
  pose proof (readAdcircOpenBoundaries_Ok _ _ Hopen) as Hlen4.
  apply bind_inv_Throw in Hrun as [Hland | ([] & st5 & Hland & Hrun)].
  { (* a land boundary *)
    pose proof (readAdcircLandBoundaries_keeps _ _ _ _ _ _ st4 _ _ Hland
                  (conj eq_refl (conj eq_refl (conj eq_refl (conj eq_refl
                     (conj eq_refl eq_refl))))))
      as (Kns & Knn & Kes & Kne & Kos & Kno).
    simpl in Kns, Knn, Kes, Kne, Kos, Kno.
    assert (Hnn : numNodes m' = numNodes st1.1)
      by (unfold numNodes in *; congruence).
    assert (Hne : numElements m' = numElements st1.1)
      by (unfold numElements in *; congruence).
    split; [exact Hnn |]. split; [exact Hne |].
    split; [rewrite Kns, Kns4, Kns3, Hlen2, Hnn; reflexivity |].
    split; [apply Hnot |].
    right. exists st2. split; [exact Hnodes |].
    split; [congruence |].
    split; [rewrite Kes, Kes4, Hlen3, Hne, Hne2; reflexivity |].
    right. exists st3. split; [exact Helems |]. split; [congruence |].
    right. exists st4, (m', ff). split; [exact Hopen |].
    split; [exact Hland |]. split; [reflexivity |].
    split; [exact Kos |].
    rewrite Kos, Hlen4. unfold numOpenBoundaries. rewrite Kno.
    reflexivity. }
  destruct st5 as [m5 f5]. discriminate Hrun.
Qed.

(** ** Lookup by the identifiers of the input *)

(** Every node line of a file that holds the lines its header announces
    is parsed, and the node it describes is stored at its position. *)
Lemma read_node_lines_stored (disk : gmap string File)
    (format : MeshFormat) (m m' : Mesh) (file : File) :
  m_filename m <> "" ->
  disk !! m_filename m = Some file ->
  selects_adcirc format (m_filename m) ->
  read disk format m = (Ok tt, m') ->
  (2 + N.to_nat (numNodes m') <= length (file_lines file))%nat ->
  forall i, i < numNodes m' ->
    exists id x y z,
      IO_splitStringNodeFormat (line_of file (2 + N.to_nat i))
      = Some (id, x, y, z)
      /\ node_at m' i = Some (mkNode id x y z).
Proof.
  intros Hname Hfile Hformat Hread Hlines.
  destruct (read_adcirc_sections disk format m m' Hname
              (ex_intro _ file Hfile) Hformat Hread)
    as (st1 & st2 & st3 & st4 & st5 & Hheader & Hnodes & _ & _ & _
        & _ & Hafter2 & _ & _).
  destruct (readAdcircMeshHeader_decoded (file_lines file) _ _ st1
              (stream_at_open _ _ _ Hfile) ltac:(lia) Hheader)
    as (Hst1 & a & b & rest & ne & nn & Hsplit & Ha & Hb & Hm1).
  pose proof (header_fields_kept_by_nodes _ _ _ st1 _ _ Hnodes
                (conj eq_refl (conj eq_refl eq_refl))) as Hk2.
  pose proof (header_fields_kept_after_nodes _ _ _ st2 _ _ Hafter2 Hk2)
    as (_ & _ & Knn).
  pose proof (after_nodes_keeps_nodes _ _ st2 _ _ Hafter2
                (conj eq_refl eq_refl)) as [Kns _].
  simpl in Knn, Kns. rewrite Hm1 in Knn. simpl in Knn.
  assert (Hnn1 : numNodes st1.1 = numNodes m')
    by (rewrite Hm1; unfold numNodes; simpl; congruence).
  destruct (readAdcircNodes_decoded (file_lines file) 2 st1 st2 Hst1)
    as [_ Hall]; [rewrite Hnn1; exact Hlines | exact Hnodes |].
  intros i Hi. unfold node_at, line_of. rewrite Kns.
  apply Hall. rewrite Hnn1. lia.
Qed.

(** C5. After a native-ASCII read that found the node identifiers not
    sequential, of a file that holds the node lines its header announces:
    every node line is parsed and the node it describes is stored at the
    position of the line; [nodeById(id)], for the identifier [id] of any
    of these lines, throws nothing, leaves the mesh as it was and returns
    a pointer to a stored node whose identifier is [id], which is the
    node of that very line when no two stored nodes share an
    identifier. *)
Theorem nodeById_after_shuffled_read (disk : gmap string File)
    (format : MeshFormat) (m m' : Mesh) (file : File) :
  m_filename m <> "" ->
  disk !! m_filename m = Some file ->
  selects_adcirc format (m_filename m) ->
  read disk format m = (Ok tt, m') ->
  nodeOrderingIsLogical m' = false ->
  (2 + N.to_nat (numNodes m') <= length (file_lines file))%nat ->
  forall i, i < numNodes m' ->
    exists id x y z p nd,
      IO_splitStringNodeFormat (line_of file (2 + N.to_nat i))
      = Some (id, x, y, z)
      /\ node_at m' i = Some (mkNode id x y z)
      /\ nodeById id m' = (Ok p, m')
      /\ node_at m' p = Some nd
      /\ Node_id nd = id
      /\ (identifiers_unique m' -> p = i).
Proof.
  intros Hname Hfile Hformat Hread Hflag Hlines i Hi.
  destruct (read_node_lines_stored disk format m m' file
              Hname Hfile Hformat Hread Hlines i Hi)
    as (id & x & y & z & Hline & Hstored).
  assert (Hsome : is_Some (disk !! m_filename m)) by (eexists; exact Hfile).
  destruct (read_adcirc_Ok disk format m m' Hname Hsome Hformat Hread)
    as (st1 & st2 & f' & _ & Hnodes & Hafter).
  destruct (readAdcircNodes_Ok st1 st2 Hnodes) as (_ & _ & Hcomplete).
  assert (Hflag2 : m_nodeOrderingLogical st2.1 = false).
  { destruct (m_nodeOrderingLogical st2.1) eqn:E; [| reflexivity].
    pose proof (after_nodes_keeps_node_flag true st2 _ _ Hafter E) as Hkeep.
    unfold of_mesh in Hkeep. simpl in Hkeep.
    unfold nodeOrderingIsLogical in Hflag. congruence. }
  pose proof (after_nodes_keeps_lookup st2 _ _ Hafter (Hcomplete Hflag2))
    as Hm'.
  destruct (Hm' (mkNode id x y z)) as (p & nd & Hp & Hat & Hid).
  { eapply list_elem_of_lookup_2. exact Hstored. }
  simpl in Hp, Hid.
  exists id, x, y, z, p, nd.
  split; [exact Hline |]. split; [exact Hstored |].
  split; [apply nodeById_indexed; assumption |].
  split; [exact Hat |]. split; [exact Hid |].
  intros Hunique. apply (Hunique p i nd (mkNode id x y z) Hat Hstored).
  exact Hid.
Qed.

(** ** Reprojection *)

Section ReprojectionProperties.
Context `{!ProjectionLib}.

Lemma node_Ok (m : Mesh) (i : N) :
  i < numNodes m -> node i m = (Ok i, m).
Proof.
  intros Hi. unfold node. rewrite bind_unfold. unfold gets.
  rewrite bool_decide_eq_true_2 by exact Hi. reflexivity.
Qed.

Lemma node_apply_Ok (m : Mesh) (p : NodePtr) (f : Node -> Node) nd :
  m_nodes m !! N.to_nat p = Some nd ->
  node_apply p f m = (Ok tt, store_node p (f nd) m).
Proof.
  intros Hnd. unfold node_apply, node_deref.
  rewrite !bind_unfold. unfold gets. unfold vector_at. rewrite Hnd.
  reflexivity.
Qed.

Lemma reproject_node_Ok (out : list Point) (i : N) (m : Mesh) nd o :
  i < numNodes m ->
  m_nodes m !! N.to_nat i = Some nd ->
  out !! N.to_nat i = Some o ->
  reproject_node out i m = (Ok tt, store_node i (moved nd o) m).
Proof.
  intros Hi Hnd Ho. unfold reproject_node.
  rewrite (bind_Ok _ _ _ _ _ (node_Ok m i Hi)).
  unfold vector_at. rewrite Ho.
  rewrite bind_unfold. cbn [mret M_ret].
  rewrite bind_unfold.
  rewrite (node_apply_Ok m i _ nd Hnd).
  set (m1 := store_node i _ m).
  assert (Hi1 : i < numNodes m1) by exact Hi.
  rewrite (bind_Ok _ _ _ _ _ (node_Ok m1 i Hi1)).
  rewrite bind_unfold. cbn [mret M_ret].
  assert (Hnd1 : m_nodes m1 !! N.to_nat i = Some (Node_setX o.1 nd)).
  { unfold m1, store_node. destruct m. simpl in *.
    apply list_lookup_insert_eq. eapply lookup_lt_Some, Hnd. }
  rewrite (node_apply_Ok m1 i _ _ Hnd1).
  unfold m1, store_node. destruct m; simpl. unfold set_m_nodes; simpl.
  rewrite list_insert_insert_eq. reflexivity.
Qed.

Lemma set_m_nodes_store_node v i x (m : Mesh) :
  set_m_nodes v (store_node i x m) = set_m_nodes v m.
Proof. destruct m; reflexivity. Qed.

Lemma set_m_nodes_same (m : Mesh) : set_m_nodes (m_nodes m) m = m.
Proof. destruct m; reflexivity. Qed.

Lemma reproject_loop (out : list Point) (k : nat) :
  forall (i : nat) (m : Mesh),
    (i + k <= length (m_nodes m))%nat ->
    (i + k <= length out)%nat ->
    N.of_nat (i + k) <= numNodes m ->
    for_range k (N.of_nat i) (reproject_node out) m
    = (Ok tt,
       set_m_nodes (take i (m_nodes m)
                    ++ zip_with moved (take k (drop i (m_nodes m)))
                                (drop i out)
                    ++ drop (i + k) (m_nodes m)) m).
Proof.
  induction k as [| k IH]; intros i m Hnodes Hout Hcount.
  - simpl. rewrite Nat.add_0_r, take_drop, set_m_nodes_same. reflexivity.
  - destruct (lookup_lt_is_Some_2 (m_nodes m) i ltac:(lia)) as [nd Hnd].
    destruct (lookup_lt_is_Some_2 out i ltac:(lia)) as [o Ho].
    cbn [for_range].
    assert (Hstep : reproject_node out (N.of_nat i) m
                    = (Ok tt, store_node (N.of_nat i) (moved nd o) m)).
    { apply reproject_node_Ok; rewrite ?Nat2N.id; [lia | assumption ..]. }
    rewrite (bind_Ok _ _ _ _ _ Hstep).
    replace (N.succ (N.of_nat i)) with (N.of_nat (S i)) by lia.
    set (m1 := store_node (N.of_nat i) (moved nd o) m).
    assert (Hn1 : m_nodes m1 = <[i := moved nd o]> (m_nodes m)).
    { unfold m1, store_node. rewrite Nat2N.id. destruct m; reflexivity. }
    rewrite (IH (S i) m1).
    + rewrite Hn1. unfold m1. rewrite set_m_nodes_store_node.
      f_equal. f_equal.
      rewrite (take_S_r _ i (moved nd o))
        by (apply list_lookup_insert_eq; eapply lookup_lt_Some, Hnd).
      rewrite take_insert_ge by lia.
      rewrite drop_insert_lt by lia.
      rewrite drop_insert_lt by lia.
      rewrite (drop_S (m_nodes m) nd i Hnd).
      rewrite (drop_S out o i Ho).
      cbn [take zip_with]. rewrite <- app_assoc. simpl.
      replace (i + S k)%nat with (S (i + k)) by lia. reflexivity.
    + rewrite Hn1, length_insert. lia.
    + lia.
    + replace (numNodes m1) with (numNodes m)
        by (unfold m1; destruct m; reflexivity).
      lia.
Qed.

Lemma reproject_loop_short (out : list Point) (k : nat) :
  forall (i : nat) (m : Mesh),
    (i + k <= length (m_nodes m))%nat ->
    (i <= length out < i + k)%nat ->
    N.of_nat (i + k) <= numNodes m ->
    (for_range k (N.of_nat i) (reproject_node out) m).1 = Undefined.
Proof.
  induction k as [| k IH]; intros i m Hnodes Hout Hcount; [lia |].
  cbn [for_range].
  destruct (decide (i < length out)%nat) as [Hin | Hend].
  - destruct (lookup_lt_is_Some_2 (m_nodes m) i ltac:(lia)) as [nd Hnd].
    destruct (lookup_lt_is_Some_2 out i Hin) as [o Ho].
    assert (Hstep : reproject_node out (N.of_nat i) m
                    = (Ok tt, store_node (N.of_nat i) (moved nd o) m)).
    { apply reproject_node_Ok; rewrite ?Nat2N.id; [lia | assumption ..]. }
    rewrite (bind_Ok _ _ _ _ _ Hstep).
    replace (N.succ (N.of_nat i)) with (N.of_nat (S i)) by lia.
    apply IH.
    + unfold store_node. rewrite Nat2N.id. destruct m; simpl in *.
      rewrite length_insert. lia.
    + lia.
    + replace (numNodes (store_node (N.of_nat i) (moved nd o) m))
        with (numNodes m) by (destruct m; reflexivity).
      lia.
  - rewrite bind_unfold. unfold reproject_node.
    rewrite (bind_Ok _ _ _ _ _ (node_Ok m (N.of_nat i) ltac:(lia))).
    rewrite bind_unfold. unfold vector_at.
    rewrite Nat2N.id, (lookup_ge_None_2 out i) by lia. reflexivity.
Qed.

(** X23. [reproject(epsg)] changes nothing when the projection library
    reports an error: it throws "Mesh: Proj4 library error" and the mesh
    is as it was.  When the library succeeds, returns a point for every
    node and stores the geographic flag, every node keeps its identifier
    and elevation and takes the coordinates of the point returned at its
    position, the mesh reports the new code, and neither the elements,
    the identifier table nor the two kd-trees are touched, so that a tree
    built before still indexes the previous coordinates.  When the library
    succeeds with fewer points than nodes, or without storing the flag,
    the behaviour is undefined. *)
Theorem reproject_replaces_coordinates (m : Mesh) (epsg ierr : Z)
    (out : list Point) (flag : option bool) :
  numNodes m = N.of_nat (length (m_nodes m)) ->
  Projection_transform (projection m) epsg
    ((fun nd => (Node_x nd, Node_y nd)) <$> m_nodes m)
    (replicate (N.to_nat (numNodes m)) Point_default)
  = (ierr, out, flag) ->
  (ierr <> Projection_NoError ->
     reproject epsg m = (Throw "Mesh: Proj4 library error", m)) /\
  (ierr = Projection_NoError ->
   (length (m_nodes m) <= length out)%nat ->
   forall b, flag = Some b ->
     exists m',
       reproject epsg m = (Ok tt, m') /\
       projection m' = epsg /\ isLatLon m' = b /\
       length (m_nodes m') = length (m_nodes m) /\
       (forall i nd, node_at m i = Some nd ->
          exists o, out !! N.to_nat i = Some o /\
            node_at m' i = Some (mkNode (Node_id nd) o.1 o.2 (Node_z nd))) /\
       numNodes m' = numNodes m /\
       m_elements m' = m_elements m /\
       m_nodeLookup m' = m_nodeLookup m /\
       m_nodalSearchTree m' = m_nodalSearchTree m /\
       m_elementalSearchTree m' = m_elementalSearchTree m) /\
  (ierr = Projection_NoError ->
   (length out < length (m_nodes m))%nat \/ flag = None ->
     (reproject epsg m).1 = Undefined).
Proof.
  intros Hcount Htransform.
  assert (Hrun : reproject epsg m
                 = (throw_if (bool_decide (ierr ≠ Projection_NoError))
                             "Mesh: Proj4 library error";;
                    n ← gets numNodes;
                    for_range (N.to_nat n) 0 (reproject_node out);;
                    match flag with
                    | Some b => modify (defineProjection epsg b)
                    | None => undefined_behaviour
                    end) m).
  { unfold reproject. cbv beta iota delta [mbind M_bind gets].
    rewrite Htransform. reflexivity. }
  rewrite Hrun. clear Hrun.
  split; [| split].
  - intros Herr. rewrite bind_unfold.
    rewrite bool_decide_eq_true_2 by exact Herr. reflexivity.
  - intros Herr Hlen b ->.
    rewrite bind_unfold, bool_decide_eq_false_2 by (intros Hne; apply Hne, Herr).
    cbn [throw_if mret M_ret]. rewrite bind_unfold. unfold gets at 1.
    cbn iota beta. rewrite bind_unfold.
    rewrite Hcount, Nat2N.id.
    pose proof (reproject_loop out (length (m_nodes m)) 0 m
                  ltac:(simpl; lia) ltac:(simpl; lia)
                  ltac:(rewrite Hcount; simpl; lia)) as Hloop.
    change (N.of_nat 0) with 0 in Hloop. rewrite Hloop.
    clear Hloop. cbn [take app Nat.add].
    rewrite !drop_0, firstn_all, drop_all, app_nil_r.
    eexists. split; [reflexivity |].
    destruct m; simpl in *. unfold projection, isLatLon, numNodes; simpl.
    repeat split.
    + rewrite length_zip_with. lia.
    + intros i nd Hnd. unfold node_at in *. simpl in *.
      destruct (lookup_lt_is_Some_2 out (N.to_nat i)) as [o Ho].
      { apply lookup_lt_Some in Hnd. lia. }
      exists o. split; [exact Ho |].
      rewrite lookup_zip_with, Hnd. simpl. rewrite Ho. reflexivity.
    + exact Hcount.
  - intros Herr Hcase.
    rewrite bind_unfold, bool_decide_eq_false_2 by (intros Hne; apply Hne, Herr).
    cbn [throw_if mret M_ret]. rewrite bind_unfold. unfold gets at 1.
    cbn iota beta. rewrite bind_unfold.
    rewrite Hcount, Nat2N.id.
    destruct (decide (length out < length (m_nodes m))%nat) as [Hshort | Hlong].
    + pose proof (reproject_loop_short out (length (m_nodes m)) 0 m
                    ltac:(simpl; lia) ltac:(simpl; lia)
                    ltac:(rewrite Hcount; simpl; lia)) as Hloop.
      change (N.of_nat 0) with 0 in Hloop.
      destruct (for_range _ _ _ m) as [[[] | msg |] s']; simpl in Hloop;
        try discriminate; reflexivity.
    + destruct Hcase as [Hshort | ->]; [lia |].
      pose proof (reproject_loop out (length (m_nodes m)) 0 m
                    ltac:(simpl; lia) ltac:(simpl; lia)
                    ltac:(rewrite Hcount; simpl; lia)) as Hloop.
      change (N.of_nat 0) with 0 in Hloop. rewrite Hloop. reflexivity.
Qed.

End ReprojectionProperties.

End MeshProperties.

(** * The properties on concrete meshes *)

Module Cases.
Import Ref Fixtures MoreFixtures.

(** ** Lookup by an identifier that is absent *)

(** C1, on the code.  The mesh read from the shuffled file stores the node
    identifiers 30, 10, 20 and the element identifier 7, both kinds reached
    through their lookup table.  [nodeById(5)] and [elementById(3)] ask for
    identifiers that no record carries; neither throws: each returns the
    pointer to position 0, where the node 30 and the element 7 are stored.
    The sequential branch, on the same identifiers, throws. *)
Theorem byId_absent_identifier_not_reported :
  nodeOrderingIsLogical shuffled_mesh = false /\
  elementOrderingIsLogical shuffled_mesh = false /\
  Node_id <$> m_nodes shuffled_mesh = [30; 10; 20] /\
  Element_id <$> m_elements shuffled_mesh = [7] /\
  (nodeById 5 shuffled_mesh).1 = Ok 0 /\
  (elementById 3 shuffled_mesh).1 = Ok 0 /\
  (nodeById 5 sequential_mesh).1 = Throw "Mesh: Node id 5 not found" /\
  (elementById 3 sequential_mesh).1 = Throw "Mesh: Element id not found".
Proof. repeat split; reflexivity. Qed.

(** ** Identifier to position *)

(** C2, on the code.  The mesh read from the sequential file has its only
    element, of identifier 1, at position 0.  [nodeIndexById(1)] is
    [1 - 1 = 0], but [elementIndexById(1)] is 1, a position that holds no
    element. *)
Theorem elementIndexById_returns_identifier :
  nodeOrderingIsLogical sequential_mesh = true /\
  elementOrderingIsLogical sequential_mesh = true /\
  Element_id <$> m_elements sequential_mesh = [1] /\
  (nodeIndexById 1 sequential_mesh).1 = Ok 0 /\
  (elementIndexById 1 sequential_mesh).1 = Ok 1 /\
  element_at sequential_mesh 1 = None.
Proof. repeat split; reflexivity. Qed.

(** ** The ordering flags after a read *)

(** C3, on the code.  The file stores sequential nodes and two elements in
    the order 2, 1.  The read succeeds and leaves the element flag set,
    although position 0 holds identifier 2. *)
Theorem element_flag_set_on_unordered_elements :
  mesh_of "swapped.14" = (Ok tt, swapped_elements_mesh) /\
  nodeOrderingIsLogical swapped_elements_mesh = true /\
  Element_id <$> m_elements swapped_elements_mesh = [2; 1] /\
  ~ ids_sequential (Element_id <$> m_elements swapped_elements_mesh) /\
  elementOrderingIsLogical swapped_elements_mesh = true.
Proof.
  split; [reflexivity |].
  split; [reflexivity |]. split; [reflexivity |].
  split; [| reflexivity].
  intros Hseq. specialize (Hseq 0%nat 2 eq_refl). discriminate Hseq.
Qed.

(** ** A read that fails on a node record *)

(** C4 fails as stated: the file announces two nodes and its second node
    record is malformed; [read()] throws and leaves a mesh of two nodes. *)
Lemma read_failure_not_cleared :
  mesh_of "malformed.14"
  = (Throw "Error reading nodes", malformed_after_nodes.1) /\
  numNodes malformed_after_nodes.1 = 2 /\
  length (m_nodes malformed_after_nodes.1) = 2%nat /\
  ~ freshly_cleared malformed_after_nodes.1.
Proof.
  split; [reflexivity |].
  split; [reflexivity |]. split; [reflexivity |].
  intros (Hzero & _). discriminate Hzero.
Qed.

Lemma read_failure_keeps_partial_mesh_witness :
  m_filename (Mesh_new "element.14") <> "" /\
  is_Some (more_disk !! m_filename (Mesh_new "element.14")) /\
  selects_adcirc MESH_UNKNOWN (m_filename (Mesh_new "element.14")) /\
  read more_disk MESH_UNKNOWN (Mesh_new "element.14")
  = (Throw "Error reading elements", element_failure_mesh) /\
  let start := (_init (Mesh_new "element.14"),
                fstream_open more_disk (m_filename (Mesh_new "element.14")))
  in
  let m' := element_failure_mesh in
  let msg := "Error reading elements" in
  read more_disk MESH_UNKNOWN (Mesh_new "element.14") = (Throw msg, m')
  <->
  ((exists st,
      readAdcircMeshHeader start = (Throw msg, st) /\ st.1 = m' /\
      numNodes m' = 0 /\ m_nodes m' = [] /\ later_sections_empty m' /\
      (numElements m' = 0 -> freshly_cleared m'))
   \/
   exists st1,
    readAdcircMeshHeader start = (Ok tt, st1) /\
    numNodes m' = numNodes st1.1 /\
    numElements m' = numElements st1.1 /\
    length (m_nodes m') = N.to_nat (numNodes m') /\
    (0 < numNodes m' \/ 0 < numElements m' -> ~ freshly_cleared m') /\
    ((exists st,
        readAdcircNodes st1 = (Throw msg, st) /\ st.1 = m' /\
        0 < numNodes m' /\ later_sections_empty m')
     \/
     exists st2,
       readAdcircNodes st1 = (Ok tt, st2) /\
       m_nodes m' = m_nodes st2.1 /\
       length (m_elements m') = N.to_nat (numElements m') /\
       ((exists st,
           readAdcircElements st2 = (Throw msg, st) /\ st.1 = m' /\
           0 < numElements m' /\
           m_openBoundaries m' = [] /\ m_landBoundaries m' = [])
        \/
        exists st3,
          readAdcircElements st2 = (Ok tt, st3) /\
          m_elements m' = m_elements st3.1 /\
          ((exists st,
              readAdcircOpenBoundaries st3 = (Throw msg, st) /\ st.1 = m' /\
              m_landBoundaries m' = [])
           \/
           exists st4 st,
             readAdcircOpenBoundaries st3 = (Ok tt, st4) /\
             readAdcircLandBoundaries st4 = (Throw msg, st) /\ st.1 = m' /\
             m_openBoundaries m' = m_openBoundaries st4.1 /\
             length (m_openBoundaries m')
             = N.to_nat (numOpenBoundaries m'))))).
Proof.
  assert (Hname : m_filename (Mesh_new "element.14") <> "") by discriminate.
  assert (Hfile : is_Some (more_disk !! m_filename (Mesh_new "element.14")))
    by (eexists; reflexivity).
  assert (Hformat : selects_adcirc MESH_UNKNOWN
                      (m_filename (Mesh_new "element.14"))) by reflexivity.
  assert (Hread : read more_disk MESH_UNKNOWN (Mesh_new "element.14")
                  = (Throw "Error reading elements", element_failure_mesh))
    by reflexivity.
  split; [exact Hname |]. split; [exact Hfile |]. split; [exact Hformat |].
  split; [exact Hread |].
  exact (read_failure_keeps_partial_mesh more_disk MESH_UNKNOWN
           (Mesh_new "element.14") element_failure_mesh
           "Error reading elements" Hname Hfile Hformat).
Defined.

(** The mesh left by a read that fails in each section: nothing after a
    header whose first count does not parse, the element count alone when
    the node count does not parse, the three nodes and a sized element
    vector after a malformed element record, nodes, element and the
    boundaries begun after a malformed boundary record. *)
Example read_failure_by_section :
  (left_by "count.14").1 = Throw "Error reading mesh header" /\
  freshly_cleared (left_by "count.14").2 /\
  (left_by "nodecount.14").1 = Throw "Error reading mesh header" /\
  numElements (left_by "nodecount.14").2 = 1 /\
  m_elements (left_by "nodecount.14").2 = [] /\
  (left_by "element.14").1 = Throw "Error reading elements" /\
  Node_id <$> m_nodes (left_by "element.14").2 = [1; 2; 3] /\
  m_elements (left_by "element.14").2 = [Element_default] /\
  (left_by "open.14").1 = Throw "Error reading boundaries" /\
  Node_id <$> m_nodes (left_by "open.14").2 = [1; 2; 3] /\
  m_elements (left_by "open.14").2 = [mkElement 1 [0; 1; 2]] /\
  length (m_openBoundaries (left_by "open.14").2) = 1%nat /\
  m_landBoundaries (left_by "open.14").2 = [] /\
  (left_by "land.14").1 = Throw "Error reading boundaries" /\
  m_elements (left_by "land.14").2 = [mkElement 1 [0; 1; 2]] /\
  length (m_openBoundaries (left_by "land.14").2) = 1%nat /\
  length (m_landBoundaries (left_by "land.14").2) = 1%nat.
Proof. repeat split; reflexivity. Qed.

(** ** Lookup after a shuffled read *)

Lemma nodeById_after_shuffled_read_witness :
  m_filename (Mesh_new "shuffled.14") <> "" /\
  disk !! m_filename (Mesh_new "shuffled.14") = Some shuffled_file /\
  selects_adcirc MESH_UNKNOWN (m_filename (Mesh_new "shuffled.14")) /\
  read disk MESH_UNKNOWN (Mesh_new "shuffled.14") = (Ok tt, shuffled_mesh) /\
  nodeOrderingIsLogical shuffled_mesh = false /\
  (2 + N.to_nat (numNodes shuffled_mesh)
   <= length (file_lines shuffled_file))%nat /\
  (forall i, i < numNodes shuffled_mesh ->
     exists id x y z p nd,
       IO_splitStringNodeFormat (line_of shuffled_file (2 + N.to_nat i))
       = Some (id, x, y, z)
       /\ node_at shuffled_mesh i = Some (mkNode id x y z)
       /\ nodeById id shuffled_mesh = (Ok p, shuffled_mesh)
       /\ node_at shuffled_mesh p = Some nd
       /\ Node_id nd = id
       /\ (identifiers_unique shuffled_mesh -> p = i)).
Proof.
  assert (Hname : m_filename (Mesh_new "shuffled.14") <> "") by discriminate.
  assert (Hfile : disk !! m_filename (Mesh_new "shuffled.14")
                  = Some shuffled_file) by reflexivity.
  assert (Hformat : selects_adcirc MESH_UNKNOWN
                      (m_filename (Mesh_new "shuffled.14"))) by reflexivity.
  assert (Hread : read disk MESH_UNKNOWN (Mesh_new "shuffled.14")
                  = (Ok tt, shuffled_mesh)) by reflexivity.
  assert (Hflag : nodeOrderingIsLogical shuffled_mesh = false)
    by reflexivity.
  assert (Hlines : (2 + N.to_nat (numNodes shuffled_mesh)
                    <= length (file_lines shuffled_file))%nat)
    by (simpl; lia).
  split; [exact Hname |]. split; [exact Hfile |]. split; [exact Hformat |].
  split; [exact Hread |]. split; [exact Hflag |]. split; [exact Hlines |].
  exact (nodeById_after_shuffled_read disk MESH_UNKNOWN
           (Mesh_new "shuffled.14") shuffled_mesh shuffled_file
           Hname Hfile Hformat Hread Hflag Hlines).
Defined.

(** The node lines of the shuffled file, the nodes stored for them and
    the answers of [nodeById] for their identifiers. *)
Example nodeById_shuffled_lines :
  IO_splitStringNodeFormat (line_of shuffled_file 2)
  = Some (30, 0%Z, 0%Z, 5%Z)
  /\ IO_splitStringNodeFormat (line_of shuffled_file 3)
     = Some (10, 10%Z, 0%Z, 5%Z)
  /\ IO_splitStringNodeFormat (line_of shuffled_file 4)
     = Some (20, 0%Z, 10%Z, 5%Z)
  /\ m_nodes shuffled_mesh
     = [mkNode 30 0 0 5; mkNode 10 10 0 5; mkNode 20 0 10 5]%Z
  /\ nodeById 30 shuffled_mesh = (Ok 0, shuffled_mesh)
  /\ nodeById 10 shuffled_mesh = (Ok 1, shuffled_mesh)
  /\ nodeById 20 shuffled_mesh = (Ok 2, shuffled_mesh).
Proof. repeat split; reflexivity. Qed.

(** The three stored identifiers, one by one. *)
Example nodeById_shuffled_values :
  (nodeById 30 shuffled_mesh).1 = Ok 0 /\
  (nodeById 10 shuffled_mesh).1 = Ok 1 /\
  (nodeById 20 shuffled_mesh).1 = Ok 2.
Proof. repeat split; reflexivity. Qed.

(** ** Link table of two triangles *)

Lemma two_triangles_well_formed :
  reordering_permutes two_triangles_mesh /\
  vertices_valid two_triangles_mesh /\
  identifiers_unique two_triangles_mesh.
Proof.
  split; [intros e; reflexivity |]. split.
  - apply Forall_vertices_valid. simpl.
    repeat constructor; simpl; lia.
  - apply NoDup_identifiers_unique. simpl.
    repeat (apply NoDup_cons; split;
            [rewrite ?not_elem_of_cons; repeat split;
             try apply not_elem_of_nil; discriminate |]).
    apply NoDup_nil_2.
Qed.


(** The five links, whichever triangle is stored first. *)
Example two_triangles_links :
  (generateLinkTable two_triangles_mesh).1
  = Ok [(0, 1); (0, 2); (1, 2); (1, 3); (2, 3)] /\
  (generateLinkTable two_triangles_swapped_mesh).1
  = Ok [(0, 1); (0, 2); (1, 2); (1, 3); (2, 3)].
Proof. split; reflexivity. Qed.

(** ** Point location *)

Lemma findElement_first_containing_witness :
  m_elementalSearchTree searchable_mesh = Some (Some [(3, 3)%Z]) /\
  QKdtree2_isInitialized (Some [(3, 3)%Z]) = true /\
  numElements searchable_mesh = N.of_nat (length (m_elements searchable_mesh))
  /\
  Forall (fun i => i < numElements searchable_mesh)
         (QKdtree2_findXNearest (Some [(3, 3)%Z]) (1, 1)%Z 20) /\
  (findElement (1, 1)%Z searchable_mesh
   = (Ok (default not_found
            (List.find (element_contains searchable_mesh (1, 1)%Z)
               (QKdtree2_findXNearest (Some [(3, 3)%Z]) (1, 1)%Z 20))),
      searchable_mesh)
   /\ not_found = 2 ^ 64 - 1).
Proof.
  assert (Htree : m_elementalSearchTree searchable_mesh
                  = Some (Some [(3, 3)%Z])) by reflexivity.
  assert (Hinit : QKdtree2_isInitialized (Some [(3, 3)%Z]) = true)
    by reflexivity.
  assert (Hsize : numElements searchable_mesh
                  = N.of_nat (length (m_elements searchable_mesh)))
    by reflexivity.
  assert (Hcand : Forall (fun i => i < numElements searchable_mesh)
                    (QKdtree2_findXNearest (Some [(3, 3)%Z]) (1, 1)%Z 20))
    by (repeat constructor).
  split; [exact Htree |]. split; [exact Hinit |].
  split; [exact Hsize |]. split; [exact Hcand |].
  exact (findElement_first_containing searchable_mesh (1, 1)%Z
           (Some [(3, 3)%Z]) Htree Hinit Hsize Hcand).
Defined.

(** A point of the triangle is found in element 0; a point outside is
    reported with the not-found value. *)
Example findElement_values :
  (findElement (1, 1)%Z searchable_mesh).1 = Ok 0 /\
  (findElement (20, 20)%Z searchable_mesh).1 = Ok (2 ^ 64 - 1).
Proof. split; reflexivity. Qed.

(** C7, on the code.  [findElement] guards the building of the tree with
    [elementalSearchTreeInitialized()], which follows the tree pointer
    without testing it, while [_init] leaves that pointer null: on a mesh
    object just constructed, and on the mesh just read from a file, the
    first [findElement] dereferences the null pointer and no tree is
    built.  [buildElementalSearchTree()] itself tests the pointer before it
    follows it.  Once that function has been called, [findElement] does
    what the claim says: for the point (13, 13) the tree returns the small
    triangle first and the large one second, the small one does not
    contain the point, and the position of the large one is returned; for
    (15, 15), inside both, the first candidate is returned; for (40, 40),
    inside neither, the not-found value. *)
Theorem findElement_first_use_dereferences_null :
  m_elementalSearchTree (Mesh_new "nested.14") = None /\
  findElement (13, 13)%Z (Mesh_new "nested.14")
  = (Undefined, Mesh_new "nested.14") /\
  read more_disk MESH_UNKNOWN (Mesh_new "nested.14") = (Ok tt, nested_mesh) /\
  m_elementalSearchTree nested_mesh = None /\
  findElement (13, 13)%Z nested_mesh = (Undefined, nested_mesh) /\
  buildElementalSearchTree nested_mesh = (Ok tt, nested_searchable_mesh) /\
  m_elementalSearchTree nested_searchable_mesh
  = Some (Some [(10, 10); (14, 14)]%Z) /\
  QKdtree2_findXNearest (Some [(10, 10); (14, 14)]%Z) (13, 13)%Z 20 = [1; 0]
  /\
  element_contains nested_searchable_mesh (13, 13)%Z 1 = false /\
  element_contains nested_searchable_mesh (13, 13)%Z 0 = true /\
  findElement (13, 13)%Z nested_searchable_mesh
  = (Ok 0, nested_searchable_mesh) /\
  QKdtree2_findXNearest (Some [(10, 10); (14, 14)]%Z) (15, 15)%Z 20 = [1; 0]
  /\
  element_contains nested_searchable_mesh (15, 15)%Z 0 = true /\
  findElement (15, 15)%Z nested_searchable_mesh
  = (Ok 1, nested_searchable_mesh) /\
  findElement (40, 40)%Z nested_searchable_mesh
  = (Ok not_found, nested_searchable_mesh).
Proof.
  split; [reflexivity |].
  split; [apply findElement_null_tree; reflexivity |].
  repeat split; reflexivity.
Qed.

(** ** Boundary totals, writer and positional access *)

Lemma totalBoundaryNodes_sum_witness :
  boundary_length_sum (m_openBoundaries sequential_mesh) < SIZE_MODULUS /\
  boundary_length_sum (m_landBoundaries sequential_mesh) < SIZE_MODULUS /\
  (totalOpenBoundaryNodes sequential_mesh
   = (Ok (boundary_length_sum (m_openBoundaries sequential_mesh)),
      set_m_totalOpenBoundaryNodes
        (boundary_length_sum (m_openBoundaries sequential_mesh))
        sequential_mesh) /\
   totalLandBoundaryNodes sequential_mesh
   = (Ok (boundary_length_sum (m_landBoundaries sequential_mesh)),
      set_m_totalLandBoundaryNodes
        (boundary_length_sum (m_landBoundaries sequential_mesh))
        sequential_mesh)).
Proof.
  assert (Ho : boundary_length_sum (m_openBoundaries sequential_mesh)
               < SIZE_MODULUS) by reflexivity.
  assert (Hl : boundary_length_sum (m_landBoundaries sequential_mesh)
               < SIZE_MODULUS) by reflexivity.
  split; [exact Ho |]. split; [exact Hl |].
  exact (totalBoundaryNodes_sum sequential_mesh Ho Hl).
Defined.

Example totalBoundaryNodes_values :
  (totalOpenBoundaryNodes sequential_mesh).1 = Ok 2 /\
  (totalLandBoundaryNodes sequential_mesh).1 = Ok 2.
Proof. split; reflexivity. Qed.

(** Reading the sequential file and writing the mesh gives the file
    back. *)
Example writeAdcircMesh_round_trip :
  (writeAdcircMesh sequential_mesh).2
  = ["triangle"; "          1           3";
     "1 0 0 5"; "2 10 0 5"; "3 0 10 5";
     "1 3 1 2 3";
     "1"; "2"; "2"; "1"; "2";
     "1"; "2"; "2 0"; "2"; "3"].
Proof. reflexivity. Qed.

Lemma node_element_by_position_witness :
  numNodes sequential_mesh = N.of_nat (length (m_nodes sequential_mesh)) /\
  numElements sequential_mesh
  = N.of_nat (length (m_elements sequential_mesh)) /\
  ((1 < numNodes sequential_mesh ->
      node 1 sequential_mesh = (Ok 1, sequential_mesh)
      /\ is_Some (node_at sequential_mesh 1)) /\
   (numNodes sequential_mesh <= 1 ->
      exists msg, node 1 sequential_mesh = (Throw msg, sequential_mesh)) /\
   (1 < numElements sequential_mesh ->
      element 1 sequential_mesh = (Ok 1, sequential_mesh)
      /\ is_Some (element_at sequential_mesh 1)) /\
   (numElements sequential_mesh <= 1 ->
      exists msg, element 1 sequential_mesh = (Throw msg, sequential_mesh))).
Proof.
  assert (Hn : numNodes sequential_mesh
               = N.of_nat (length (m_nodes sequential_mesh))) by reflexivity.
  assert (He : numElements sequential_mesh
               = N.of_nat (length (m_elements sequential_mesh)))
    by reflexivity.
  split; [exact Hn |]. split; [exact He |].
  exact (node_element_by_position sequential_mesh 1 Hn He).
Defined.

Example node_element_by_position_values :
  (node 1 sequential_mesh).1 = Ok 1 /\
  (node 3 sequential_mesh).1 = Throw "Mesh: Node index 3 out of bounds" /\
  (element 0 sequential_mesh).1 = Ok 0 /\
  (element 1 sequential_mesh).1 = Throw "Mesh: Element index out of bounds".
Proof. repeat split; reflexivity. Qed.

End Cases.

(** * The further properties on concrete meshes *)

Module Scenarios.
Import Ref Fixtures RefMore MoreFixtures.

(** The sequential mesh is well formed. *)
Lemma sequential_counts : counts_match_storage sequential_mesh.
Proof. repeat split. Qed.

Lemma sequential_ids : ids_sequential (Node_id <$> m_nodes sequential_mesh).
Proof.
  intros i id Hi. simpl in Hi.
  destruct i as [| [| [| i]]]; simpl in Hi; try discriminate;
    injection Hi as <-; reflexivity.
Qed.

Lemma sequential_read :
  m_filename (Mesh_new "sequential.14") <> "" /\
  disk !! m_filename (Mesh_new "sequential.14") = Some sequential_file /\
  selects_adcirc MESH_UNKNOWN (m_filename (Mesh_new "sequential.14")) /\
  read disk MESH_UNKNOWN (Mesh_new "sequential.14")
  = (Ok tt, sequential_mesh).
Proof.
  split; [discriminate |]. split; [reflexivity |].
  split; reflexivity.
Qed.

Lemma shuffled_read :
  m_filename (Mesh_new "shuffled.14") <> "" /\
  disk !! m_filename (Mesh_new "shuffled.14") = Some shuffled_file /\
  selects_adcirc MESH_UNKNOWN (m_filename (Mesh_new "shuffled.14")) /\
  read disk MESH_UNKNOWN (Mesh_new "shuffled.14") = (Ok tt, shuffled_mesh).
Proof.
  split; [discriminate |]. split; [reflexivity |].
  split; reflexivity.
Qed.

Lemma pair_read :
  m_filename (Mesh_new "pair.grd") <> "" /\
  disk !! m_filename (Mesh_new "pair.grd") = Some two_triangles_file /\
  selects_adcirc MESH_UNKNOWN (m_filename (Mesh_new "pair.grd")) /\
  read disk MESH_UNKNOWN (Mesh_new "pair.grd") = (Ok tt, two_triangles_mesh).
Proof.
  split; [discriminate |]. split; [reflexivity |].
  split; reflexivity.
Qed.

(** ** Failures of [read] *)

Lemma read_without_file_keeps_mesh_witness :
  (m_filename (setFilename "absent.14" sequential_mesh) = ""
   \/ disk !! m_filename (setFilename "absent.14" sequential_mesh) = None) /\
  read disk MESH_UNKNOWN (setFilename "absent.14" sequential_mesh)
  = (Throw "File does not exist.", setFilename "absent.14" sequential_mesh).
Proof.
  assert (Hcase :
    m_filename (setFilename "absent.14" sequential_mesh) = ""
    \/ disk !! m_filename (setFilename "absent.14" sequential_mesh) = None)
    by (right; reflexivity).
  split; [exact Hcase |].
  exact (read_without_file_keeps_mesh disk MESH_UNKNOWN
           (setFilename "absent.14" sequential_mesh) Hcase).
Defined.

(** ** The kd-trees *)

Lemma sequential_vertices_valid : vertices_valid sequential_mesh.
Proof.
  apply Forall_vertices_valid. simpl. repeat constructor; simpl; lia.
Qed.

Lemma buildElementalSearchTree_installs_tree_witness :
  vertices_valid sequential_mesh /\
  exists xs ys,
    length xs = length (m_elements sequential_mesh) /\
    length ys = length (m_elements sequential_mesh) /\
    buildElementalSearchTree sequential_mesh
    = ((if bool_decide ((QKdtree2_build xs ys QKdtree2_new).2
                        ≠ QKdtree2_NoError)
        then Throw "Mesh: KDTree2 library error" else Ok tt),
       set_m_elementalSearchTree
         (Some (QKdtree2_build xs ys QKdtree2_new).1) sequential_mesh).
Proof.
  split; [exact sequential_vertices_valid |].
  exact (buildElementalSearchTree_installs_tree sequential_mesh
           sequential_vertices_valid).
Defined.

Lemma findElement_after_delete_undefined_witness :
  m_elementalSearchTree searchable_mesh = Some (Some [(3, 3)%Z]) /\
  QKdtree2_isInitialized (Some [(3, 3)%Z]) = true /\
  (deleteElementalSearchTree searchable_mesh
   = (Ok tt, set_m_elementalSearchTree None searchable_mesh) /\
   findElement (1, 1)%Z (set_m_elementalSearchTree None searchable_mesh)
   = (Undefined, set_m_elementalSearchTree None searchable_mesh) /\
   deleteElementalSearchTree (set_m_elementalSearchTree None searchable_mesh)
   = (Undefined, set_m_elementalSearchTree None searchable_mesh)).
Proof.
  assert (Htree : m_elementalSearchTree searchable_mesh
                  = Some (Some [(3, 3)%Z])) by reflexivity.
  assert (Hinit : QKdtree2_isInitialized (Some [(3, 3)%Z]) = true)
    by reflexivity.
  split; [exact Htree |]. split; [exact Hinit |].
  exact (findElement_after_delete_undefined searchable_mesh
           (Some [(3, 3)%Z]) (1, 1)%Z Htree Hinit).
Defined.

(** The point that [findElement] located before the tree was deleted. *)
Example findElement_before_and_after_delete :
  (findElement (1, 1)%Z searchable_mesh).1 = Ok 0 /\
  (findElement (1, 1)%Z unsearchable_mesh).1 = Undefined.
Proof. split; reflexivity. Qed.

Lemma point_queries_after_read_undefined_witness :
  m_filename (Mesh_new "sequential.14") <> "" /\
  is_Some (disk !! m_filename (Mesh_new "sequential.14")) /\
  selects_adcirc MESH_UNKNOWN (m_filename (Mesh_new "sequential.14")) /\
  read disk MESH_UNKNOWN (Mesh_new "sequential.14")
  = (Ok tt, sequential_mesh) /\
  (findElement (1, 1)%Z sequential_mesh = (Undefined, sequential_mesh) /\
   findNearestElement (1, 1)%Z sequential_mesh
   = (Undefined, sequential_mesh) /\
   findNearestNode (1, 1)%Z sequential_mesh = (Undefined, sequential_mesh)).
Proof.
  destruct sequential_read as (Hname & Hfile & Hformat & Hread).
  assert (Hsome : is_Some (disk !! m_filename (Mesh_new "sequential.14")))
    by (eexists; exact Hfile).
  split; [exact Hname |]. split; [exact Hsome |]. split; [exact Hformat |].
  split; [exact Hread |].
  exact (point_queries_after_read_undefined disk MESH_UNKNOWN
           (Mesh_new "sequential.14") sequential_mesh (Ok tt) (1, 1)%Z
           Hname Hsome Hformat Hread).
Defined.

(** ** Editing the vectors *)

Lemma resizeMesh_counts_and_storage_witness :
  counts_match_storage sequential_mesh /\
  (m_nodes (resizeMesh 5 0 1 2 sequential_mesh)
   = resize (N.to_nat 5) Node_default (m_nodes sequential_mesh) /\
   m_elements (resizeMesh 5 0 1 2 sequential_mesh)
   = resize (N.to_nat 0) Element_default (m_elements sequential_mesh) /\
   m_openBoundaries (resizeMesh 5 0 1 2 sequential_mesh)
   = resize (N.to_nat 1) Boundary_default
       (m_openBoundaries sequential_mesh) /\
   m_landBoundaries (resizeMesh 5 0 1 2 sequential_mesh)
   = resize (N.to_nat 2) Boundary_default
       (m_landBoundaries sequential_mesh) /\
   (numNodes (resizeMesh 5 0 1 2 sequential_mesh) = 5 /\
    numElements (resizeMesh 5 0 1 2 sequential_mesh) = 0 /\
    numOpenBoundaries (resizeMesh 5 0 1 2 sequential_mesh) = 1 /\
    numLandBoundaries (resizeMesh 5 0 1 2 sequential_mesh) = 2) /\
   counts_match_storage (resizeMesh 5 0 1 2 sequential_mesh) /\
   (nodeOrderingIsLogical (resizeMesh 5 0 1 2 sequential_mesh)
    = nodeOrderingIsLogical sequential_mesh /\
    elementOrderingIsLogical (resizeMesh 5 0 1 2 sequential_mesh)
    = elementOrderingIsLogical sequential_mesh /\
    m_nodeLookup (resizeMesh 5 0 1 2 sequential_mesh)
    = m_nodeLookup sequential_mesh /\
    m_elementLookup (resizeMesh 5 0 1 2 sequential_mesh)
    = m_elementLookup sequential_mesh)).
Proof.
  split; [exact sequential_counts |].
  exact (resizeMesh_counts_and_storage sequential_mesh 5 0 1 2
           sequential_counts).
Defined.

(** Growing the node vector by two and emptying the element vector. *)
Example resizeMesh_values :
  Node_id <$> m_nodes (resizeMesh 5 0 1 2 sequential_mesh) = [1; 2; 3; 0; 0]
  /\ m_elements (resizeMesh 5 0 1 2 sequential_mesh) = [].
Proof. split; reflexivity. Qed.

Lemma addNode_addElement_overwrite_witness :
  counts_match_storage sequential_mesh /\
  ((1 < numNodes sequential_mesh ->
      exists m', addNode 1 (mkNode 9 7 7 7)%Z sequential_mesh = (Ok tt, m') /\
        node_at m' 1 = Some (mkNode 9 7 7 7)%Z /\
        (forall j, j <> 1 -> node_at m' j = node_at sequential_mesh j) /\
        m_elements m' = m_elements sequential_mesh /\
        counts_match_storage m' /\ numNodes m' = numNodes sequential_mesh) /\
   (numNodes sequential_mesh <= 1 ->
      addNode 1 (mkNode 9 7 7 7)%Z sequential_mesh
      = (Throw "Mesh: Node index > number of nodes", sequential_mesh)) /\
   (1 < numElements sequential_mesh ->
      exists m', addElement 1 (mkElement 4 [0; 1; 2]) sequential_mesh
                 = (Ok tt, m') /\
        element_at m' 1 = Some (mkElement 4 [0; 1; 2]) /\
        (forall j, j <> 1 -> element_at m' j = element_at sequential_mesh j)
        /\
        m_nodes m' = m_nodes sequential_mesh /\
        counts_match_storage m' /\
        numElements m' = numElements sequential_mesh) /\
   (numElements sequential_mesh <= 1 ->
      addElement 1 (mkElement 4 [0; 1; 2]) sequential_mesh
      = (Throw "Mesh: Element index > number of nodes", sequential_mesh))).
Proof.
  split; [exact sequential_counts |].
  exact (addNode_addElement_overwrite sequential_mesh 1
           (mkNode 9 7 7 7)%Z (mkElement 4 [0; 1; 2]) sequential_counts).
Defined.

(** The node vector keeps its three records; the only element of the mesh
    is at position 0, so that position 1 is refused. *)
Example addNode_addElement_values :
  Node_id <$> m_nodes (addNode 1 (mkNode 9 7 7 7)%Z sequential_mesh).2
  = [1; 9; 3] /\
  (addElement 1 (mkElement 4 [0; 1; 2]) sequential_mesh).1
  = Throw "Mesh: Element index > number of nodes".
Proof. split; reflexivity. Qed.

Lemma deleteNode_deleteElement_shift_witness :
  counts_match_storage sequential_mesh /\
  ((0 < numNodes sequential_mesh ->
      exists m', deleteNode 0 sequential_mesh = (Ok tt, m') /\
        numNodes m' + 1 = numNodes sequential_mesh /\
        (forall j, j < 0 -> node_at m' j = node_at sequential_mesh j) /\
        (forall j, 0 <= j -> node_at m' j = node_at sequential_mesh (j + 1))
        /\
        m_elements m' = m_elements sequential_mesh /\
        counts_match_storage m') /\
   (numNodes sequential_mesh <= 0 ->
      deleteNode 0 sequential_mesh
      = (Throw "Mesh: Node index > number of nodes", sequential_mesh)) /\
   (0 < numElements sequential_mesh ->
      exists m', deleteElement 0 sequential_mesh = (Ok tt, m') /\
        numElements m' + 1 = numElements sequential_mesh /\
        (forall j, j < 0 -> element_at m' j = element_at sequential_mesh j)
        /\
        (forall j, 0 <= j ->
           element_at m' j = element_at sequential_mesh (j + 1)) /\
        m_nodes m' = m_nodes sequential_mesh /\
        counts_match_storage m') /\
   (numElements sequential_mesh <= 0 ->
      deleteElement 0 sequential_mesh
      = (Throw "Mesh: Element index > number of nodes", sequential_mesh))).
Proof.
  split; [exact sequential_counts |].
  exact (deleteNode_deleteElement_shift sequential_mesh 0 sequential_counts).
Defined.

Lemma deleteNode_keeps_sequential_flag_witness :
  counts_match_storage sequential_mesh /\
  numNodes sequential_mesh < SIZE_MODULUS /\
  nodeOrderingIsLogical sequential_mesh = true /\
  ids_sequential (Node_id <$> m_nodes sequential_mesh) /\
  0 + 1 < numNodes sequential_mesh /\
  exists m' nd,
    deleteNode 0 sequential_mesh = (Ok tt, m') /\
    nodeOrderingIsLogical m' = true /\
    nodeById (0 + 1) m' = (Ok 0, m') /\
    node_at m' 0 = Some nd /\
    Node_id nd = 0 + 2.
Proof.
  assert (Hsize : numNodes sequential_mesh < SIZE_MODULUS) by reflexivity.
  assert (Hflag : nodeOrderingIsLogical sequential_mesh = true)
    by reflexivity.
  assert (Hi : 0 + 1 < numNodes sequential_mesh) by reflexivity.
  split; [exact sequential_counts |]. split; [exact Hsize |].
  split; [exact Hflag |]. split; [exact sequential_ids |].
  split; [exact Hi |].
  exact (deleteNode_keeps_sequential_flag sequential_mesh 0
           sequential_counts Hsize Hflag sequential_ids Hi).
Defined.

(** After the first node is erased, identifier 1 is answered with the
    node of identifier 2 and identifier 3 is refused. *)
Example deleteNode_values :
  Node_id <$> m_nodes (deleteNode 0 sequential_mesh).2 = [2; 3] /\
  (nodeById 1 (deleteNode 0 sequential_mesh).2).1 = Ok 0 /\
  (nodeById 3 (deleteNode 0 sequential_mesh).2).1
  = Throw "Mesh: Node id 3 not found".
Proof. repeat split; reflexivity. Qed.

(** ** Derived tables *)

Lemma getMaxNodesPerElement_maximum_witness :
  Forall (fun e => (Element_n e < Z.of_N SIZE_MODULUS)%Z)
         (m_elements two_triangles_mesh) /\
  ((forall e, e ∈ m_elements two_triangles_mesh ->
      N.of_nat (length (Element_nodes e))
      <= getMaxNodesPerElement two_triangles_mesh) /\
   (m_elements two_triangles_mesh = [] ->
      getMaxNodesPerElement two_triangles_mesh = 0) /\
   (m_elements two_triangles_mesh <> [] ->
      exists e, e ∈ m_elements two_triangles_mesh /\
        getMaxNodesPerElement two_triangles_mesh
        = N.of_nat (length (Element_nodes e)))).
Proof.
  assert (Hsmall : Forall (fun e => (Element_n e < Z.of_N SIZE_MODULUS)%Z)
                          (m_elements two_triangles_mesh))
    by (repeat constructor).
  split; [exact Hsmall |].
  exact (getMaxNodesPerElement_maximum two_triangles_mesh Hsmall).
Defined.

Example getMaxNodesPerElement_values :
  getMaxNodesPerElement two_triangles_mesh = 3 /\
  getMaxNodesPerElement (Mesh_new "none") = 0.
Proof. split; reflexivity. Qed.

Lemma connectivity_lists_vertex_identifiers_witness :
  vertices_valid two_triangles_mesh /\
  exists rows,
    connectivity two_triangles_mesh = (Ok rows, two_triangles_mesh) /\
    Forall2 (fun e row =>
               Forall2 (fun p id =>
                          exists nd, node_at two_triangles_mesh p = Some nd
                                     /\ Node_id nd = id)
                       (Element_nodes e) row)
            (m_elements two_triangles_mesh) rows.
Proof.
  destruct Cases.two_triangles_well_formed as (_ & Hvalid & _).
  split; [exact Hvalid |].
  exact (connectivity_lists_vertex_identifiers two_triangles_mesh Hvalid).
Defined.

Example connectivity_values :
  (connectivity two_triangles_mesh).1 = Ok [[1; 2; 3]; [2; 4; 3]] /\
  (connectivity shuffled_mesh).1 = Ok [[30; 10; 20]].
Proof. split; reflexivity. Qed.

Lemma generateLinkTable_covers_element_legs_witness :
  reordering_permutes two_triangles_mesh /\
  vertices_valid two_triangles_mesh /\
  exists links,
    generateLinkTable two_triangles_mesh = (Ok links, two_triangles_mesh) /\
    (forall x, x ∈ links <->
       exists e p, e ∈ m_elements two_triangles_mesh
         /\ p ∈ element_legs
                  (Element_sortVerticiesAboutCenter
                     (m_nodes two_triangles_mesh) e)
         /\ x = canonical_leg two_triangles_mesh p) /\
    StronglySorted (fun a b => pair_lt a b = true) links /\
    (length links
     <= sum_list ((fun e => length (Element_nodes e))
                    <$> m_elements two_triangles_mesh))%nat.
Proof.
  destruct Cases.two_triangles_well_formed as (Hsort & Hvalid & _).
  split; [exact Hsort |]. split; [exact Hvalid |].
  exact (generateLinkTable_covers_element_legs two_triangles_mesh
           Hsort Hvalid).
Defined.

(** ** Positions by identifier *)

Lemma indexById_through_tables_witness :
  nodeOrderingIsLogical shuffled_mesh = false /\
  elementOrderingIsLogical shuffled_mesh = false /\
  ((forall p, m_nodeLookup shuffled_mesh !! 5 = Some p ->
      nodeIndexById 5 shuffled_mesh = (Ok p, shuffled_mesh)) /\
   (m_nodeLookup shuffled_mesh !! 5 = None ->
      nodeIndexById 5 shuffled_mesh
      = (Ok 0, set_m_nodeLookup (<[5 := 0]> (m_nodeLookup shuffled_mesh))
                 shuffled_mesh) /\
      m_nodeLookup
        (set_m_nodeLookup (<[5 := 0]> (m_nodeLookup shuffled_mesh))
           shuffled_mesh) !! 5 = Some 0 /\
      nodeIndexById 5
        (set_m_nodeLookup (<[5 := 0]> (m_nodeLookup shuffled_mesh))
           shuffled_mesh)
      = (Ok 0, set_m_nodeLookup (<[5 := 0]> (m_nodeLookup shuffled_mesh))
                 shuffled_mesh)) /\
   (forall p, m_elementLookup shuffled_mesh !! 5 = Some p ->
      elementIndexById 5 shuffled_mesh = (Ok p, shuffled_mesh)) /\
   (m_elementLookup shuffled_mesh !! 5 = None ->
      elementIndexById 5 shuffled_mesh
      = (Ok 0,
         set_m_elementLookup (<[5 := 0]> (m_elementLookup shuffled_mesh))
           shuffled_mesh) /\
      m_elementLookup
        (set_m_elementLookup (<[5 := 0]> (m_elementLookup shuffled_mesh))
           shuffled_mesh) !! 5 = Some 0 /\
      elementIndexById 5
        (set_m_elementLookup (<[5 := 0]> (m_elementLookup shuffled_mesh))
           shuffled_mesh)
      = (Ok 0,
         set_m_elementLookup (<[5 := 0]> (m_elementLookup shuffled_mesh))
           shuffled_mesh))).
Proof.
  assert (Hn : nodeOrderingIsLogical shuffled_mesh = false) by reflexivity.
  assert (He : elementOrderingIsLogical shuffled_mesh = false)
    by reflexivity.
  split; [exact Hn |]. split; [exact He |].
  exact (indexById_through_tables shuffled_mesh 5 Hn He).
Defined.

(** Identifier 10 is held by the table, identifier 5 is not. *)
Example indexById_values :
  (nodeIndexById 10 shuffled_mesh).1 = Ok 1 /\
  (nodeIndexById 5 shuffled_mesh).1 = Ok 0 /\
  m_nodeLookup shuffled_mesh !! 5 = None /\
  m_nodeLookup (nodeIndexById 5 shuffled_mesh).2 !! 5 = Some 0.
Proof. repeat split; reflexivity. Qed.

Lemma boundary_by_position_witness :
  counts_match_storage sequential_mesh /\
  ((0 < numOpenBoundaries sequential_mesh ->
      openBoundary 0 sequential_mesh = (Ok 0, sequential_mesh)
      /\ is_Some (m_openBoundaries sequential_mesh !! N.to_nat 0)) /\
   (numOpenBoundaries sequential_mesh <= 0 ->
      openBoundary 0 sequential_mesh
      = (Throw "Mesh: Open boundary index out of bounds", sequential_mesh))
   /\
   (0 < numLandBoundaries sequential_mesh ->
      landBoundary 0 sequential_mesh = (Ok 0, sequential_mesh)
      /\ is_Some (m_landBoundaries sequential_mesh !! N.to_nat 0)) /\
   (numLandBoundaries sequential_mesh <= 0 ->
      landBoundary 0 sequential_mesh
      = (Throw "Mesh: Land boundary index out of bounds", sequential_mesh))).
Proof.
  split; [exact sequential_counts |].
  exact (boundary_by_position sequential_mesh 0 sequential_counts).
Defined.

Example boundary_by_position_values :
  (openBoundary 0 sequential_mesh).1 = Ok 0 /\
  (openBoundary 1 sequential_mesh).1
  = Throw "Mesh: Open boundary index out of bounds" /\
  (landBoundary 1 sequential_mesh).1
  = Throw "Mesh: Land boundary index out of bounds".
Proof. repeat split; reflexivity. Qed.

(** ** The native-ASCII reader *)

Lemma swapped_read :
  m_filename (Mesh_new "swapped.14") <> "" /\
  disk !! m_filename (Mesh_new "swapped.14") = Some swapped_elements_file /\
  selects_adcirc MESH_UNKNOWN (m_filename (Mesh_new "swapped.14")) /\
  read disk MESH_UNKNOWN (Mesh_new "swapped.14")
  = (Ok tt, swapped_elements_mesh).
Proof.
  split; [discriminate |]. split; [reflexivity |].
  split; reflexivity.
Qed.

Lemma reread :
  m_filename reread_start <> "" /\
  disk !! m_filename reread_start = Some sequential_file /\
  selects_adcirc MESH_UNKNOWN (m_filename reread_start) /\
  read disk MESH_UNKNOWN reread_start = (Ok tt, reread_mesh).
Proof.
  split; [discriminate |]. split; [reflexivity |].
  split; reflexivity.
Qed.

Lemma read_counts_match_storage_witness :
  m_filename (Mesh_new "sequential.14") <> "" /\
  is_Some (disk !! m_filename (Mesh_new "sequential.14")) /\
  selects_adcirc MESH_UNKNOWN (m_filename (Mesh_new "sequential.14")) /\
  read disk MESH_UNKNOWN (Mesh_new "sequential.14")
  = (Ok tt, sequential_mesh) /\
  counts_match_storage sequential_mesh.
Proof.
  destruct sequential_read as (Hname & Hfile & Hformat & Hread).
  assert (Hsome : is_Some (disk !! m_filename (Mesh_new "sequential.14")))
    by (eexists; exact Hfile).
  split; [exact Hname |]. split; [exact Hsome |]. split; [exact Hformat |].
  split; [exact Hread |].
  exact (read_counts_match_storage disk MESH_UNKNOWN
           (Mesh_new "sequential.14") sequential_mesh
           Hname Hsome Hformat Hread).
Defined.

Lemma read_node_flag_iff_sequential_witness :
  m_filename (Mesh_new "shuffled.14") <> "" /\
  is_Some (disk !! m_filename (Mesh_new "shuffled.14")) /\
  selects_adcirc MESH_UNKNOWN (m_filename (Mesh_new "shuffled.14")) /\
  read disk MESH_UNKNOWN (Mesh_new "shuffled.14") = (Ok tt, shuffled_mesh) /\
  numNodes shuffled_mesh < SIZE_MODULUS /\
  Forall (fun nd => Node_id nd < SIZE_MODULUS) (m_nodes shuffled_mesh) /\
  (nodeOrderingIsLogical shuffled_mesh = true
   <-> ids_sequential (Node_id <$> m_nodes shuffled_mesh)).
Proof.
  destruct shuffled_read as (Hname & Hfile & Hformat & Hread).
  assert (Hsome : is_Some (disk !! m_filename (Mesh_new "shuffled.14")))
    by (eexists; exact Hfile).
  assert (Hsize : numNodes shuffled_mesh < SIZE_MODULUS) by reflexivity.
  assert (Hids : Forall (fun nd => Node_id nd < SIZE_MODULUS)
                        (m_nodes shuffled_mesh)) by (repeat constructor).
  split; [exact Hname |]. split; [exact Hsome |]. split; [exact Hformat |].
  split; [exact Hread |]. split; [exact Hsize |]. split; [exact Hids |].
  exact (read_node_flag_iff_sequential disk MESH_UNKNOWN
           (Mesh_new "shuffled.14") shuffled_mesh
           Hname Hsome Hformat Hread Hsize Hids).
Defined.

(** Both sides of the equivalence, on the two files. *)
Example node_flag_values :
  nodeOrderingIsLogical sequential_mesh = true /\
  Node_id <$> m_nodes sequential_mesh = [1; 2; 3] /\
  nodeOrderingIsLogical shuffled_mesh = false /\
  Node_id <$> m_nodes shuffled_mesh = [30; 10; 20].
Proof. repeat split; reflexivity. Qed.

Lemma nodeById_after_sequential_read_witness :
  m_filename (Mesh_new "sequential.14") <> "" /\
  is_Some (disk !! m_filename (Mesh_new "sequential.14")) /\
  selects_adcirc MESH_UNKNOWN (m_filename (Mesh_new "sequential.14")) /\
  read disk MESH_UNKNOWN (Mesh_new "sequential.14")
  = (Ok tt, sequential_mesh) /\
  numNodes sequential_mesh < SIZE_MODULUS /\
  Forall (fun nd => Node_id nd < SIZE_MODULUS) (m_nodes sequential_mesh) /\
  nodeOrderingIsLogical sequential_mesh = true /\
  ((0 < 2 <= numNodes sequential_mesh ->
      exists nd, nodeById 2 sequential_mesh = (Ok (2 - 1), sequential_mesh)
                 /\ node_at sequential_mesh (2 - 1) = Some nd
                 /\ Node_id nd = 2) /\
   (2 = 0 \/ numNodes sequential_mesh < 2 ->
      nodeById 2 sequential_mesh
      = (Throw ("Mesh: Node id " +:+ to_string 2 +:+ " not found"),
         sequential_mesh))).
Proof.
  destruct sequential_read as (Hname & Hfile & Hformat & Hread).
  assert (Hsome : is_Some (disk !! m_filename (Mesh_new "sequential.14")))
    by (eexists; exact Hfile).
  assert (Hsize : numNodes sequential_mesh < SIZE_MODULUS) by reflexivity.
  assert (Hids : Forall (fun nd => Node_id nd < SIZE_MODULUS)
                        (m_nodes sequential_mesh)) by (repeat constructor).
  assert (Hflag : nodeOrderingIsLogical sequential_mesh = true)
    by reflexivity.
  split; [exact Hname |]. split; [exact Hsome |]. split; [exact Hformat |].
  split; [exact Hread |]. split; [exact Hsize |]. split; [exact Hids |].
  split; [exact Hflag |].
  exact (nodeById_after_sequential_read disk MESH_UNKNOWN
           (Mesh_new "sequential.14") sequential_mesh 2
           Hname Hsome Hformat Hread Hsize Hids Hflag).
Defined.

Example nodeById_values :
  (nodeById 2 sequential_mesh).1 = Ok 1 /\
  (nodeById 0 sequential_mesh).1 = Throw "Mesh: Node id 0 not found" /\
  (nodeById 4 sequential_mesh).1 = Throw "Mesh: Node id 4 not found".
Proof. repeat split; reflexivity. Qed.

Lemma read_keeps_identifier_tables_witness :
  m_filename reread_start <> "" /\
  is_Some (disk !! m_filename reread_start) /\
  selects_adcirc MESH_UNKNOWN (m_filename reread_start) /\
  read disk MESH_UNKNOWN reread_start = (Ok tt, reread_mesh) /\
  ((forall k, is_Some (m_nodeLookup reread_start !! k) ->
              is_Some (m_nodeLookup reread_mesh !! k)) /\
   (forall k, is_Some (m_elementLookup reread_start !! k) ->
              is_Some (m_elementLookup reread_mesh !! k))).
Proof.
  destruct reread as (Hname & Hfile & Hformat & Hread).
  assert (Hsome : is_Some (disk !! m_filename reread_start))
    by (eexists; exact Hfile).
  split; [exact Hname |]. split; [exact Hsome |]. split; [exact Hformat |].
  split; [exact Hread |].
  exact (read_keeps_identifier_tables disk MESH_UNKNOWN reread_start
           reread_mesh (Ok tt) Hname Hsome Hformat Hread).
Defined.

(** The object that read the shuffled file and then the sequential one
    still maps the identifiers 30, 10, 20 and 7 of the first file, to
    positions of the second. *)
Example reread_tables :
  Node_id <$> m_nodes reread_mesh = [1; 2; 3] /\
  m_nodeLookup reread_mesh !! 30 = Some 0 /\
  m_nodeLookup reread_mesh !! 10 = Some 1 /\
  m_nodeLookup reread_mesh !! 20 = Some 2 /\
  m_elementLookup reread_mesh !! 7 = Some 0.
Proof. repeat split; reflexivity. Qed.

Lemma read_nodes_decoded_witness :
  m_filename (Mesh_new "shuffled.14") <> "" /\
  disk !! m_filename (Mesh_new "shuffled.14") = Some shuffled_file /\
  selects_adcirc MESH_UNKNOWN (m_filename (Mesh_new "shuffled.14")) /\
  read disk MESH_UNKNOWN (Mesh_new "shuffled.14") = (Ok tt, shuffled_mesh) /\
  (2 + N.to_nat (numNodes shuffled_mesh)
   <= length (file_lines shuffled_file))%nat /\
  (meshHeaderString shuffled_mesh = line_of shuffled_file 0 /\
   (exists a b rest,
      IO_splitString (line_of shuffled_file 1) = a :: b :: rest /\
      StringConversion_stringToSizet a = (numElements shuffled_mesh, true) /\
      StringConversion_stringToSizet b = (numNodes shuffled_mesh, true)) /\
   (forall i, i < numNodes shuffled_mesh ->
      exists id x y z,
        IO_splitStringNodeFormat (line_of shuffled_file (2 + N.to_nat i))
        = Some (id, x, y, z)
        /\ node_at shuffled_mesh i = Some (mkNode id x y z))).
Proof.
  destruct shuffled_read as (Hname & Hfile & Hformat & Hread).
  assert (Hlines : (2 + N.to_nat (numNodes shuffled_mesh)
                    <= length (file_lines shuffled_file))%nat)
    by (simpl; lia).
  split; [exact Hname |]. split; [exact Hfile |]. split; [exact Hformat |].
  split; [exact Hread |]. split; [exact Hlines |].
  exact (read_nodes_decoded disk MESH_UNKNOWN (Mesh_new "shuffled.14")
           shuffled_mesh shuffled_file Hname Hfile Hformat Hread Hlines).
Defined.

Lemma read_elements_decoded_witness :
  m_filename (Mesh_new "shuffled.14") <> "" /\
  disk !! m_filename (Mesh_new "shuffled.14") = Some shuffled_file /\
  selects_adcirc MESH_UNKNOWN (m_filename (Mesh_new "shuffled.14")) /\
  read disk MESH_UNKNOWN (Mesh_new "shuffled.14") = (Ok tt, shuffled_mesh) /\
  (2 + N.to_nat (numNodes shuffled_mesh)
   + N.to_nat (numElements shuffled_mesh)
   <= length (file_lines shuffled_file))%nat /\
  (forall i, i < numElements shuffled_mesh ->
     exists id n,
       IO_splitStringElemFormat
         (line_of shuffled_file
            (2 + N.to_nat (numNodes shuffled_mesh) + N.to_nat i))
       = Some (id, n) /\
       (triangle_or_quad n ->
          element_at shuffled_mesh i
          = Some (mkElement id (node_position shuffled_mesh <$> n))) /\
       (~ triangle_or_quad n ->
          element_at shuffled_mesh i = Some Element_default)).
Proof.
  destruct shuffled_read as (Hname & Hfile & Hformat & Hread).
  assert (Hlines : (2 + N.to_nat (numNodes shuffled_mesh)
                    + N.to_nat (numElements shuffled_mesh)
                    <= length (file_lines shuffled_file))%nat)
    by (simpl; lia).
  split; [exact Hname |]. split; [exact Hfile |]. split; [exact Hformat |].
  split; [exact Hread |]. split; [exact Hlines |].
  exact (read_elements_decoded disk MESH_UNKNOWN (Mesh_new "shuffled.14")
           shuffled_mesh shuffled_file Hname Hfile Hformat Hread Hlines).
Defined.

(** The element line of the shuffled file and the element stored for it:
    the node identifiers 30, 10, 20 became the positions 0, 1, 2. *)
Example shuffled_element_line :
  IO_splitStringElemFormat (line_of shuffled_file 5) = Some (7, [30; 10; 20])
  /\ element_at shuffled_mesh 0 = Some (mkElement 7 [0; 1; 2]).
Proof. split; reflexivity. Qed.

Lemma read_element_flag_witness :
  m_filename (Mesh_new "swapped.14") <> "" /\
  disk !! m_filename (Mesh_new "swapped.14") = Some swapped_elements_file /\
  selects_adcirc MESH_UNKNOWN (m_filename (Mesh_new "swapped.14")) /\
  read disk MESH_UNKNOWN (Mesh_new "swapped.14")
  = (Ok tt, swapped_elements_mesh) /\
  (2 + N.to_nat (numNodes swapped_elements_mesh)
   + N.to_nat (numElements swapped_elements_mesh)
   <= length (file_lines swapped_elements_file))%nat /\
  (elementOrderingIsLogical swapped_elements_mesh = true
   <-> nodeOrderingIsLogical swapped_elements_mesh = true
       \/ forall i id n, i < numElements swapped_elements_mesh ->
            IO_splitStringElemFormat
              (line_of swapped_elements_file
                 (2 + N.to_nat (numNodes swapped_elements_mesh)
                  + N.to_nat i))
            = Some (id, n) ->
            size_sub id 1 = i).
Proof.
  destruct swapped_read as (Hname & Hfile & Hformat & Hread).
  assert (Hlines : (2 + N.to_nat (numNodes swapped_elements_mesh)
                    + N.to_nat (numElements swapped_elements_mesh)
                    <= length (file_lines swapped_elements_file))%nat)
    by (simpl; lia).
  split; [exact Hname |]. split; [exact Hfile |]. split; [exact Hformat |].
  split; [exact Hread |]. split; [exact Hlines |].
  exact (read_element_flag disk MESH_UNKNOWN (Mesh_new "swapped.14")
           swapped_elements_mesh swapped_elements_file
           Hname Hfile Hformat Hread Hlines).
Defined.

(** The file whose elements are stored in the order 2, 1 is read with the
    element flag set, since its nodes are sequential. *)
Example swapped_flags :
  nodeOrderingIsLogical swapped_elements_mesh = true /\
  elementOrderingIsLogical swapped_elements_mesh = true /\
  Element_id <$> m_elements swapped_elements_mesh = [2; 1].
Proof. repeat split; reflexivity. Qed.

Lemma elementById_after_shuffled_read_witness :
  m_filename (Mesh_new "shuffled.14") <> "" /\
  is_Some (disk !! m_filename (Mesh_new "shuffled.14")) /\
  selects_adcirc MESH_UNKNOWN (m_filename (Mesh_new "shuffled.14")) /\
  read disk MESH_UNKNOWN (Mesh_new "shuffled.14") = (Ok tt, shuffled_mesh) /\
  elementOrderingIsLogical shuffled_mesh = false /\
  (forall e, e ∈ m_elements shuffled_mesh ->
     exists p e', elementById (Element_id e) shuffled_mesh
                  = (Ok p, shuffled_mesh)
                  /\ element_at shuffled_mesh p = Some e'
                  /\ Element_id e' = Element_id e).
Proof.
  destruct shuffled_read as (Hname & Hfile & Hformat & Hread).
  assert (Hsome : is_Some (disk !! m_filename (Mesh_new "shuffled.14")))
    by (eexists; exact Hfile).
  assert (Hflag : elementOrderingIsLogical shuffled_mesh = false)
    by reflexivity.
  split; [exact Hname |]. split; [exact Hsome |]. split; [exact Hformat |].
  split; [exact Hread |]. split; [exact Hflag |].
  exact (elementById_after_shuffled_read disk MESH_UNKNOWN
           (Mesh_new "shuffled.14") shuffled_mesh
           Hname Hsome Hformat Hread Hflag).
Defined.

Example elementById_values :
  (elementById 7 shuffled_mesh).1 = Ok 0 /\
  Element_id <$> m_elements shuffled_mesh = [7].
Proof. split; reflexivity. Qed.

Lemma pair_element_lines (i id : N) (n : list N) :
  i < numElements two_triangles_mesh ->
  IO_splitStringElemFormat
    (line_of two_triangles_file
       (2 + N.to_nat (numNodes two_triangles_mesh) + N.to_nat i))
  = Some (id, n) ->
  triangle_or_quad n /\
  Forall (fun k => exists nd, nd ∈ m_nodes two_triangles_mesh
                              /\ Node_id nd = k) n.
Proof.
  intros Hi Hline.
  assert (Hcases : i = 0 \/ i = 1)
    by (change (numElements two_triangles_mesh) with 2 in Hi; lia).
  destruct Hcases as [-> | ->]; vm_compute in Hline;
    injection Hline as <- <-; (split; [left; reflexivity |]);
    repeat (apply Forall_cons_2 || apply Forall_nil_2);
    match goal with
    | |- exists nd, _ /\ Node_id nd = ?k =>
        exists (default Node_default
                  (m_nodes two_triangles_mesh !! N.to_nat (k - 1)));
        split; [| reflexivity];
        apply list_elem_of_lookup_2 with (i := N.to_nat (k - 1));
        reflexivity
    end.
Qed.

Lemma connectivity_after_read_witness :
  m_filename (Mesh_new "pair.grd") <> "" /\
  disk !! m_filename (Mesh_new "pair.grd") = Some two_triangles_file /\
  selects_adcirc MESH_UNKNOWN (m_filename (Mesh_new "pair.grd")) /\
  read disk MESH_UNKNOWN (Mesh_new "pair.grd") = (Ok tt, two_triangles_mesh)
  /\
  (2 + N.to_nat (numNodes two_triangles_mesh)
   + N.to_nat (numElements two_triangles_mesh)
   <= length (file_lines two_triangles_file))%nat /\
  numNodes two_triangles_mesh < SIZE_MODULUS /\
  Forall (fun nd => Node_id nd < SIZE_MODULUS) (m_nodes two_triangles_mesh)
  /\
  (forall i id n, i < numElements two_triangles_mesh ->
     IO_splitStringElemFormat
       (line_of two_triangles_file
          (2 + N.to_nat (numNodes two_triangles_mesh) + N.to_nat i))
     = Some (id, n) ->
     triangle_or_quad n /\
     Forall (fun k => exists nd, nd ∈ m_nodes two_triangles_mesh
                                 /\ Node_id nd = k) n) /\
  exists rows,
    connectivity two_triangles_mesh = (Ok rows, two_triangles_mesh) /\
    length rows = N.to_nat (numElements two_triangles_mesh) /\
    forall i id n, i < numElements two_triangles_mesh ->
      IO_splitStringElemFormat
        (line_of two_triangles_file
           (2 + N.to_nat (numNodes two_triangles_mesh) + N.to_nat i))
      = Some (id, n) ->
      rows !! N.to_nat i = Some n.
Proof.
  destruct pair_read as (Hname & Hfile & Hformat & Hread).
  assert (Hlines : (2 + N.to_nat (numNodes two_triangles_mesh)
                    + N.to_nat (numElements two_triangles_mesh)
                    <= length (file_lines two_triangles_file))%nat)
    by (simpl; lia).
  assert (Hsize : numNodes two_triangles_mesh < SIZE_MODULUS)
    by reflexivity.
  assert (Hids : Forall (fun nd => Node_id nd < SIZE_MODULUS)
                        (m_nodes two_triangles_mesh))
    by (repeat constructor).
  split; [exact Hname |]. split; [exact Hfile |]. split; [exact Hformat |].
  split; [exact Hread |]. split; [exact Hlines |]. split; [exact Hsize |].
  split; [exact Hids |]. split; [exact pair_element_lines |].
  exact (connectivity_after_read disk MESH_UNKNOWN (Mesh_new "pair.grd")
           two_triangles_mesh two_triangles_file Hname Hfile Hformat Hread
           Hlines Hsize Hids pair_element_lines).
Defined.

Lemma read_invalid_format_witness :
  m_filename (setFilename "notes.txt" sequential_mesh) <> "" /\
  is_Some (disk_with_notes
             !! m_filename (setFilename "notes.txt" sequential_mesh)) /\
  getMeshFormat (m_filename (setFilename "notes.txt" sequential_mesh))
  = MESH_UNKNOWN /\
  (read disk_with_notes MESH_UNKNOWN
     (setFilename "notes.txt" sequential_mesh)
   = (Throw "Invalid mesh format selected.",
      _init (setFilename "notes.txt" sequential_mesh))
   /\ freshly_cleared (_init (setFilename "notes.txt" sequential_mesh))).
Proof.
  assert (Hname : m_filename (setFilename "notes.txt" sequential_mesh) <> "")
    by discriminate.
  assert (Hsome : is_Some (disk_with_notes
                    !! m_filename (setFilename "notes.txt" sequential_mesh)))
    by (exists sequential_file; reflexivity).
  assert (Hformat : getMeshFormat
                      (m_filename (setFilename "notes.txt" sequential_mesh))
                    = MESH_UNKNOWN) by reflexivity.
  split; [exact Hname |]. split; [exact Hsome |]. split; [exact Hformat |].
  exact (read_invalid_format disk_with_notes
           (setFilename "notes.txt" sequential_mesh) Hname Hsome Hformat).
Defined.

(** The three nodes that the object held are gone after the refused
    read. *)
Example read_invalid_format_values :
  length (m_nodes (setFilename "notes.txt" sequential_mesh)) = 3%nat /\
  m_nodes (read disk_with_notes MESH_UNKNOWN
             (setFilename "notes.txt" sequential_mesh)).2 = [].
Proof. split; reflexivity. Qed.

(** ** Reprojection *)

Lemma reproject_replaces_coordinates_witness :
  numNodes sequential_mesh = N.of_nat (length (m_nodes sequential_mesh)) /\
  Projection_transform (projection sequential_mesh) 4330%Z
    ((fun nd => (Node_x nd, Node_y nd)) <$> m_nodes sequential_mesh)
    (replicate (N.to_nat (numNodes sequential_mesh)) Point_default)
  = (0%Z, [(4, 0); (14, 0); (4, 10)]%Z, Some false) /\
  ((0%Z <> Projection_NoError ->
      reproject 4330%Z sequential_mesh
      = (Throw "Mesh: Proj4 library error", sequential_mesh)) /\
   (0%Z = Projection_NoError ->
    (length (m_nodes sequential_mesh)
     <= length [(4, 0); (14, 0); (4, 10)]%Z)%nat ->
    forall b, Some false = Some b ->
      exists m',
        reproject 4330%Z sequential_mesh = (Ok tt, m') /\
        projection m' = 4330%Z /\ isLatLon m' = b /\
        length (m_nodes m') = length (m_nodes sequential_mesh) /\
        (forall i nd, node_at sequential_mesh i = Some nd ->
           exists o, [(4, 0); (14, 0); (4, 10)]%Z !! N.to_nat i = Some o /\
             node_at m' i
             = Some (mkNode (Node_id nd) o.1 o.2 (Node_z nd))) /\
        numNodes m' = numNodes sequential_mesh /\
        m_elements m' = m_elements sequential_mesh /\
        m_nodeLookup m' = m_nodeLookup sequential_mesh /\
        m_nodalSearchTree m' = m_nodalSearchTree sequential_mesh /\
        m_elementalSearchTree m'
        = m_elementalSearchTree sequential_mesh) /\
   (0%Z = Projection_NoError ->
    (length [(4, 0); (14, 0); (4, 10)]%Z
     < length (m_nodes sequential_mesh))%nat \/ Some false = None ->
      (reproject 4330%Z sequential_mesh).1 = Undefined)).
Proof.
  assert (Hcount : numNodes sequential_mesh
                   = N.of_nat (length (m_nodes sequential_mesh)))
    by reflexivity.
  assert (Hcall : Projection_transform (projection sequential_mesh) 4330%Z
                    ((fun nd => (Node_x nd, Node_y nd))
                       <$> m_nodes sequential_mesh)
                    (replicate (N.to_nat (numNodes sequential_mesh))
                       Point_default)
                  = (0%Z, [(4, 0); (14, 0); (4, 10)]%Z, Some false))
    by reflexivity.
  split; [exact Hcount |]. split; [exact Hcall |].
  exact (reproject_replaces_coordinates sequential_mesh 4330%Z 0%Z
           [(4, 0); (14, 0); (4, 10)]%Z (Some false) Hcount Hcall).
Defined.

(** The sequential mesh moved by four units, and the refused target
    code. *)
Example reproject_values :
  (reproject 4330%Z sequential_mesh).1 = Ok tt /\
  Node_x <$> m_nodes (reproject 4330%Z sequential_mesh).2
  = [4; 14; 4]%Z /\
  Node_id <$> m_nodes (reproject 4330%Z sequential_mesh).2 = [1; 2; 3] /\
  reproject (-5)%Z sequential_mesh
  = (Throw "Mesh: Proj4 library error", sequential_mesh).
Proof. repeat split; reflexivity. Qed.

End Scenarios.
